(** * Process table, lifecycle and signals of the RISC-V teaching kernel

    A shallow embedding of [kernel/proc.c]: the process records and the
    table, the spinlock discipline, [allocproc]/[freeproc], [fork],
    [exit], [wait], [sleep]/[wakeup]/[sched]/[yield], and the signal
    subsystem ([kill], [sigprocmask], [sigaction], [sigret],
    [signalhandler], [usersignalhandler]).

    Kernel calls are state transformers over the whole kernel state; a
    call ends by returning, by a panic, by spinning on a lock that another
    core holds, or by switching into the scheduler.  Console output
    ([printf]) is not part of the state and is left out. *)

From Stdlib Require Import ZArith Lia String.
From stdpp Require Import base option list.

Local Open Scope Z_scope.

(** ** Machine integers *)

(** [uint], [uint64] and [int] values are integers with the wrap-around
    of their width written out. *)
Definition u32 (x : Z) : Z := x mod 2 ^ 32.
Definition u64 (x : Z) : Z := x mod 2 ^ 64.
Definition s32 (x : Z) : Z := (x + 2 ^ 31) mod 2 ^ 32 - 2 ^ 31.

(** The C expression [1 << k], of type [int]. *)
Definition shl1 (k : Z) : Z := s32 (Z.shiftl 1 k).

(** ** Constants of the headers

    [param.h], [proc.h], [riscv.h] and [memlayout.h] are not among the
    sources; the constants [proc.c] takes from them are parameters. *)
Class Consts := {
  SIG_DFL : Z;
  SIG_IGN : Z;
  SIGKILL : Z;
  SIGSTOP : Z;
  SIGCONT : Z;
  NOFILE : nat;
  PGSIZE : Z;
  forkret : Z;               (* address of forkret *)
  sizeof_trapframe : Z;      (* sizeof(struct trapframe) *)
  func_size : Z;             (* endcallsigret - callsigret *)
  off_sa_handler : Z;        (* offsetof(struct sigaction, sa_handler) *)
  off_sigmask : Z            (* offsetof(struct sigaction, sigmask) *)
}.

(** The signal numbers of the headers lie in the range the kernel
    accepts. *)
Definition signum_ok (k : Z) : Prop := 0 <= k <= 31.

(** ** Data model *)

Inductive procstate := UNUSED | USED | SLEEPING | RUNNABLE | RUNNING | ZOMBIE.

Global Instance procstate_eq_dec : EqDecision procstate.
Proof. solve_decision. Defined.

(** A spinlock as seen from the executing core. *)
Inductive lockst := Free | HeldSelf | HeldOther.

Global Instance lockst_eq_dec : EqDecision lockst.
Proof. solve_decision. Defined.

(** Kernel pointers used as sleep channels: null, the address of a slot of
    the process table, or any other kernel address. *)
Inductive ptr := Null | ProcPtr (i : nat) | Addr (a : Z).

Global Instance ptr_eq_dec : EqDecision ptr.
Proof. solve_decision. Defined.

(** [struct trapframe]: the registers [proc.c] names, and the rest. *)
Record trapframe_t := {
  epc : Z;
  ra : Z;
  sp : Z;
  a0 : Z;
  tf_rest : list Z
}.

Definition set_epc (v : Z) (t : trapframe_t) : trapframe_t :=
  {| epc := v; ra := ra t; sp := sp t; a0 := a0 t; tf_rest := tf_rest t |}.
Definition set_ra (v : Z) (t : trapframe_t) : trapframe_t :=
  {| epc := epc t; ra := v; sp := sp t; a0 := a0 t; tf_rest := tf_rest t |}.
Definition set_sp (v : Z) (t : trapframe_t) : trapframe_t :=
  {| epc := epc t; ra := ra t; sp := v; a0 := a0 t; tf_rest := tf_rest t |}.
Definition set_a0 (v : Z) (t : trapframe_t) : trapframe_t :=
  {| epc := epc t; ra := ra t; sp := sp t; a0 := v; tf_rest := tf_rest t |}.

(** [struct context]: [ra], [sp] and the callee-saved registers. *)
Record context_t := {
  ctx_ra : Z;
  ctx_sp : Z;
  ctx_saved : list Z
}.

(** [struct proc].  The trap frame page belongs to the record alone, so it
    is held by value: [None] is the null pointer.  [parent] is an index
    into the table.  File, inode and page-table pointers are addresses,
    0 being null. *)
Record proc := {
  lock : lockst;
  state : procstate;
  chan : ptr;
  killed : Z;
  xstate : Z;
  pid : Z;
  parent : option nat;
  kstack : Z;
  sz : Z;
  pagetable : Z;
  trapframe : option trapframe_t;
  context : context_t;
  ofile : list Z;
  cwd : Z;
  name : string;
  signal_handlers : list Z;
  signals_mask : Z;
  pending_signals : Z;
  stopped : Z;
  signal_handling : Z;
  user_tf_backup : Z;
  signals_mask_backup : Z
}.

Definition set_lock (v : lockst) (p : proc) : proc :=
  {| lock := v; state := state p; chan := chan p; killed := killed p; xstate := xstate p;
     pid := pid p; parent := parent p; kstack := kstack p; sz := sz p; pagetable := pagetable
     p; trapframe := trapframe p; context := context p; ofile := ofile p; cwd := cwd p; name
     := name p; signal_handlers := signal_handlers p; signals_mask := signals_mask p;
     pending_signals := pending_signals p; stopped := stopped p; signal_handling :=
     signal_handling p; user_tf_backup := user_tf_backup p; signals_mask_backup :=
     signals_mask_backup p |}.
Definition set_state (v : procstate) (p : proc) : proc :=
  {| lock := lock p; state := v; chan := chan p; killed := killed p; xstate := xstate p;
     pid := pid p; parent := parent p; kstack := kstack p; sz := sz p; pagetable := pagetable
     p; trapframe := trapframe p; context := context p; ofile := ofile p; cwd := cwd p; name
     := name p; signal_handlers := signal_handlers p; signals_mask := signals_mask p;
     pending_signals := pending_signals p; stopped := stopped p; signal_handling :=
     signal_handling p; user_tf_backup := user_tf_backup p; signals_mask_backup :=
     signals_mask_backup p |}.
Definition set_chan (v : ptr) (p : proc) : proc :=
  {| lock := lock p; state := state p; chan := v; killed := killed p; xstate := xstate p;
     pid := pid p; parent := parent p; kstack := kstack p; sz := sz p; pagetable := pagetable
     p; trapframe := trapframe p; context := context p; ofile := ofile p; cwd := cwd p; name
     := name p; signal_handlers := signal_handlers p; signals_mask := signals_mask p;
     pending_signals := pending_signals p; stopped := stopped p; signal_handling :=
     signal_handling p; user_tf_backup := user_tf_backup p; signals_mask_backup :=
     signals_mask_backup p |}.
Definition set_killed (v : Z) (p : proc) : proc :=
  {| lock := lock p; state := state p; chan := chan p; killed := v; xstate := xstate p;
     pid := pid p; parent := parent p; kstack := kstack p; sz := sz p; pagetable := pagetable
     p; trapframe := trapframe p; context := context p; ofile := ofile p; cwd := cwd p; name
     := name p; signal_handlers := signal_handlers p; signals_mask := signals_mask p;
     pending_signals := pending_signals p; stopped := stopped p; signal_handling :=
     signal_handling p; user_tf_backup := user_tf_backup p; signals_mask_backup :=
     signals_mask_backup p |}.
Definition set_xstate (v : Z) (p : proc) : proc :=
  {| lock := lock p; state := state p; chan := chan p; killed := killed p; xstate := v;
     pid := pid p; parent := parent p; kstack := kstack p; sz := sz p; pagetable := pagetable
     p; trapframe := trapframe p; context := context p; ofile := ofile p; cwd := cwd p; name
     := name p; signal_handlers := signal_handlers p; signals_mask := signals_mask p;
     pending_signals := pending_signals p; stopped := stopped p; signal_handling :=
     signal_handling p; user_tf_backup := user_tf_backup p; signals_mask_backup :=
     signals_mask_backup p |}.
Definition set_pid (v : Z) (p : proc) : proc :=
  {| lock := lock p; state := state p; chan := chan p; killed := killed p; xstate :=
     xstate p; pid := v; parent := parent p; kstack := kstack p; sz := sz p; pagetable :=
     pagetable p; trapframe := trapframe p; context := context p; ofile := ofile p; cwd :=
     cwd p; name := name p; signal_handlers := signal_handlers p; signals_mask :=
     signals_mask p; pending_signals := pending_signals p; stopped := stopped p;
     signal_handling := signal_handling p; user_tf_backup := user_tf_backup p;
     signals_mask_backup := signals_mask_backup p |}.
Definition set_parent (v : option nat) (p : proc) : proc :=
  {| lock := lock p; state := state p; chan := chan p; killed := killed p; xstate :=
     xstate p; pid := pid p; parent := v; kstack := kstack p; sz := sz p; pagetable :=
     pagetable p; trapframe := trapframe p; context := context p; ofile := ofile p; cwd :=
     cwd p; name := name p; signal_handlers := signal_handlers p; signals_mask :=
     signals_mask p; pending_signals := pending_signals p; stopped := stopped p;
     signal_handling := signal_handling p; user_tf_backup := user_tf_backup p;
     signals_mask_backup := signals_mask_backup p |}.
Definition set_sz (v : Z) (p : proc) : proc :=
  {| lock := lock p; state := state p; chan := chan p; killed := killed p; xstate :=
     xstate p; pid := pid p; parent := parent p; kstack := kstack p; sz := v; pagetable :=
     pagetable p; trapframe := trapframe p; context := context p; ofile := ofile p; cwd :=
     cwd p; name := name p; signal_handlers := signal_handlers p; signals_mask :=
     signals_mask p; pending_signals := pending_signals p; stopped := stopped p;
     signal_handling := signal_handling p; user_tf_backup := user_tf_backup p;
     signals_mask_backup := signals_mask_backup p |}.
Definition set_pagetable (v : Z) (p : proc) : proc :=
  {| lock := lock p; state := state p; chan := chan p; killed := killed p; xstate :=
     xstate p; pid := pid p; parent := parent p; kstack := kstack p; sz := sz p; pagetable :=
     v; trapframe := trapframe p; context := context p; ofile := ofile p; cwd := cwd p; name
     := name p; signal_handlers := signal_handlers p; signals_mask := signals_mask p;
     pending_signals := pending_signals p; stopped := stopped p; signal_handling :=
     signal_handling p; user_tf_backup := user_tf_backup p; signals_mask_backup :=
     signals_mask_backup p |}.
Definition set_trapframe (v : option trapframe_t) (p : proc) : proc :=
  {| lock := lock p; state := state p; chan := chan p; killed := killed p; xstate :=
     xstate p; pid := pid p; parent := parent p; kstack := kstack p; sz := sz p; pagetable :=
     pagetable p; trapframe := v; context := context p; ofile := ofile p; cwd := cwd p; name
     := name p; signal_handlers := signal_handlers p; signals_mask := signals_mask p;
     pending_signals := pending_signals p; stopped := stopped p; signal_handling :=
     signal_handling p; user_tf_backup := user_tf_backup p; signals_mask_backup :=
     signals_mask_backup p |}.
Definition set_context (v : context_t) (p : proc) : proc :=
  {| lock := lock p; state := state p; chan := chan p; killed := killed p; xstate :=
     xstate p; pid := pid p; parent := parent p; kstack := kstack p; sz := sz p; pagetable :=
     pagetable p; trapframe := trapframe p; context := v; ofile := ofile p; cwd := cwd p;
     name := name p; signal_handlers := signal_handlers p; signals_mask := signals_mask p;
     pending_signals := pending_signals p; stopped := stopped p; signal_handling :=
     signal_handling p; user_tf_backup := user_tf_backup p; signals_mask_backup :=
     signals_mask_backup p |}.
Definition set_ofile (v : list Z) (p : proc) : proc :=
  {| lock := lock p; state := state p; chan := chan p; killed := killed p; xstate :=
     xstate p; pid := pid p; parent := parent p; kstack := kstack p; sz := sz p; pagetable :=
     pagetable p; trapframe := trapframe p; context := context p; ofile := v; cwd := cwd p;
     name := name p; signal_handlers := signal_handlers p; signals_mask := signals_mask p;
     pending_signals := pending_signals p; stopped := stopped p; signal_handling :=
     signal_handling p; user_tf_backup := user_tf_backup p; signals_mask_backup :=
     signals_mask_backup p |}.
Definition set_cwd (v : Z) (p : proc) : proc :=
  {| lock := lock p; state := state p; chan := chan p; killed := killed p; xstate :=
     xstate p; pid := pid p; parent := parent p; kstack := kstack p; sz := sz p; pagetable :=
     pagetable p; trapframe := trapframe p; context := context p; ofile := ofile p; cwd := v;
     name := name p; signal_handlers := signal_handlers p; signals_mask := signals_mask p;
     pending_signals := pending_signals p; stopped := stopped p; signal_handling :=
     signal_handling p; user_tf_backup := user_tf_backup p; signals_mask_backup :=
     signals_mask_backup p |}.
Definition set_name (v : string) (p : proc) : proc :=
  {| lock := lock p; state := state p; chan := chan p; killed := killed p; xstate :=
     xstate p; pid := pid p; parent := parent p; kstack := kstack p; sz := sz p; pagetable :=
     pagetable p; trapframe := trapframe p; context := context p; ofile := ofile p; cwd :=
     cwd p; name := v; signal_handlers := signal_handlers p; signals_mask := signals_mask p;
     pending_signals := pending_signals p; stopped := stopped p; signal_handling :=
     signal_handling p; user_tf_backup := user_tf_backup p; signals_mask_backup :=
     signals_mask_backup p |}.
Definition set_signal_handlers (v : list Z) (p : proc) : proc :=
  {| lock := lock p; state := state p; chan := chan p; killed := killed p; xstate :=
     xstate p; pid := pid p; parent := parent p; kstack := kstack p; sz := sz p; pagetable :=
     pagetable p; trapframe := trapframe p; context := context p; ofile := ofile p; cwd :=
     cwd p; name := name p; signal_handlers := v; signals_mask := signals_mask p;
     pending_signals := pending_signals p; stopped := stopped p; signal_handling :=
     signal_handling p; user_tf_backup := user_tf_backup p; signals_mask_backup :=
     signals_mask_backup p |}.
Definition set_signals_mask (v : Z) (p : proc) : proc :=
  {| lock := lock p; state := state p; chan := chan p; killed := killed p; xstate :=
     xstate p; pid := pid p; parent := parent p; kstack := kstack p; sz := sz p; pagetable :=
     pagetable p; trapframe := trapframe p; context := context p; ofile := ofile p; cwd :=
     cwd p; name := name p; signal_handlers := signal_handlers p; signals_mask := v;
     pending_signals := pending_signals p; stopped := stopped p; signal_handling :=
     signal_handling p; user_tf_backup := user_tf_backup p; signals_mask_backup :=
     signals_mask_backup p |}.
Definition set_pending_signals (v : Z) (p : proc) : proc :=
  {| lock := lock p; state := state p; chan := chan p; killed := killed p; xstate :=
     xstate p; pid := pid p; parent := parent p; kstack := kstack p; sz := sz p; pagetable :=
     pagetable p; trapframe := trapframe p; context := context p; ofile := ofile p; cwd :=
     cwd p; name := name p; signal_handlers := signal_handlers p; signals_mask :=
     signals_mask p; pending_signals := v; stopped := stopped p; signal_handling :=
     signal_handling p; user_tf_backup := user_tf_backup p; signals_mask_backup :=
     signals_mask_backup p |}.
Definition set_stopped (v : Z) (p : proc) : proc :=
  {| lock := lock p; state := state p; chan := chan p; killed := killed p; xstate :=
     xstate p; pid := pid p; parent := parent p; kstack := kstack p; sz := sz p; pagetable :=
     pagetable p; trapframe := trapframe p; context := context p; ofile := ofile p; cwd :=
     cwd p; name := name p; signal_handlers := signal_handlers p; signals_mask :=
     signals_mask p; pending_signals := pending_signals p; stopped := v; signal_handling :=
     signal_handling p; user_tf_backup := user_tf_backup p; signals_mask_backup :=
     signals_mask_backup p |}.
Definition set_signal_handling (v : Z) (p : proc) : proc :=
  {| lock := lock p; state := state p; chan := chan p; killed := killed p; xstate :=
     xstate p; pid := pid p; parent := parent p; kstack := kstack p; sz := sz p; pagetable :=
     pagetable p; trapframe := trapframe p; context := context p; ofile := ofile p; cwd :=
     cwd p; name := name p; signal_handlers := signal_handlers p; signals_mask :=
     signals_mask p; pending_signals := pending_signals p; stopped := stopped p;
     signal_handling := v; user_tf_backup := user_tf_backup p; signals_mask_backup :=
     signals_mask_backup p |}.
Definition set_user_tf_backup (v : Z) (p : proc) : proc :=
  {| lock := lock p; state := state p; chan := chan p; killed := killed p; xstate :=
     xstate p; pid := pid p; parent := parent p; kstack := kstack p; sz := sz p; pagetable :=
     pagetable p; trapframe := trapframe p; context := context p; ofile := ofile p; cwd :=
     cwd p; name := name p; signal_handlers := signal_handlers p; signals_mask :=
     signals_mask p; pending_signals := pending_signals p; stopped := stopped p;
     signal_handling := signal_handling p; user_tf_backup := v; signals_mask_backup :=
     signals_mask_backup p |}.
Definition set_signals_mask_backup (v : Z) (p : proc) : proc :=
  {| lock := lock p; state := state p; chan := chan p; killed := killed p; xstate :=
     xstate p; pid := pid p; parent := parent p; kstack := kstack p; sz := sz p; pagetable :=
     pagetable p; trapframe := trapframe p; context := context p; ofile := ofile p; cwd :=
     cwd p; name := name p; signal_handlers := signal_handlers p; signals_mask :=
     signals_mask p; pending_signals := pending_signals p; stopped := stopped p;
     signal_handling := signal_handling p; user_tf_backup := user_tf_backup p;
     signals_mask_backup := v |}.

(** ** External collaborators

    The page allocator, the virtual-memory layer and the file layer are
    consumed through narrow calls.  Their state is opaque here: each call
    is a function of that state.  A call made on a pointer takes the
    pointer as an address. *)
Inductive region := TRAMPOLINE | TRAPFRAME.

Class Collab := {
  ext_t : Type;
  (* kalloc(): [None] when out of memory, else a page, read as a trap
     frame with whatever contents the page has *)
  kalloc : ext_t -> option trapframe_t * ext_t;
  kfree : ext_t -> ext_t;
  uvmcreate : ext_t -> Z * ext_t;
  mappages : Z -> region -> ext_t -> Z * ext_t;
  uvmunmap : Z -> region -> ext_t -> ext_t;
  uvmfree : Z -> Z -> ext_t -> ext_t;
  uvmcopy : Z -> Z -> Z -> ext_t -> Z * ext_t;
  (* copyout(pagetable, dstva, src, len) for an int, a trap frame and the
     code between callsigret and endcallsigret *)
  copyout_int : Z -> Z -> Z -> ext_t -> Z * ext_t;
  copyout_tf : Z -> Z -> trapframe_t -> ext_t -> Z * ext_t;
  copyout_code : Z -> Z -> Z -> ext_t -> Z * ext_t;
  (* copyin(pagetable, dst, srcva, len): the value read, [None] on error *)
  copyin_u64 : Z -> Z -> ext_t -> option Z;
  copyin_u32 : Z -> Z -> ext_t -> option Z;
  (* copyin over a whole trap frame: the frame found afterwards, given
     the frame found before (an error may leave it partly written) *)
  copyin_tf : Z -> Z -> trapframe_t -> ext_t -> trapframe_t;
  (* contents of a local variable that was never written *)
  stack_junk64 : Z;
  stack_junk32 : Z;
  filedup : Z -> ext_t -> Z * ext_t;
  fileclose : Z -> ext_t -> ext_t;
  idup : Z -> ext_t -> Z * ext_t;
  iput : Z -> ext_t -> ext_t;
  begin_op : ext_t -> ext_t;
  end_op : ext_t -> ext_t
}.

Section Kernel.
Context {K : Consts} {C : Collab}.

(** ** Kernel state

    The process table, the globals of [proc.c], the executing core's
    [struct cpu] and the collaborators' state.  [NPROC] is the length of
    the table. *)
Record kstate := {
  procs : list proc;
  nextpid : Z;
  pid_lock : lockst;
  wait_lock : lockst;
  initproc : option nat;
  cpu_proc : option nat;     (* mycpu()->proc *)
  noff : nat;                (* mycpu()->noff *)
  intena : bool;             (* mycpu()->intena *)
  ext : ext_t
}.

Definition set_procs (v : list proc) (s : kstate) : kstate :=
  {| procs := v; nextpid := nextpid s; pid_lock := pid_lock s; wait_lock := wait_lock s;
     initproc := initproc s; cpu_proc := cpu_proc s; noff := noff s; intena := intena s;
     ext := ext s |}.
Definition set_nextpid (v : Z) (s : kstate) : kstate :=
  {| procs := procs s; nextpid := v; pid_lock := pid_lock s; wait_lock := wait_lock s;
     initproc := initproc s; cpu_proc := cpu_proc s; noff := noff s; intena := intena s;
     ext := ext s |}.
Definition set_pid_lock (v : lockst) (s : kstate) : kstate :=
  {| procs := procs s; nextpid := nextpid s; pid_lock := v; wait_lock := wait_lock s;
     initproc := initproc s; cpu_proc := cpu_proc s; noff := noff s; intena := intena s;
     ext := ext s |}.
Definition set_wait_lock (v : lockst) (s : kstate) : kstate :=
  {| procs := procs s; nextpid := nextpid s; pid_lock := pid_lock s; wait_lock := v;
     initproc := initproc s; cpu_proc := cpu_proc s; noff := noff s; intena := intena s;
     ext := ext s |}.
Definition set_initproc (v : option nat) (s : kstate) : kstate :=
  {| procs := procs s; nextpid := nextpid s; pid_lock := pid_lock s; wait_lock := wait_lock s;
     initproc := v; cpu_proc := cpu_proc s; noff := noff s; intena := intena s;
     ext := ext s |}.
Definition set_cpu_proc (v : option nat) (s : kstate) : kstate :=
  {| procs := procs s; nextpid := nextpid s; pid_lock := pid_lock s; wait_lock := wait_lock s;
     initproc := initproc s; cpu_proc := v; noff := noff s; intena := intena s;
     ext := ext s |}.
Definition set_noff (v : nat) (s : kstate) : kstate :=
  {| procs := procs s; nextpid := nextpid s; pid_lock := pid_lock s; wait_lock := wait_lock s;
     initproc := initproc s; cpu_proc := cpu_proc s; noff := v; intena := intena s;
     ext := ext s |}.
Definition set_intena (v : bool) (s : kstate) : kstate :=
  {| procs := procs s; nextpid := nextpid s; pid_lock := pid_lock s; wait_lock := wait_lock s;
     initproc := initproc s; cpu_proc := cpu_proc s; noff := noff s; intena := v;
     ext := ext s |}.
Definition set_ext (v : ext_t) (s : kstate) : kstate :=
  {| procs := procs s; nextpid := nextpid s; pid_lock := pid_lock s; wait_lock := wait_lock s;
     initproc := initproc s; cpu_proc := cpu_proc s; noff := noff s; intena := intena s;
     ext := v |}.

(** ** Kernel calls

    How a call ends: it returns a value, the kernel panics, [acquire]
    spins on a lock held by another core, or the thread has switched into
    the scheduler and is not resumed in the run described. *)
Inductive outcome (A : Type) : Type :=
| Ret (a : A) (s : kstate)
| Panic (msg : string) (s : kstate)
| Spin (s : kstate)
| Switched (s : kstate).
Global Arguments Ret {A} a s.
Global Arguments Panic {A} msg s.
Global Arguments Spin {A} s.
Global Arguments Switched {A} s.

Definition M (A : Type) : Type := kstate -> outcome A.

Definition ret {A} (a : A) : M A := fun s => Ret a s.

Definition bind {A B} (m : M A) (k : A -> M B) : M B :=
  fun s =>
    match m s with
    | Ret a s' => k a s'
    | Panic msg s' => Panic msg s'
    | Spin s' => Spin s'
    | Switched s' => Switched s'
    end.

Local Notation "'let*' x ':=' c 'in' k" := (bind c (fun x => k))
  (at level 10, x name, c at level 100, k at level 200).
Local Notation "c ;; k" := (bind c (fun _ => k))
  (at level 100, k at level 200, right associativity).

Definition gets {A} (f : kstate -> A) : M A := fun s => Ret (f s) s.
Definition modify (f : kstate -> kstate) : M unit := fun s => Ret tt (f s).
Definition panic {A} (msg : string) : M A := fun s => Panic msg s.

(** The state in which a call ends. *)
Definition final {A} (o : outcome A) : kstate :=
  match o with
  | Ret _ s | Panic _ s | Spin s | Switched s => s
  end.

(** [p->...] on a pointer into the table; a null or wild pointer traps in
    the kernel. *)
Definition getp (i : nat) : M proc :=
  fun s =>
    match procs s !! i with
    | Some p => Ret p s
    | None => Panic "kerneltrap" s
    end.

Definition modp (i : nat) (f : proc -> proc) : M unit :=
  fun s =>
    match procs s !! i with
    | Some p => Ret tt (set_procs (<[i := f p]> (procs s)) s)
    | None => Panic "kerneltrap" s
    end.

(** [myproc()]: the process of the executing core. *)
Definition myproc : M (option nat) := gets cpu_proc.

(** [myproc()] where the code goes on to dereference the result. *)
Definition myproc_deref : M nat :=
  fun s =>
    match cpu_proc s with
    | Some i => Ret i s
    | None => Panic "kerneltrap" s
    end.

(** ** Spinlocks *)

(** The locks of [proc.c]. *)
Inductive lockref := PidLock | WaitLock | ProcLock (i : nat).

Definition lock_of (l : lockref) (s : kstate) : option lockst :=
  match l with
  | PidLock => Some (pid_lock s)
  | WaitLock => Some (wait_lock s)
  | ProcLock i => lock <$> procs s !! i
  end.

Definition lock_set (l : lockref) (v : lockst) (s : kstate) : kstate :=
  match l with
  | PidLock => set_pid_lock v s
  | WaitLock => set_wait_lock v s
  | ProcLock i =>
      match procs s !! i with
      | Some p => set_procs (<[i := set_lock v p]> (procs s)) s
      | None => s
      end
  end.

(** Modelled from the spec: [acquire], [release], [holding] and
    [intr_get] ([spinlock.c] and [riscv.h] are not among the sources).
    One thread of control holds a lock at a time; a core that takes a lock
    runs with interrupts disabled and counts the locks it holds in [noff];
    taking a lock one already holds, or releasing a lock one does not
    hold, is an invariant violation and halts the kernel. *)
Definition acquire (l : lockref) : M unit :=
  fun s =>
    match lock_of l s with
    | None => Panic "kerneltrap" s
    | Some HeldSelf => Panic "acquire" s
    | Some HeldOther => Spin s
    | Some Free => Ret tt (set_noff (S (noff s)) (lock_set l HeldSelf s))
    end.

Definition release (l : lockref) : M unit :=
  fun s =>
    match lock_of l s with
    | None => Panic "kerneltrap" s
    | Some HeldSelf =>
        match noff s with
        | O => Panic "pop_off" s
        | S n => Ret tt (set_noff n (lock_set l Free s))
        end
    | Some _ => Panic "release" s
    end.

Definition holding (l : lockref) : M bool :=
  gets (fun s => bool_decide (lock_of l s = Some HeldSelf)).

Definition intr_get : M bool := gets (fun s => bool_decide (noff s = O)).

(** ** Loops over the process table

    [for(p = proc; p < &proc[NPROC]; p++)]: the body runs on each slot in
    turn; [Some a] leaves the loop (a [return] or [goto] in the body)
    and [None] falls through to the next slot. *)
Fixpoint scan {A} (body : nat -> M (option A)) (slots : list nat) : M (option A) :=
  match slots with
  | [] => ret None
  | i :: rest =>
      let* r := body i in
      match r with
      | Some a => ret (Some a)
      | None => scan body rest
      end
  end.

Definition for_each_proc {A} (body : nat -> M (option A)) : M (option A) :=
  fun s => scan body (seq 0 (length (procs s))) s.

(** ** Scheduler hand-over *)

(** What the rest of the machine does to the kernel state while this
    thread is switched out. *)
Definition envstep : Type := kstate -> kstate.

(** [scheduler], after [swtch] has come back from the process in slot
    [i]: [c->proc = 0; release(&p->lock)]. *)
Definition scheduler_release (i : nat) (s : kstate) : kstate :=
  set_noff O (set_cpu_proc None (lock_set (ProcLock i) Free s)).

(** [scheduler] choosing slot [i]: with the lock taken, a [RUNNABLE]
    record is marked [RUNNING], becomes the core's process and is switched
    to.  [None] when the record is not picked. *)
Definition scheduler_pick (i : nat) (s : kstate) : option kstate :=
  match procs s !! i with
  | Some p =>
      if bool_decide (lock p = Free) && bool_decide (state p = RUNNABLE)
      then Some (set_noff 1%nat (set_cpu_proc (Some i)
                   (set_procs (<[i := set_state RUNNING (set_lock HeldSelf p)]> (procs s)) s)))
      else None
  | None => None
  end.

(** [swtch(&p->context, &mycpu()->context)] seen from the process: the
    scheduler drops the lock, the environment runs, and the thread resumes
    when the scheduler picks it again. *)
Definition swtch_out (i : nat) (e : option envstep) : M unit :=
  fun s =>
    match e with
    | None => Switched s
    | Some f =>
        let s' := f (scheduler_release i s) in
        match scheduler_pick i s' with
        | Some s'' => Ret tt s''
        | None => Switched s'
        end
    end.

Definition sched (e : option envstep) : M unit :=
  let* i := myproc_deref in
  let* p := getp i in
  let* h := holding (ProcLock i) in
  if negb h then panic "sched p->lock" else
  let* n := gets noff in
  if negb (bool_decide (n = 1%nat)) then panic "sched locks" else
  if bool_decide (state p = RUNNING) then panic "sched running" else
  let* ie := intr_get in
  if ie then panic "sched interruptible" else
  let* intena0 := gets intena in
  swtch_out i e ;;
  modify (set_intena intena0).

Definition yield (e : option envstep) : M unit :=
  let* i := myproc_deref in
  acquire (ProcLock i) ;;
  modp i (set_state RUNNABLE) ;;
  sched e ;;
  release (ProcLock i).

Definition sleep (ch : ptr) (lk : lockref) (e : option envstep) : M unit :=
  let* i := myproc_deref in
  acquire (ProcLock i) ;;
  release lk ;;
  modp i (set_chan ch) ;;
  modp i (set_state SLEEPING) ;;
  sched e ;;
  modp i (set_chan Null) ;;
  release (ProcLock i) ;;
  acquire lk.

Definition wakeup_body (ch : ptr) (i : nat) : M (option unit) :=
  let* me := myproc in
  if bool_decide (Some i = me) then ret None else
  acquire (ProcLock i) ;;
  let* p := getp i in
  (if bool_decide (state p = SLEEPING) && bool_decide (chan p = ch)
   then modp i (set_state RUNNABLE) else ret tt) ;;
  release (ProcLock i) ;;
  ret None.

Definition wakeup (ch : ptr) : M unit :=
  for_each_proc (wakeup_body ch) ;; ret tt.

(** A [struct proc *] used as a channel. *)
Definition chan_of (o : option nat) : ptr :=
  match o with
  | Some i => ProcPtr i
  | None => Null
  end.

(** ** Allocation *)

(** [nextpid] is an [int]: [nextpid + 1] is the sum of two [int]s and is
    stored with its wrap-around. *)
Definition allocpid : M Z :=
  acquire PidLock ;;
  let* pid0 := gets nextpid in
  modify (set_nextpid (s32 (pid0 + 1))) ;;
  release PidLock ;;
  ret pid0.

Definition call_ext {A} (f : ext_t -> A * ext_t) : M A :=
  fun s => let '(a, x) := f (ext s) in Ret a (set_ext x s).

Definition call_ext_ (f : ext_t -> ext_t) : M unit :=
  modify (fun s => set_ext (f (ext s)) s).

Definition proc_freepagetable (pt : Z) (size : Z) : M unit :=
  call_ext_ (uvmunmap pt TRAMPOLINE) ;;
  call_ext_ (uvmunmap pt TRAPFRAME) ;;
  call_ext_ (uvmfree pt size).

Definition freeproc (i : nat) : M unit :=
  let* p := getp i in
  (if bool_decide (trapframe p <> None) then call_ext_ kfree else ret tt) ;;
  modp i (set_trapframe None) ;;
  let* p := getp i in
  (if bool_decide (pagetable p <> 0) then proc_freepagetable (pagetable p) (sz p)
   else ret tt) ;;
  modp i (set_pagetable 0) ;;
  modp i (set_sz 0) ;;
  modp i (set_pid 0) ;;
  modp i (set_parent None) ;;
  modp i (set_name EmptyString) ;;
  modp i (set_chan Null) ;;
  modp i (set_killed 0) ;;
  modp i (set_xstate 0) ;;
  modp i (set_state UNUSED).

Definition proc_pagetable (i : nat) : M Z :=
  let* pt := call_ext uvmcreate in
  if pt =? 0 then ret 0 else
  let* r := call_ext (mappages pt TRAMPOLINE) in
  if r <? 0 then call_ext_ (uvmfree pt 0) ;; ret 0 else
  let* r := call_ext (mappages pt TRAPFRAME) in
  if r <? 0 then
    call_ext_ (uvmunmap pt TRAMPOLINE) ;; call_ext_ (uvmfree pt 0) ;; ret 0
  else ret pt.

Definition allocproc_body (i : nat) : M (option nat) :=
  acquire (ProcLock i) ;;
  let* p := getp i in
  if bool_decide (state p = UNUSED) then ret (Some i)
  else release (ProcLock i) ;; ret None.

(** [allocproc]: [None] is the null result; [Some i] is slot [i],
    returned with its lock held. *)
Definition allocproc : M (option nat) :=
  let* found := for_each_proc allocproc_body in
  match found with
  | None => ret None
  | Some i =>
      let* newpid := allocpid in
      modp i (set_pid newpid) ;;
      modp i (set_state USED) ;;
      modp i (set_signal_handlers (replicate 32 SIG_DFL)) ;;
      modp i (set_signals_mask 0) ;;
      modp i (set_pending_signals 0) ;;
      modp i (set_stopped 0) ;;
      modp i (set_signal_handling 0) ;;
      let* page := call_ext kalloc in
      modp i (set_trapframe page) ;;
      if bool_decide (page = None) then
        freeproc i ;; release (ProcLock i) ;; ret None
      else
      let* pt := proc_pagetable i in
      modp i (set_pagetable pt) ;;
      if pt =? 0 then
        freeproc i ;; release (ProcLock i) ;; ret None
      else
      let* p := getp i in
      modp i (set_context {| ctx_ra := forkret;
                             ctx_sp := u64 (kstack p + PGSIZE);
                             ctx_saved := replicate (length (ctx_saved (context p))) 0 |}) ;;
      ret (Some i)
  end.

(** ** fork, exit, wait *)

Definition deref (o : option nat) : M nat :=
  match o with
  | Some i => ret i
  | None => panic "kerneltrap"
  end.

(** Entry [j] of an array field. *)
Definition entry (l : list Z) (j : nat) : Z := nth j l 0.

(** The loops of [fork] over the handler table and the open files. *)
Fixpoint copy_handlers (me ni : nat) (js : list nat) : M unit :=
  match js with
  | [] => ret tt
  | j :: rest =>
      let* p := getp me in
      modp ni (fun np => set_signal_handlers
                           (<[j := entry (signal_handlers p) j]> (signal_handlers np)) np) ;;
      copy_handlers me ni rest
  end.

Fixpoint dup_files (me ni : nat) (fds : list nat) : M unit :=
  match fds with
  | [] => ret tt
  | fd :: rest =>
      let* p := getp me in
      (if entry (ofile p) fd =? 0 then ret tt
       else
         let* f := call_ext (filedup (entry (ofile p) fd)) in
         modp ni (fun np => set_ofile (<[fd := f]> (ofile np)) np)) ;;
      dup_files me ni rest
  end.

Definition fork : M Z :=
  let* me := myproc in
  let* r := allocproc in
  match r with
  | None => ret (-1)
  | Some ni =>
      let* me := deref me in
      let* p := getp me in
      let* np := getp ni in
      let* rc := call_ext (uvmcopy (pagetable p) (pagetable np) (sz p)) in
      if rc <? 0 then
        freeproc ni ;; release (ProcLock ni) ;; ret (-1)
      else
      let* p := getp me in
      modp ni (set_sz (sz p)) ;;
      copy_handlers me ni (seq 0 32) ;;
      let* p := getp me in
      modp ni (set_signals_mask (signals_mask p)) ;;
      modp ni (set_pending_signals 0) ;;
      (* *(np->trapframe) = *(p->trapframe); np->trapframe->a0 = 0 *)
      let* p := getp me in
      let* np := getp ni in
      match trapframe p, trapframe np with
      | Some tf, Some _ =>
          modp ni (set_trapframe (Some tf)) ;;
          modp ni (set_trapframe (Some (set_a0 0 tf))) ;;
          dup_files me ni (seq 0 NOFILE) ;;
          let* p := getp me in
          let* d := call_ext (idup (cwd p)) in
          modp ni (set_cwd d) ;;
          let* p := getp me in
          modp ni (set_name (name p)) ;;
          let* np := getp ni in
          let pid0 := pid np in
          release (ProcLock ni) ;;
          acquire WaitLock ;;
          modp ni (set_parent (Some me)) ;;
          release WaitLock ;;
          acquire (ProcLock ni) ;;
          modp ni (set_state RUNNABLE) ;;
          release (ProcLock ni) ;;
          ret pid0
      | _, _ => panic "kerneltrap"
      end
  end.

Definition reparent_body (i : nat) (j : nat) : M (option unit) :=
  let* pp := getp j in
  if bool_decide (parent pp = Some i) then
    let* ip := gets initproc in
    modp j (set_parent ip) ;;
    wakeup (chan_of ip) ;;
    ret None
  else ret None.

Definition reparent (i : nat) : M unit :=
  for_each_proc (reparent_body i) ;; ret tt.

Fixpoint close_files (i : nat) (fds : list nat) : M unit :=
  match fds with
  | [] => ret tt
  | fd :: rest =>
      let* p := getp i in
      (if entry (ofile p) fd =? 0 then ret tt
       else
         call_ext_ (fileclose (entry (ofile p) fd)) ;;
         modp i (fun p => set_ofile (<[fd := 0]> (ofile p)) p)) ;;
      close_files i rest
  end.

Definition exit (status : Z) (e : option envstep) : M unit :=
  let* me := myproc in
  let* ip := gets initproc in
  if bool_decide (me = ip) then panic "init exiting" else
  let* i := deref me in
  close_files i (seq 0 NOFILE) ;;
  call_ext_ begin_op ;;
  let* p := getp i in
  call_ext_ (iput (cwd p)) ;;
  call_ext_ end_op ;;
  modp i (set_cwd 0) ;;
  acquire WaitLock ;;
  reparent i ;;
  let* p := getp i in
  wakeup (chan_of (parent p)) ;;
  acquire (ProcLock i) ;;
  modp i (set_xstate status) ;;
  modp i (set_state ZOMBIE) ;;
  release WaitLock ;;
  sched e ;;
  panic "zombie exit".

(** The scan of [wait] over the table; [inl havekids] when the scan ends
    without a [return], [inr v] when [wait] returns [v] from inside it. *)
Fixpoint wait_scan (me : option nat) (addr : Z) (slots : list nat) (havekids : bool)
  : M (bool + Z) :=
  match slots with
  | [] => ret (inl havekids)
  | j :: rest =>
      let* np := getp j in
      if bool_decide (parent np = me) then
        acquire (ProcLock j) ;;
        let* np := getp j in
        if bool_decide (state np = ZOMBIE) then
          let pid0 := pid np in
          let* failed :=
            (if addr =? 0 then ret false
             else
               let* i := deref me in
               let* p := getp i in
               let* rc := call_ext (copyout_int (pagetable p) addr (xstate np)) in
               ret (rc <? 0)) in
          if (failed : bool) then
            release (ProcLock j) ;; release WaitLock ;; ret (inr (-1))
          else
            freeproc j ;; release (ProcLock j) ;; release WaitLock ;; ret (inr pid0)
        else
          release (ProcLock j) ;;
          wait_scan me addr rest true
      else wait_scan me addr rest havekids
  end.

(** The [for(;;)] of [wait]: every [sleep] hands over to the next step of
    the environment.  When the steps run out the thread stays switched
    out: [sched None] does not come back, and the [ret] after it is not
    reached. *)
Fixpoint wait_loop (me : option nat) (addr : Z) (env : list envstep) : M Z :=
  let* n := gets (fun s => length (procs s)) in
  let* r := wait_scan me addr (seq 0 n) false in
  match r with
  | inr v => ret v
  | inl havekids =>
      let* killed0 :=
        (if negb havekids then ret 0
         else let* i := deref me in let* p := getp i in ret (killed p)) in
      if negb havekids || negb (killed0 =? 0) then
        release WaitLock ;; ret (-1)
      else
        match env with
        | [] => sleep (chan_of me) WaitLock None ;; ret (-1)
        | f :: env' => sleep (chan_of me) WaitLock (Some f) ;; wait_loop me addr env'
        end
  end.

Definition wait (addr : Z) (env : list envstep) : M Z :=
  let* me := myproc in
  acquire WaitLock ;;
  wait_loop me addr env.

(** ** Signals *)

Definition kill_body (pid0 : Z) (op : Z) (i : nat) : M (option Z) :=
  acquire (ProcLock i) ;;
  let* p := getp i in
  if pid p =? pid0 then
    if negb (killed p =? 0) || bool_decide (state p = ZOMBIE)
       || bool_decide (state p = UNUSED)
    then ret (Some (-1))
    else
      modp i (fun p => set_pending_signals (Z.lor (pending_signals p) op) p) ;;
      release (ProcLock i) ;;
      ret (Some 0)
  else
    release (ProcLock i) ;; ret None.

Definition kill (pid0 signum : Z) : M Z :=
  let op := u32 (shl1 signum) in
  if (signum <? 0) || (signum >? 31) then ret (-1) else
  let* r := for_each_proc (kill_body pid0 op) in
  match r with
  | Some v => ret v
  | None => ret (-1)
  end.

Definition sigprocmask (mask : Z) : M Z :=
  let* i := myproc_deref in
  let* p := getp i in
  let old_mask := signals_mask p in
  modp i (set_signals_mask
            (Z.land mask (u32 (Z.lnot (Z.lor (shl1 SIGKILL) (shl1 SIGSTOP)))))) ;;
  ret old_mask.

Definition set_handler (signum : Z) (v : Z) (p : proc) : proc :=
  set_signal_handlers (<[Z.to_nat signum := v]> (signal_handlers p)) p.

Definition handler (p : proc) (signum : Z) : Z :=
  entry (signal_handlers p) (Z.to_nat signum).

(** [sigaction].  [act] and [oldact] are the pointer arguments as
    received; [addr_of_act] is [&act], the kernel-stack address of the
    parameter itself.  [memmove(&oldact, &p->signal_handlers[signum], ..)]
    overwrites the parameter variable [oldact]; that variable is not read
    again and nothing is copied out to user memory. *)
Definition sigaction (signum act oldact : Z) (addr_of_act : Z) : M Z :=
  let* me := myproc in
  if (signum <? 0) || (signum >? 31) then ret (-1) else
  if (signum =? SIGKILL) || (signum =? SIGSTOP) then ret (-1) else
  if act =? 0 then ret (-1) else
  let* i := deref me in
  let* p := getp i in
  if act =? SIG_DFL then
    let oldact_var := if negb (oldact =? 0) then handler p signum else oldact in
    modp i (set_handler signum addr_of_act) ;;
    ret 0
  else
    let oldact_var := if negb (oldact =? 0) then handler p signum else oldact in
    modp i (set_handler signum act) ;;
    ret 0.

(** [sigret].  A null [p->trapframe] as the destination of [copyin] is
    taken as a kernel trap. *)
Definition sigret : M unit :=
  let* i := myproc_deref in
  acquire (ProcLock i) ;;
  let* p := getp i in
  match trapframe p with
  | None => panic "kerneltrap"
  | Some tf =>
      let* x := gets ext in
      modp i (set_trapframe (Some (copyin_tf (pagetable p) (user_tf_backup p) tf x))) ;;
      modp i (fun p => set_signals_mask (signals_mask_backup p) p) ;;
      modp i (set_user_tf_backup 0) ;;
      modp i (set_signal_handling 0) ;;
      release (ProcLock i)
  end.

Definition sigcont_func : M unit :=
  let* i := myproc_deref in
  modp i (set_stopped 0).

Definition sigstop_func : M unit :=
  let* i := myproc_deref in
  modp i (set_stopped 1).

Definition sigkill_func : M unit :=
  let* i := myproc_deref in
  acquire (ProcLock i) ;;
  modp i (set_killed 1) ;;
  let* p := getp i in
  (if bool_decide (state p = SLEEPING) then modp i (set_state RUNNABLE) else ret tt) ;;
  release (ProcLock i).

Definition non_maskable : Z :=
  u64 (Z.land (Z.lnot (shl1 SIGKILL)) (Z.lnot (shl1 SIGSTOP))).

(** The test of [is_pending_and_not_masked] on a record. *)
Definition pending_unmasked (p : proc) (signum : Z) : bool :=
  negb (Z.land (pending_signals p) (u32 (shl1 signum)) =? 0)
  && (Z.land (Z.land (signals_mask p) non_maskable) (u64 (shl1 signum)) =? 0).

Definition is_pending_and_not_masked (signum : Z) : M Z :=
  let* i := myproc_deref in
  let* p := getp i in
  if pending_unmasked p signum then ret 1 else ret 0.

Definition turnoff_sigbit (i : nat) (k : Z) : M unit :=
  acquire (ProcLock i) ;;
  modp i (fun p => set_pending_signals
                     (Z.land (pending_signals p) (u32 (Z.lnot (shl1 k)))) p) ;;
  release (ProcLock i).

(** The [for] loop of [search_cont_signals]. *)
Fixpoint search_cont_loop (i : nat) (sigs : list Z) : M Z :=
  match sigs with
  | [] => ret 0
  | k :: rest =>
      let* r := is_pending_and_not_masked k in
      if negb (r =? 0) then
        let* p := getp i in
        if handler p k =? SIGCONT then
          sigcont_func ;; turnoff_sigbit i k ;; ret 1
        else search_cont_loop i rest
      else search_cont_loop i rest
  end.

(** The signal numbers, in the order of the loops [for(int i = 0; i < 32; i++)]. *)
Definition signums : list Z := map Z.of_nat (seq 0 32).

Definition search_cont_signals : M Z :=
  let* i := myproc_deref in
  let* r := is_pending_and_not_masked SIGCONT in
  if negb (r =? 0) then sigcont_func ;; turnoff_sigbit i SIGCONT ;; ret 1 else
  let* r := is_pending_and_not_masked SIGKILL in
  if negb (r =? 0) then sigkill_func ;; turnoff_sigbit i SIGKILL ;; ret 1 else
  search_cont_loop i signums.

(** [usersignalhandler].  The results of [copyin] and [copyout] are not
    looked at: a failed [copyin] leaves its destination, a local that was
    never written, as it was. *)
Definition usersignalhandler (i : nat) (signum : Z) : M unit :=
  acquire (ProcLock i) ;;
  let* p := getp i in
  let h := handler p signum in
  let* x := gets ext in
  let dst := default stack_junk64 (copyin_u64 (pagetable p) (u64 (h + off_sa_handler)) x) in
  let sigmask := default stack_junk32 (copyin_u32 (pagetable p) (u64 (h + off_sigmask)) x) in
  let* backup_mask := sigprocmask sigmask in
  modp i (set_signals_mask_backup backup_mask) ;;
  modp i (set_signal_handling 1) ;;
  let* p := getp i in
  match trapframe p with
  | None => panic "kerneltrap"
  | Some tf =>
      let sp_n := u64 (sp tf - sizeof_trapframe) in
      modp i (set_user_tf_backup sp_n) ;;
      let* _ := call_ext (copyout_tf (pagetable p) sp_n tf) in
      let tf := set_epc dst tf in
      let sp_n := u64 (sp_n - func_size) in
      let tf := set_sp sp_n tf in
      modp i (set_trapframe (Some tf)) ;;
      let* _ := call_ext (copyout_code (pagetable p) (sp tf) func_size) in
      let tf := set_ra sp_n (set_a0 signum tf) in
      modp i (set_trapframe (Some tf)) ;;
      release (ProcLock i)
  end.

(** [while(p->stopped)] of [signalhandler]: every [yield] hands over to
    the next step of the environment; the steps left over are returned.
    When they run out the thread stays switched out in [yield]. *)
Fixpoint stop_wait (i : nat) (env : list envstep) : M (list envstep) :=
  let* p := getp i in
  if stopped p =? 0 then ret env else
  let* r := search_cont_signals in
  if negb (r =? 0) then ret env else
  match env with
  | [] => yield None ;; ret []
  | f :: env' => yield (Some f) ;; stop_wait i env'
  end.

(** The built-in action taken for signal [k] under handler value [h], when
    [h] is not the ignore value. *)
Definition dispatch (i : nat) (k h : Z) : M unit :=
  if h =? SIG_DFL then
    if k =? SIGSTOP then sigstop_func
    else if k =? SIGCONT then sigcont_func
    else if k =? SIGKILL then sigkill_func
    else sigkill_func
  else if h =? SIGSTOP then sigstop_func
  else if h =? SIGCONT then sigcont_func
  else if h =? SIGKILL then sigkill_func
  else usersignalhandler i k.

(** The [for] loop of [signalhandler]. *)
Fixpoint signal_loop (me : nat) (sigs : list Z) (env : list envstep) : M unit :=
  match sigs with
  | [] => ret tt
  | k :: rest =>
      let* p := getp me in
      if negb (killed p =? 0) then ret tt else
      let* env := stop_wait me env in
      let* r := is_pending_and_not_masked k in
      if r =? 0 then signal_loop me rest env else
      let* p := getp me in
      if negb (signal_handling p =? 0) then ret tt else
      if handler p k =? SIG_IGN then signal_loop me rest env   (* continue *)
      else
        dispatch me k (handler p k) ;;
        turnoff_sigbit me k ;;
        signal_loop me rest env
  end.

Definition signalhandler (env : list envstep) : M unit :=
  let* me := myproc in
  match me with
  | None => ret tt
  | Some i =>
      let* p := getp i in
      if negb (signal_handling p =? 0) then ret tt else
      signal_loop i signums env
  end.

(** ** Vocabulary of the statements *)

(** The kernel state with slot [i] of the table replaced by [p]. *)
Definition setp (i : nat) (p : proc) (s : kstate) : kstate :=
  set_procs (<[i := p]> (procs s)) s.

(** Slot [i] holds [p], the first record in table order whose pid is
    [pid0]. *)
Definition first_pid (s : kstate) (pid0 : Z) (i : nat) (p : proc) : Prop :=
  procs s !! i = Some p /\ pid p = pid0 /\
  forall j q, (j < i)%nat -> procs s !! j = Some q -> pid q <> pid0.

(** No record lock is held, by this core or another. *)
Definition locks_free (s : kstate) : Prop :=
  forall j q, procs s !! j = Some q -> lock q = Free.

(** A flag that is set in a record of [s] is set in the same record of
    [s']. *)
Definition handling_kept (s s' : kstate) : Prop :=
  forall j p, procs s !! j = Some p -> signal_handling p <> 0 ->
    exists p', procs s' !! j = Some p' /\ signal_handling p' <> 0.

(** A call that, however it ends, leaves set flags set. *)
Definition keeps {A} (m : M A) : Prop := forall s, handling_kept s (final (m s)).

(** The same for the records that are in use in [s]: an UNUSED slot
    holds no process, and what it holds is whatever the last one left. *)
Definition handling_kept_used (s s' : kstate) : Prop :=
  forall j p, procs s !! j = Some p -> state p <> UNUSED -> signal_handling p <> 0 ->
    exists p', procs s' !! j = Some p' /\ signal_handling p' <> 0.

(** The same for every slot but [x]. *)
Definition handling_kept_but (x : nat) (s s' : kstate) : Prop :=
  forall j p, j <> x -> procs s !! j = Some p -> signal_handling p <> 0 ->
    exists p', procs s' !! j = Some p' /\ signal_handling p' <> 0.

Definition keeps_but {A} (x : nat) (m : M A) : Prop :=
  forall s, handling_kept_but x s (final (m s)).

(** A call that, however it ends, leaves set the flags that are set in
    the records in use. *)
Definition keeps_used {A} (m : M A) : Prop :=
  forall s, handling_kept_used s (final (m s)).

(** What runs while the caller is switched out leaves set flags set. *)
Definition step_keeps (e : option envstep) : Prop :=
  forall f, e = Some f -> forall s, handling_kept s (f s).

(** Two tables that differ in the locks of their records at most. *)
Definition same_but_locks (s s' : kstate) : Prop :=
  map (set_lock Free) (procs s') = map (set_lock Free) (procs s).

(** The record [c] after [freeproc], and the collaborators' state after
    the calls [freeproc] makes for it. *)
Definition freed (c : proc) : proc :=
  set_state UNUSED (set_xstate 0 (set_killed 0 (set_chan Null (set_name EmptyString
    (set_parent None (set_pid 0 (set_sz 0 (set_pagetable 0 (set_trapframe None c))))))))).

Definition freed_ext (c : proc) (x : ext_t) : ext_t :=
  let x1 := if bool_decide (trapframe c <> None) then kfree x else x in
  if bool_decide (pagetable c <> 0)
  then uvmfree (pagetable c) (sz c)
         (uvmunmap (pagetable c) TRAPFRAME (uvmunmap (pagetable c) TRAMPOLINE x1))
  else x1.

(** Slot [z] holds [c], the first record in table order that is a child
    of [me] in state ZOMBIE. *)
Definition first_zombie (s : kstate) (me : nat) (z : nat) (c : proc) : Prop :=
  procs s !! z = Some c /\ parent c = Some me /\ state c = ZOMBIE /\
  forall j q, (j < z)%nat -> procs s !! j = Some q ->
    parent q = Some me -> state q <> ZOMBIE.

Definition no_zombie (s : kstate) (me : nat) : Prop :=
  forall j q, procs s !! j = Some q -> parent q = Some me -> state q <> ZOMBIE.

Definition has_child (s : kstate) (me : nat) : Prop :=
  exists j q, procs s !! j = Some q /\ parent q = Some me.

(** The kernel state in which [wait], called by slot [me] holding [p],
    has switched out in [sleep]: the record sleeps on its own address and
    [wait_lock] has been handed back. *)
Definition asleep (me : nat) (p : proc) (s : kstate) : kstate :=
  set_noff 1%nat
    (setp me (set_state SLEEPING (set_chan (ProcPtr me) (set_lock HeldSelf p))) s).

(** Whether slot [j] of the table holds a child of [me]. *)
Definition childb (s : kstate) (me : option nat) (j : nat) : bool :=
  match procs s !! j with
  | Some q => bool_decide (parent q = me)
  | None => false
  end.

(** The kernel state in which [sleep] returns to [wait], from the state
    [s2] in which the scheduler has picked the sleeper again: the saved
    [intena] is put back, the channel cleared, the record lock released
    and [wait_lock] taken. *)
Definition after_sleep (me : nat) (ie : bool) (s2 : kstate) : kstate :=
  match procs s2 !! me with
  | Some p2 =>
      set_noff 1%nat (set_wait_lock HeldSelf
        (setp me (set_lock Free (set_chan Null p2)) (set_intena ie s2)))
  | None => s2
  end.

(** What [wakeup(ch)], called by [me], does to the record in slot [j],
    and to the table. *)
Definition wake (me : option nat) (ch : ptr) (j : nat) (q : proc) : proc :=
  if bool_decide (Some j = me) then q
  else if bool_decide (state q = SLEEPING) && bool_decide (chan q = ch)
       then set_state RUNNABLE q
       else q.

Definition woken (me : option nat) (ch : ptr) (l : list proc) : list proc :=
  imap (wake me ch) l.

(** The table after the loop of [reparent(i)] has visited [slots], [ip]
    being [initproc]. *)
Fixpoint reparent_fold (me : option nat) (i : nat) (ip : option nat)
    (slots : list nat) (l : list proc) : list proc :=
  match slots with
  | [] => l
  | j :: rest =>
      match l !! j with
      | Some pp =>
          if bool_decide (parent pp = Some i)
          then reparent_fold me i ip rest
                 (woken me (chan_of ip) (<[j := set_parent ip pp]> l))
          else reparent_fold me i ip rest l
      | None => l
      end
  end.

(** A call that does not return to its caller. *)
Definition noret {A} (m : M A) : Prop := forall s a s', m s <> Ret a s'.

(** [q'] is [q] but for its state and its parent. *)
Definition same_but (q q' : proc) : Prop :=
  exists st par, q' = set_parent par (set_state st q).

(** The table when [exit] switches out for good: [o'] is the table of
    open files after the closing loop and [p1] the caller's record after
    [reparent]. *)
Definition exit_table (s : kstate) (me : nat) (p : proc) (status : Z)
    (o' : list Z) (p1 : proc) : list proc :=
  let l0 := <[me := set_cwd 0 (set_ofile o' p)]> (procs s) in
  let l1 := reparent_fold (Some me) me (initproc s) (seq 0 (length (procs s))) l0 in
  let l2 := woken (Some me) (chan_of (parent p1)) l1 in
  <[me := set_state ZOMBIE (set_xstate status (set_lock HeldSelf p1))]> l2.


(** Slot [i] holds [np], the first record in table order in state
    UNUSED. *)
Definition first_unused (s : kstate) (i : nat) (np : proc) : Prop :=
  procs s !! i = Some np /\ state np = UNUSED /\
  forall j q, (j < i)%nat -> procs s !! j = Some q -> state q <> UNUSED.

(** The record [np] as [allocproc] has it, lock held, after the
    assignments that come before the allocation of the trap frame. *)
Definition alloc_init (newpid : Z) (np : proc) : proc :=
  set_signal_handling 0 (set_stopped 0 (set_pending_signals 0 (set_signals_mask 0
    (set_signal_handlers (replicate 32 SIG_DFL)
       (set_state USED (set_pid newpid (set_lock HeldSelf np))))))).

(** The record [allocproc] hands back on success: trap frame page [tf0]
    and page table [pt] in place, the context set up for [forkret]. *)
Definition alloc_done (newpid : Z) (tf0 : trapframe_t) (pt : Z) (np : proc) : proc :=
  set_context {| ctx_ra := forkret;
                 ctx_sp := u64 (kstack np + PGSIZE);
                 ctx_saved := replicate (length (ctx_saved (context np))) 0 |}
    (set_pagetable pt (set_trapframe (Some tf0) (alloc_init newpid np))).

(** The collaborator calls of [allocproc] when each of them succeeds, in
    order: the page [kalloc] gives for the trap frame, the page table
    [uvmcreate] gives, with the trampoline and the trap frame mapped by
    [mappages], and the collaborators' state after them; [None] when one
    of the four fails. *)
Definition alloc_pages (x : ext_t) : option (trapframe_t * Z * ext_t) :=
  let k := kalloc x in
  match k.1 with
  | None => None
  | Some tf0 =>
      let c := uvmcreate k.2 in
      if c.1 =? 0 then None else
      let m1 := mappages c.1 TRAMPOLINE c.2 in
      if m1.1 <? 0 then None else
      let m2 := mappages c.1 TRAPFRAME m1.2 in
      if m2.1 <? 0 then None else Some (tf0, c.1, m2.2)
  end.

(** The handler table after the copying loop of [fork] has visited the
    entries [js]. *)
Definition copied_handlers (hp hn : list Z) (js : list nat) : list Z :=
  foldl (fun h j => <[j := entry hp j]> h) hn js.

(** An outcome that is a return, with a result and a state that satisfy
    [Q]. *)
Definition returns {A} (o : outcome A) (Q : A -> kstate -> Prop) : Prop :=
  exists a s', o = Ret a s' /\ Q a s'.

(** What holds of the kernel state [s'] in which [exit], called with
    [status] by slot [me] holding [p] in state [s], has switched out. *)
Definition exit_post (s : kstate) (me : nat) (p : proc) (status : Z) (s' : kstate)
  : Prop :=
  (exists pz, procs s' !! me = Some pz /\ state pz = ZOMBIE /\ xstate pz = status) /\
  (forall j q, procs s !! j = Some q -> parent q = Some me ->
     exists q', procs s' !! j = Some q' /\ parent q' = initproc s) /\
  (has_child s me -> forall i0 q0,
     initproc s = Some i0 -> procs s !! i0 = Some q0 ->
     state q0 = SLEEPING -> chan q0 = ProcPtr i0 ->
     exists q', procs s' !! i0 = Some q' /\ state q' = RUNNABLE) /\
  (forall par qp,
     parent p = Some par -> par <> me -> procs s !! par = Some qp ->
     state qp = SLEEPING -> chan qp = ProcPtr par ->
     exists q', procs s' !! par = Some q' /\ state q' = RUNNABLE).

(** The table [s'] is the table [s] rolled back: every slot has the state
    it had and a free lock, every record in use is as it was, and a slot
    that is not as it was has been freed: it holds no pid, no trap frame,
    no page table, no memory size and no parent. *)
Definition rolled_back (s s' : kstate) : Prop :=
  forall j q, procs s !! j = Some q ->
    exists q', procs s' !! j = Some q' /\ state q' = state q /\ lock q' = Free /\
      (state q <> UNUSED -> q' = q) /\
      (q' = q \/
       (pid q' = 0 /\ trapframe q' = None /\ pagetable q' = 0 /\ sz q' = 0 /\
        parent q' = None)).

(** Slot [ni] of [s'] holds [c], the child that [fork], called by slot
    [me] holding [p] with trap frame [tf] in state [s], has made; the
    other slots are as in [s]. *)
Definition fork_child (s : kstate) (me : nat) (p : proc) (tf : trapframe_t)
    (ni : nat) (c : proc) (s' : kstate) : Prop :=
  procs s' !! ni = Some c /\ pid c = nextpid s /\
  signal_handlers c = signal_handlers p /\
  signals_mask c = signals_mask p /\
  pending_signals c = 0 /\
  trapframe c = Some (set_a0 0 tf) /\
  state c = RUNNABLE /\ parent c = Some me /\ lock c = Free /\
  forall j, j <> ni -> procs s' !! j = procs s !! j.

(** What holds of the result [v] and the state [s'] with which [fork],
    called by slot [me] holding [p] with trap frame [tf] in state [s],
    returns: a failure that leaves the table rolled back, or a child in
    the first unused slot that is a copy of the parent. *)
Definition fork_post (s : kstate) (me : nat) (p : proc) (tf : trapframe_t)
    (v : Z) (s' : kstate) : Prop :=
  procs s' !! me = Some p /\
  ((v = -1 /\ rolled_back s s') \/
   (exists ni np c,
      first_unused s ni np /\ v = pid c /\ fork_child s me p tf ni c s')).

(** The environment leaves set flags set. *)
Definition env_keeps (env : list envstep) : Prop :=
  Forall (fun f : envstep => forall s, handling_kept s (f s)) env.

(** ** Boot, [growproc], the scheduler loop and [procdump] *)

Definition set_kstack (v : Z) (p : proc) : proc :=
  {| lock := lock p; state := state p; chan := chan p; killed := killed p; xstate := xstate p;
     pid := pid p; parent := parent p; kstack := v; sz := sz p; pagetable := pagetable p;
     trapframe := trapframe p; context := context p; ofile := ofile p; cwd := cwd p;
     name := name p; signal_handlers := signal_handlers p; signals_mask := signals_mask p;
     pending_signals := pending_signals p; stopped := stopped p;
     signal_handling := signal_handling p; user_tf_backup := user_tf_backup p;
     signals_mask_backup := signals_mask_backup p |}.

(** The stack layout of [memlayout.h] and the calls that [userinit] and
    [growproc] make into the virtual-memory layer and the file system. *)
Class Collab2 := {
  KSTACK : Z -> Z;
  (* uvmalloc(pagetable, oldsz, newsz) and uvmdealloc(pagetable, oldsz,
     newsz): the size they return *)
  uvmalloc : Z -> Z -> Z -> ext_t -> Z * ext_t;
  uvmdealloc : Z -> Z -> Z -> ext_t -> Z * ext_t;
  (* uvminit(pagetable, src, sz) *)
  uvminit : Z -> list Z -> Z -> ext_t -> ext_t;
  namei : string -> ext_t -> Z * ext_t
}.

Context {V : Collab2}.

(** Modelled from the spec: [initlock] leaves the lock not held. *)
Definition initlock (l : lockref) : M unit := modify (lock_set l Free).

Definition procinit_body (i : nat) : M (option unit) :=
  initlock (ProcLock i) ;;
  modp i (set_kstack (KSTACK (Z.of_nat i))) ;;
  ret None.

Definition procinit : M unit :=
  initlock PidLock ;;
  initlock WaitLock ;;
  for_each_proc procinit_body ;;
  ret tt.

(** [od -t xC initcode]. *)
Definition initcode : list Z :=
  [0x17; 0x05; 0x00; 0x00; 0x13; 0x05; 0x45; 0x02;
   0x97; 0x05; 0x00; 0x00; 0x93; 0x85; 0x35; 0x02;
   0x93; 0x08; 0x70; 0x00; 0x73; 0x00; 0x00; 0x00;
   0x93; 0x08; 0x20; 0x00; 0x73; 0x00; 0x00; 0x00;
   0xef; 0xf0; 0x9f; 0xff; 0x2f; 0x69; 0x6e; 0x69;
   0x74; 0x00; 0x00; 0x24; 0x00; 0x00; 0x00; 0x00;
   0x00; 0x00; 0x00; 0x00].

(** [userinit].  The result of [allocproc] is used as it comes: a null
    result is dereferenced. *)
Definition userinit : M unit :=
  let* r := allocproc in
  modify (set_initproc r) ;;
  let* i := deref r in
  let* p := getp i in
  call_ext_ (uvminit (pagetable p) initcode (Z.of_nat (length initcode))) ;;
  modp i (set_sz PGSIZE) ;;
  let* p := getp i in
  match trapframe p with
  | None => panic "kerneltrap"
  | Some tf =>
      modp i (set_trapframe (Some (set_epc 0 tf))) ;;
      modp i (set_trapframe (Some (set_sp PGSIZE (set_epc 0 tf)))) ;;
      modp i (set_name "initcode") ;;
      let* d := call_ext (namei "/") in
      modp i (set_cwd d) ;;
      modp i (set_state RUNNABLE) ;;
      release (ProcLock i)
  end.

(** [growproc].  The local [sz] is a [uint]: the size read from the
    record, the sum [sz + n] and the size the collaborator returns are cut
    to 32 bits. *)
Definition growproc (n : Z) : M Z :=
  let* i := myproc_deref in
  let* p := getp i in
  let sz0 := u32 (sz p) in
  if n >? 0 then
    let* r := call_ext (uvmalloc (pagetable p) sz0 (u32 (sz0 + n))) in
    if u32 r =? 0 then ret (-1)
    else modp i (set_sz (u32 r)) ;; ret 0
  else if n <? 0 then
    let* r := call_ext (uvmdealloc (pagetable p) sz0 (u32 (sz0 + n))) in
    modp i (set_sz (u32 r)) ;; ret 0
  else
    modp i (set_sz sz0) ;; ret 0.

(** The body of the table scan of [scheduler].  [run i] is what happens
    between [swtch] into the process of slot [i] and its [swtch] back. *)
Definition scheduler_body (run : nat -> envstep) (i : nat) : M (option unit) :=
  acquire (ProcLock i) ;;
  let* p := getp i in
  (if bool_decide (state p = RUNNABLE) then
     modp i (set_state RUNNING) ;;
     modify (set_cpu_proc (Some i)) ;;
     modify (run i) ;;
     modify (set_cpu_proc None)
   else ret tt) ;;
  release (ProcLock i) ;;
  ret None.

(** One round of the [for(;;)] of [scheduler]: a scan of the table.
    [intr_on] acts on the interrupt-enable bit of the core, which is not
    part of the state. *)
Definition scheduler_round (run : nat -> envstep) : M unit :=
  for_each_proc (scheduler_body run) ;; ret tt.

(** [procdump].  The lines it prints are its result: pid, state label and
    name of a record. *)
Definition states (st : procstate) : option string :=
  match st with
  | UNUSED => Some "unused"%string
  | SLEEPING => Some "sleep "%string
  | RUNNABLE => Some "runble"%string
  | RUNNING => Some "run   "%string
  | ZOMBIE => Some "zombie"%string
  | USED => None
  end.

Fixpoint procdump_loop (slots : list nat) : M (list (Z * string * string)) :=
  match slots with
  | [] => ret []
  | i :: rest =>
      let* p := getp i in
      if bool_decide (state p = UNUSED) then procdump_loop rest
      else
        let label := default "???"%string (states (state p)) in
        let* out := procdump_loop rest in
        ret ((pid p, label, name p) :: out)
  end.

Definition procdump : M (list (Z * string * string)) :=
  fun s => procdump_loop (seq 0 (length (procs s))) s.

(** ** Vocabulary of the further statements *)

(** The record after [sigkill_func]: marked killed, and RUNNABLE if it
    was SLEEPING. *)
Definition kill_mark (p : proc) : proc :=
  if bool_decide (state p = SLEEPING) then set_state RUNNABLE (set_killed 1 p)
  else set_killed 1 p.

(** Every pid in the table lies below [nextpid], which is positive: the
    table as [procinit] finds it and as the calls below leave it. *)
Definition pids_below (s : kstate) : Prop :=
  0 < nextpid s /\ forall j q, procs s !! j = Some q -> pid q < nextpid s.

(** No lock of [proc.c] is held. *)
Definition quiet (s : kstate) : Prop :=
  locks_free s /\ pid_lock s = Free /\ wait_lock s = Free.


End Kernel.

(** ** A small platform

    Concrete header constants and collaborators, used to run the calls on
    explicit kernel states.  User memory is a list of the words written,
    newest first; addresses below [user_top] are mapped. *)
Module Toy.

Definition consts : Consts := {|
  SIG_DFL := 0;
  SIG_IGN := 1;
  SIGKILL := 9;
  SIGSTOP := 17;
  SIGCONT := 19;
  NOFILE := 4;
  PGSIZE := 4096;
  forkret := 4198400;
  sizeof_trapframe := 288;
  func_size := 8;
  off_sa_handler := 0;
  off_sigmask := 8
|}.

Record mem := {
  free_pages : nat;
  words : list (Z * Z)
}.

Definition user_top : Z := 65536.

Definition read (a : Z) (m : mem) : Z :=
  match List.find (fun w => fst w =? a) (words m) with
  | Some w => snd w
  | None => 0
  end.

Definition write (a v : Z) (m : mem) : mem :=
  {| free_pages := free_pages m; words := (a, v) :: words m |}.

Definition take_page (m : mem) : option mem :=
  match free_pages m with
  | O => None
  | S n => Some {| free_pages := n; words := words m |}
  end.

Definition zero_tf : trapframe_t :=
  {| epc := 0; ra := 0; sp := 0; a0 := 0; tf_rest := [] |}.

Definition collab : Collab := {|
  ext_t := mem;
  kalloc := fun m =>
    match take_page m with
    | Some m' => (Some zero_tf, m')
    | None => (None, m)
    end;
  kfree := fun m => {| free_pages := S (free_pages m); words := words m |};
  uvmcreate := fun m =>
    match take_page m with
    | Some m' => (8192, m')
    | None => (0, m)
    end;
  mappages := fun _ _ m => (0, m);
  uvmunmap := fun _ _ m => m;
  uvmfree := fun _ _ m => {| free_pages := S (free_pages m); words := words m |};
  uvmcopy := fun _ _ size m =>
    match take_page m with
    | Some m' => (0, m')
    | None => (-1, m)
    end;
  copyout_int := fun _ dst v m =>
    if (0 <=? dst) && (dst <? user_top) then (0, write dst v m) else (-1, m);
  copyout_tf := fun _ dst tf m =>
    if (0 <=? dst) && (dst <? user_top) then (0, write dst (epc tf) m) else (-1, m);
  copyout_code := fun _ dst len m =>
    if (0 <=? dst) && (dst <? user_top) then (0, write dst len m) else (-1, m);
  copyin_u64 := fun _ src m =>
    if (0 <=? src) && (src <? user_top) then Some (read src m) else None;
  copyin_u32 := fun _ src m =>
    if (0 <=? src) && (src <? user_top) then Some (u32 (read src m)) else None;
  copyin_tf := fun _ src tf m =>
    if (0 <=? src) && (src <? user_top) then set_epc (read src m) tf else tf;
  stack_junk64 := 0;
  stack_junk32 := 0;
  filedup := fun f m => (f, m);
  fileclose := fun _ m => m;
  idup := fun d m => (d, m);
  iput := fun _ m => m;
  begin_op := fun m => m;
  end_op := fun m => m
|}.

Definition kst : Type := @kstate collab.

(** An unused slot, as [procinit] leaves the table. *)
Definition slot0 : proc := {|
  lock := Free; state := UNUSED; chan := Null; killed := 0; xstate := 0; pid := 0;
  parent := None; kstack := 0; sz := 0; pagetable := 0; trapframe := None;
  context := {| ctx_ra := 0; ctx_sp := 0; ctx_saved := replicate 12 0 |};
  ofile := replicate 4 0; cwd := 0; name := EmptyString;
  signal_handlers := replicate 32 0; signals_mask := 0; pending_signals := 0;
  stopped := 0; signal_handling := 0; user_tf_backup := 0; signals_mask_backup := 0
|}.

(** A live process with pid [n], parent slot [par] and state [st]. *)
Definition live (n : Z) (par : option nat) (st : procstate) : proc :=
  set_trapframe (Some zero_tf)
    (set_pagetable 8192 (set_sz 4096 (set_parent par (set_pid n (set_state st slot0))))).

Definition boot (ps : list proc) (cur : option nat) : kst :=
  @Build_kstate collab ps 10 Free Free (Some 0%nat) cur 0%nat true
    {| free_pages := 8; words := [] |}.

(** A table with the bootstrap process asleep in [wait], a running
    process that has signal 5 pending and ignored, its two children (one
    marked killed, one a zombie with exit status 7) and a free slot. *)
Definition init_rec : proc := set_chan (ProcPtr 0) (live 1 None SLEEPING).

Definition caller : proc :=
  set_pending_signals 32
    (set_signal_handlers (<[5%nat := 1]> (replicate 32 0))
       (live 2 (Some 0%nat) RUNNING)).

Definition killed_rec : proc := set_killed 1 (live 3 (Some 1%nat) RUNNABLE).

Definition zombie_rec : proc := set_xstate 7 (live 4 (Some 1%nat) ZOMBIE).

Definition table : list proc := [init_rec; caller; killed_rec; zombie_rec; slot0].

Definition s1 : kst := boot table (Some 1%nat).

(** The same with the running process marked killed, inside a user
    handler, or without its zombie child. *)
Definition s_killed : kst :=
  boot [init_rec; set_killed 1 caller; killed_rec; zombie_rec; slot0] (Some 1%nat).

Definition s_handling : kst :=
  boot [init_rec; set_signal_handling 1 caller; killed_rec; zombie_rec; slot0]
    (Some 1%nat).

Definition s_nozombie : kst := boot [init_rec; caller; killed_rec; slot0] (Some 1%nat).

(** The further collaborators: memory grows while pages last and shrinks
    on request. *)
Definition collab2 : @Collab2 collab :=
  @Build_Collab2 collab
    (fun j => 274877898752 - (j + 1) * 8192)
    (fun _ oldsz newsz (m : mem) =>
       match take_page m with
       | Some m' => (newsz, m')
       | None => (0, m)
       end)
    (fun _ oldsz newsz (m : mem) => (if newsz <? oldsz then newsz else oldsz, m))
    (fun _ _ _ (m : mem) => m)
    (fun _ (m : mem) => (77, m)).

(** The table without a free slot, with no page left, and with the
    running process asleep-waiting under [wait_lock]. *)
Definition s_full : kst := boot [init_rec; caller; killed_rec; zombie_rec] (Some 1%nat).

Definition s_nomem : kst :=
  @Build_kstate collab table 10 Free Free (Some 0%nat) (Some 1%nat) 0%nat true
    {| free_pages := 0; words := [] |}.

Definition s_waiting : kst :=
  @Build_kstate collab table 10 Free HeldSelf (Some 0%nat) (Some 1%nat) 1%nat true
    {| free_pages := 8; words := [] |}.

(** A running process with signal [k] pending under the default action,
    and one that is stopped. *)
Definition signalled (k : Z) : proc :=
  set_pending_signals (2 ^ k) (live 2 (Some 0%nat) RUNNING).

Definition s_signalled (k : Z) : kst := boot [init_rec; signalled k; slot0] (Some 1%nat).

Definition stopped_rec (pending : Z) : proc :=
  set_stopped 1 (set_pending_signals pending (live 2 (Some 0%nat) RUNNING)).

Definition s_stopped (pending : Z) : kst :=
  boot [init_rec; stopped_rec pending; slot0] (Some 1%nat).

(** The scheduler's view: no current process. *)
Definition s_sched : kst := boot table None.

Definition s_idle : kst := boot [init_rec; zombie_rec; slot0] None.


(** A running process with signal 5 pending and a user handler
    descriptor at address 4096 installed for it. *)
Definition handled_rec : proc :=
  set_signal_handlers (<[5%nat := 4096]> (replicate 32 0)) (signalled 5).

Definition s_handled : kst := boot [init_rec; handled_rec; slot0] (Some 1%nat).
End Toy.

(** * Properties *)

Section Proofs.
Context {K : Consts} {C : Collab}.

(** ** Machine integers *)

Lemma u32_shl1 k : 0 <= k <= 31 -> u32 (shl1 k) = 2 ^ k.
Proof.
  intros H. unfold u32, shl1, s32. rewrite Z.shiftl_1_l.
  assert (0 < 2 ^ k <= 2 ^ 31) by (split; [lia | apply Z.pow_le_mono_r; lia]).
  rewrite Zminus_mod_idemp_l.
  replace (2 ^ k + 2 ^ 31 - 2 ^ 31) with (2 ^ k) by lia.
  apply Z.mod_small. lia.
Qed.

Lemma testbit_u32 x b : 0 <= b -> Z.testbit (u32 x) b = (b <? 32) && Z.testbit x b.
Proof.
  intros H. unfold u32. destruct (Z.ltb_spec b 32).
  - rewrite Z.mod_pow2_bits_low by lia. reflexivity.
  - rewrite Z.mod_pow2_bits_high by lia. reflexivity.
Qed.

Lemma testbit_u64 x b : 0 <= b -> Z.testbit (u64 x) b = (b <? 64) && Z.testbit x b.
Proof.
  intros H. unfold u64. destruct (Z.ltb_spec b 64).
  - rewrite Z.mod_pow2_bits_low by lia. reflexivity.
  - rewrite Z.mod_pow2_bits_high by lia. reflexivity.
Qed.

(** Bits of the [int] value of [1 << k]: bit [k], and the sign extension
    above it when [k] is 31. *)
Lemma testbit_shl1 k b :
  0 <= k <= 31 -> 0 <= b ->
  Z.testbit (shl1 k) b = (b =? k) || ((k =? 31) && (31 <? b)).
Proof.
  intros Hk Hb. unfold shl1, s32. rewrite Z.shiftl_1_l.
  destruct (Z.eqb_spec k 31) as [->|Hne].
  - replace ((2 ^ 31 + 2 ^ 31) mod 2 ^ 32 - 2 ^ 31) with (Z.lnot (Z.ones 31)) by reflexivity.
    rewrite Z.lnot_spec by lia.
    destruct (Z.ltb_spec 31 b), (Z.eqb_spec b 31); subst; simpl; try lia.
    + rewrite Z.ones_spec_high by lia. reflexivity.
    + rewrite Z.ones_spec_low by lia. reflexivity.
  - assert (0 < 2 ^ k < 2 ^ 31) by (split; [lia | apply Z.pow_lt_mono_r; lia]).
    rewrite Z.mod_small by lia.
    replace (2 ^ k + 2 ^ 31 - 2 ^ 31) with (2 ^ k) by lia.
    rewrite Z.pow2_bits_eqb by lia. rewrite orb_false_r.
    apply Z.eqb_sym.
Qed.

Lemma land_pow2_eqb x k : 0 <= k -> (Z.land x (2 ^ k) =? 0) = negb (Z.testbit x k).
Proof.
  intros H. destruct (Z.testbit x k) eqn:E; simpl.
  - apply Z.eqb_neq. intros Hz.
    assert (Z.testbit (Z.land x (2 ^ k)) k = false) as H0 by (rewrite Hz; apply Z.bits_0).
    rewrite Z.land_spec, E, Z.pow2_bits_true in H0 by lia. discriminate.
  - apply Z.eqb_eq. apply Z.bits_inj'. intros n Hn.
    rewrite Z.land_spec, Z.bits_0, Z.pow2_bits_eqb by lia.
    destruct (Z.eqb_spec k n); subst; [rewrite E|]; simpl; auto using andb_false_r.
Qed.

Lemma eqb0_bits x : (forall b, 0 <= b -> Z.testbit x b = false) -> (x =? 0) = true.
Proof.
  intros H. apply Z.eqb_eq. apply Z.bits_inj'. intros n Hn. rewrite Z.bits_0. auto.
Qed.

(** ** Stepping through a call *)

Lemma bind_Ret {A B} (m : M A) (k : A -> M B) s a s' :
  m s = Ret a s' -> bind m k s = k a s'.
Proof. intros H. unfold bind. now rewrite H. Qed.

Lemma getp_eq s i p : procs s !! i = Some p -> getp i s = Ret p s.
Proof. intros H. unfold getp. now rewrite H. Qed.

Lemma modp_eq s i p f : procs s !! i = Some p -> modp i f s = Ret tt (setp i (f p) s).
Proof. intros H. unfold modp. now rewrite H. Qed.

Lemma setp_id s i p : procs s !! i = Some p -> setp i p s = s.
Proof. intros H. unfold setp. rewrite list_insert_id by done. now destruct s. Qed.

Lemma acquire_proc s i p :
  procs s !! i = Some p -> lock p = Free ->
  acquire (ProcLock i) s = Ret tt (set_noff (S (noff s)) (setp i (set_lock HeldSelf p) s)).
Proof. intros H L. unfold acquire. simpl. rewrite H. simpl. now rewrite L. Qed.

Lemma release_proc s i p n :
  procs s !! i = Some p -> lock p = HeldSelf -> noff s = S n ->
  release (ProcLock i) s = Ret tt (set_noff n (setp i (set_lock Free p) s)).
Proof. intros H L N. unfold release. simpl. rewrite H. simpl. now rewrite L, N. Qed.

Lemma set_lock_idem v w p : set_lock v (set_lock w p) = set_lock v p.
Proof. reflexivity. Qed.

Lemma set_lock_same p : set_lock (lock p) p = p.
Proof. now destruct p. Qed.

Lemma scan_app {A} (body : nat -> M (option A)) l1 l2 s :
  scan body (l1 ++ l2) s
  = match scan body l1 s with
    | Ret None s' => scan body l2 s'
    | o => o
    end.
Proof.
  revert s. induction l1 as [|i l1 IH]; intros s; simpl; [done|].
  unfold bind. destruct (body i s) as [[a|] s'| | |]; simpl; done.
Qed.

Lemma scan_skip {A} (body : nat -> M (option A)) l s :
  (forall i, i ∈ l -> body i s = Ret None s) -> scan body l s = Ret None s.
Proof.
  induction l as [|i l IH]; intros H; simpl; [done|].
  erewrite bind_Ret by (apply H; left). apply IH. intros j Hj. apply H. now right.
Qed.

Lemma seq_split_at (i n : nat) :
  (i < n)%nat -> seq 0 n = seq 0 i ++ i :: seq (S i) (n - S i).
Proof.
  intros H. replace n with (i + S (n - S i))%nat at 1 by lia.
  rewrite seq_app. simpl. reflexivity.
Qed.

Lemma bind_ret {A B} (a : A) (k : A -> M B) s : bind (ret a) k s = k a s.
Proof. reflexivity. Qed.

Lemma bind_gets {A B} (f : kstate -> A) (k : A -> M B) s : bind (gets f) k s = k (f s) s.
Proof. reflexivity. Qed.

Lemma bind_modify {B} (f : kstate -> kstate) (k : unit -> M B) s :
  bind (modify f) k s = k tt (f s).
Proof. reflexivity. Qed.

Lemma bind_call_ext_ {B} (f : ext_t -> ext_t) (k : unit -> M B) s :
  bind (call_ext_ f) k s = k tt (set_ext (f (ext s)) s).
Proof. reflexivity. Qed.

Lemma bind_call_ext {A B} (f : ext_t -> A * ext_t) (k : A -> M B) s :
  bind (call_ext f) k s = k (f (ext s)).1 (set_ext (f (ext s)).2 s).
Proof. unfold bind, call_ext. now destruct (f (ext s)). Qed.

Lemma bind_assoc {A B D} (m : M A) (k1 : A -> M B) (k2 : B -> M D) s :
  bind (bind m k1) k2 s = bind m (fun a => bind (k1 a) k2) s.
Proof. unfold bind. now destruct (m s). Qed.

Lemma bind_panic {A B} msg (k : A -> M B) s : bind (panic msg) k s = Panic msg s.
Proof. reflexivity. Qed.

Lemma myproc_deref_eq s i : cpu_proc s = Some i -> myproc_deref s = Ret i s.
Proof. intros H. unfold myproc_deref. now rewrite H. Qed.

Lemma kstate_eta (s : kstate) :
  Build_kstate (procs s) (nextpid s) (pid_lock s) (wait_lock s) (initproc s)
    (cpu_proc s) (noff s) (intena s) (ext s) = s.
Proof. now destruct s. Qed.

Lemma set_lock_free_id p : lock p = Free -> set_lock Free (set_lock HeldSelf p) = p.
Proof. intros L. change (set_lock Free p = p). rewrite <- L. now destruct p. Qed.

Lemma acquire_wait s :
  wait_lock s = Free ->
  acquire WaitLock s = Ret tt (set_noff (S (noff s)) (set_wait_lock HeldSelf s)).
Proof. intros H. unfold acquire. simpl. now rewrite H. Qed.

Lemma release_wait s n :
  wait_lock s = HeldSelf -> noff s = S n ->
  release WaitLock s = Ret tt (set_noff n (set_wait_lock Free s)).
Proof. intros H N. unfold release. simpl. now rewrite H, N. Qed.

Lemma acquire_pid s :
  pid_lock s = Free ->
  acquire PidLock s = Ret tt (set_noff (S (noff s)) (set_pid_lock HeldSelf s)).
Proof. intros H. unfold acquire. simpl. now rewrite H. Qed.

Lemma release_pid s n :
  pid_lock s = HeldSelf -> noff s = S n ->
  release PidLock s = Ret tt (set_noff n (set_pid_lock Free s)).
Proof. intros H N. unfold release. simpl. now rewrite H, N. Qed.

(** Lookups in a table after updates of its slots. *)
Ltac lk :=
  cbn [procs nextpid pid_lock wait_lock initproc cpu_proc noff intena ext lock set_lock];
  repeat first
    [ rewrite list_lookup_insert_eq by (rewrite ?length_insert; first [done | lia])
    | rewrite list_lookup_insert_ne by first [done | lia | congruence] ];
  try done; try (eauto; fail).

(** Kernel states are kept flat while stepping: one record of the
    components, the table with one update per slot on top. *)
Ltac norm :=
  unfold setp, set_procs, set_nextpid, set_pid_lock, set_wait_lock, set_initproc,
    set_cpu_proc, set_noff, set_intena, set_ext;
  cbn [procs nextpid pid_lock wait_lock initproc cpu_proc noff intena ext];
  cbv beta iota;
  rewrite ?list_insert_insert_eq.

(** One step of a call whose head is a primitive. *)
Ltac head_step m :=
  lazymatch m with
  | ret _ => rewrite bind_ret
  | gets _ => rewrite bind_gets
  | modify _ => rewrite bind_modify
  | call_ext_ _ => rewrite bind_call_ext_
  | call_ext _ => rewrite bind_call_ext
  | panic _ => rewrite bind_panic
  | myproc_deref => erewrite bind_Ret by (apply myproc_deref_eq; lk)
  | getp _ => erewrite bind_Ret by (apply getp_eq; lk)
  | modp _ _ => erewrite bind_Ret by (apply modp_eq; lk)
  | acquire (ProcLock _) => erewrite bind_Ret by (eapply acquire_proc; lk)
  | release (ProcLock _) => erewrite bind_Ret by (eapply release_proc; lk)
  | acquire WaitLock => erewrite bind_Ret by (eapply acquire_wait; lk)
  | release WaitLock => erewrite bind_Ret by (eapply release_wait; lk)
  | acquire PidLock => erewrite bind_Ret by (eapply acquire_pid; lk)
  | release PidLock => erewrite bind_Ret by (eapply release_pid; lk)
  | bind _ _ => rewrite bind_assoc
  end.

Ltac mstep1 :=
  lazymatch goal with
  | |- bind ?m _ _ = _ => head_step m
  | |- returns (bind ?m _ _) _ => head_step m
  | |- getp _ _ = _ => erewrite getp_eq by lk
  | |- modp _ _ _ = _ => erewrite modp_eq by lk
  | |- release (ProcLock _) _ = _ => erewrite release_proc by lk
  | |- release WaitLock _ = _ => erewrite release_wait by lk
  | |- acquire WaitLock _ = _ => erewrite acquire_wait by lk
  end.

Ltac mstep := mstep1; norm.

Lemma returns_Ret {A} (a : A) s (Q : A -> kstate -> Prop) : Q a s -> returns (Ret a s) Q.
Proof. intros H. now exists a, s. Qed.

Lemma returns_bind {A B} (m : M A) (k : A -> M B) s (Q : B -> kstate -> Prop) :
  returns (m s) (fun a s' => returns (k a s') Q) -> returns (bind m k s) Q.
Proof. intros (a & s' & E & H). unfold bind. now rewrite E. Qed.

Lemma returns_weaken {A} (o : outcome A) (Q Q' : A -> kstate -> Prop) :
  returns o Q -> (forall a s, Q a s -> Q' a s) -> returns o Q'.
Proof. intros (a & s & E & H) HQ. exists a, s. eauto. Qed.

(** ** kill *)

Lemma kill_body_skip s i p pid0 op :
  procs s !! i = Some p -> lock p = Free -> pid p <> pid0 ->
  kill_body pid0 op i s = Ret None s.
Proof.
  intros H L P. unfold kill_body.
  pose proof (lookup_lt_Some _ _ _ H) as Hlt.
  erewrite bind_Ret by (eapply acquire_proc; eauto).
  erewrite bind_Ret by (apply getp_eq; simpl; apply list_lookup_insert_eq; auto).
  simpl. destruct (Z.eqb_spec (pid p) pid0); [done|].
  erewrite bind_Ret.
  2:{ eapply release_proc; simpl; [apply list_lookup_insert_eq; auto|reflexivity|reflexivity]. }
  unfold ret. f_equal. unfold setp; simpl. rewrite list_insert_insert_eq.
  rewrite set_lock_idem, <- L, set_lock_same. rewrite list_insert_id by done. now destruct s.
Qed.

Lemma kill_body_fail s i p pid0 op :
  procs s !! i = Some p -> lock p = Free -> pid p = pid0 ->
  (killed p <> 0 \/ state p = ZOMBIE \/ state p = UNUSED) ->
  kill_body pid0 op i s
  = Ret (Some (-1)) (set_noff (S (noff s)) (setp i (set_lock HeldSelf p) s)).
Proof.
  intros H L P B. unfold kill_body.
  pose proof (lookup_lt_Some _ _ _ H) as Hlt.
  erewrite bind_Ret by (eapply acquire_proc; eauto).
  erewrite bind_Ret by (apply getp_eq; simpl; apply list_lookup_insert_eq; auto).
  simpl. rewrite P, Z.eqb_refl.
  destruct B as [B|[B|B]].
  - destruct (Z.eqb_spec (killed p) 0); [done|]. reflexivity.
  - rewrite B. simpl. now rewrite orb_true_r.
  - rewrite B. simpl. now rewrite !orb_true_r.
Qed.

Lemma kill_body_hit s i p pid0 op :
  procs s !! i = Some p -> lock p = Free -> pid p = pid0 ->
  killed p = 0 -> state p <> ZOMBIE -> state p <> UNUSED ->
  kill_body pid0 op i s
  = Ret (Some 0) (setp i (set_pending_signals (Z.lor (pending_signals p) op) p) s).
Proof.
  intros H L P B1 B2 B3. unfold kill_body.
  pose proof (lookup_lt_Some _ _ _ H) as Hlt.
  erewrite bind_Ret by (eapply acquire_proc; eauto).
  erewrite bind_Ret by (apply getp_eq; simpl; apply list_lookup_insert_eq; auto).
  simpl. rewrite P, Z.eqb_refl, B1. simpl.
  rewrite !bool_decide_eq_false_2 by done. simpl.
  erewrite bind_Ret by (apply modp_eq; simpl; apply list_lookup_insert_eq; auto).
  erewrite bind_Ret.
  2:{ eapply release_proc; simpl;
      [apply list_lookup_insert_eq; rewrite length_insert; auto|reflexivity|reflexivity]. }
  unfold ret. f_equal. unfold setp; simpl. rewrite !list_insert_insert_eq.
  destruct s; simpl. do 2 f_equal. destruct p; simpl in *. now subst.
Qed.

Lemma kill_scan_found s i p pid0 op v s' :
  locks_free s -> first_pid s pid0 i p ->
  kill_body pid0 op i s = Ret (Some v) s' ->
  for_each_proc (kill_body pid0 op) s = Ret (Some v) s'.
Proof.
  intros LF (H & P & F) HB. unfold for_each_proc.
  pose proof (lookup_lt_Some _ _ _ H) as Hlt.
  rewrite (seq_split_at i) by done. rewrite scan_app.
  rewrite scan_skip.
  - simpl. erewrite bind_Ret by exact HB. reflexivity.
  - intros j Hj. apply elem_of_seq in Hj.
    destruct (lookup_lt_is_Some_2 (procs s) j) as [q Hq]; [lia|].
    eapply kill_body_skip; eauto. eapply F; eauto. lia.
Qed.

Lemma kill_scan_none s pid0 op :
  locks_free s -> (forall j q, procs s !! j = Some q -> pid q <> pid0) ->
  for_each_proc (kill_body pid0 op) s = Ret None s.
Proof.
  intros LF F. unfold for_each_proc. apply scan_skip.
  intros j Hj. apply elem_of_seq in Hj.
  destruct (lookup_lt_is_Some_2 (procs s) j) as [q Hq]; [lia|].
  eapply kill_body_skip; eauto.
Qed.

Lemma kill_in_range pid0 signum s :
  0 <= signum <= 31 ->
  kill pid0 signum s
  = match for_each_proc (kill_body pid0 (2 ^ signum)) s with
    | Ret (Some v) s' => Ret v s'
    | Ret None s' => Ret (-1) s'
    | Panic msg s' => Panic msg s'
    | Spin s' => Spin s'
    | Switched s' => Switched s'
    end.
Proof.
  intros H. unfold kill.
  destruct (Z.ltb_spec signum 0); [lia|]. destruct (Z.gtb_spec signum 31); [lia|].
  simpl. rewrite u32_shl1 by done. unfold bind.
  destruct (for_each_proc _ s) as [[v|] s'| | |]; reflexivity.
Qed.

Lemma locks_free_setp s i p :
  locks_free s -> lock p = Free -> locks_free (setp i p s).
Proof.
  intros LF L j q H.
  change (procs (setp i p s)) with (<[i := p]> (procs s)) in H.
  apply list_lookup_insert_Some in H as [(_ & <- & _)|(_ & H)]; eauto.
Qed.

Lemma first_pid_setp s pid0 i p p' :
  first_pid s pid0 i p -> pid p' = pid0 -> first_pid (setp i p' s) pid0 i p'.
Proof.
  intros (H & P & F) P'. pose proof (lookup_lt_Some _ _ _ H) as Hlt.
  split; [|split]; [simpl; now apply list_lookup_insert_eq | done |].
  intros j q Hj. simpl. rewrite list_lookup_insert_ne by lia. now apply F.
Qed.

(** C4: [kill] returns -1 for a signal number out of range, when no record
    has the pid, and when the first record with the pid is killed, a
    zombie or unused; otherwise it returns 0 and the only change is bit
    [signum] of that record's [pending_signals].  Raising the same signal
    again changes nothing more: nothing is queued. *)
Theorem kill_sets_pending_bit (s : kstate) (pid0 signum : Z) :
  locks_free s ->
  ((signum < 0 \/ 31 < signum) -> kill pid0 signum s = Ret (-1) s) /\
  (0 <= signum <= 31 ->
     ((forall j q, procs s !! j = Some q -> pid q <> pid0) ->
        kill pid0 signum s = Ret (-1) s) /\
     (forall i p, first_pid s pid0 i p ->
        ((killed p <> 0 \/ state p = ZOMBIE \/ state p = UNUSED) ->
           exists s', kill pid0 signum s = Ret (-1) s' /\
             map pending_signals (procs s') = map pending_signals (procs s)) /\
        (killed p = 0 -> state p <> ZOMBIE -> state p <> UNUSED ->
           let p' := set_pending_signals (Z.lor (pending_signals p) (2 ^ signum)) p in
           kill pid0 signum s = Ret 0 (setp i p' s) /\
           (forall b, 0 <= b ->
              Z.testbit (pending_signals p') b
              = (b =? signum) || Z.testbit (pending_signals p) b) /\
           kill pid0 signum (setp i p' s) = Ret 0 (setp i p' s)))).
Proof.
  intros LF. split.
  - intros H. unfold kill.
    destruct (Z.ltb_spec signum 0); [reflexivity|].
    destruct (Z.gtb_spec signum 31); [reflexivity|lia].
  - intros Hs. split.
    + intros Hno. rewrite kill_in_range by done.
      now rewrite kill_scan_none.
    + intros i p FP. pose proof FP as (H & P & F). split.
      * intros B. eexists. rewrite kill_in_range by done.
        erewrite (kill_scan_found s i p); [|done|done|apply kill_body_fail; eauto].
        split; [reflexivity|]. simpl.
        rewrite list_fmap_insert. simpl. apply list_insert_id.
        rewrite list_lookup_fmap, H. reflexivity.
      * intros B1 B2 B3 p'. split; [|split].
        -- rewrite kill_in_range by done.
           erewrite (kill_scan_found s i p); [|done|done|apply kill_body_hit; eauto].
           reflexivity.
        -- intros b Hb. subst p'. simpl.
           rewrite Z.lor_spec, Z.pow2_bits_eqb by lia.
           rewrite orb_comm. f_equal. apply Z.eqb_sym.
        -- rewrite kill_in_range by done.
           erewrite (kill_scan_found (setp i p' s) i p').
           ++ reflexivity.
           ++ apply locks_free_setp; [done|]. subst p'; simpl; eauto.
           ++ apply first_pid_setp with (p := p); [done|]. subst p'; simpl; eauto.
           ++ rewrite kill_body_hit with (p := p'); subst p'; simpl; eauto.
              ** f_equal. unfold setp. simpl. rewrite list_insert_insert_eq.
                 rewrite <- Z.lor_assoc, Z.lor_diag. reflexivity.
              ** apply list_lookup_insert_eq. eapply lookup_lt_Some; eauto.
Qed.

(** C2: on the path where the record found is killed, a zombie or
    unused, [kill] returns -1 while it still holds the lock of that
    record: the lock taken at the top of the loop body is not released. *)
Theorem kill_early_return_holds_lock (s : kstate) (pid0 signum : Z) (i : nat) (p : proc) :
  locks_free s -> 0 <= signum <= 31 -> first_pid s pid0 i p ->
  (killed p <> 0 \/ state p = ZOMBIE \/ state p = UNUSED) ->
  exists s' p',
    kill pid0 signum s = Ret (-1) s' /\
    procs s' !! i = Some p' /\ lock p' = HeldSelf /\ noff s' = S (noff s).
Proof.
  intros LF Hs FP B. pose proof FP as (H & P & F).
  exists (set_noff (S (noff s)) (setp i (set_lock HeldSelf p) s)), (set_lock HeldSelf p).
  rewrite kill_in_range by done.
  erewrite (kill_scan_found s i p); [|done|done|apply kill_body_fail; eauto].
  repeat split. simpl.
  apply list_lookup_insert_eq. eapply lookup_lt_Some; eauto.
Qed.

(** ** Masking *)

Lemma pending_unmasked_nonmaskable (p : proc) (k : Z) :
  signum_ok SIGKILL -> signum_ok SIGSTOP -> k = SIGKILL \/ k = SIGSTOP ->
  Z.testbit (pending_signals p) k = true -> pending_unmasked p k = true.
Proof.
  intros HK HS Hk Hp. unfold signum_ok in *.
  assert (0 <= k <= 31) as Hr by (destruct Hk; subst; done).
  unfold pending_unmasked. rewrite u32_shl1 by done.
  rewrite land_pow2_eqb, Hp by lia. simpl.
  apply eqb0_bits. intros b Hb.
  rewrite !Z.land_spec. unfold non_maskable.
  rewrite !testbit_u64, Z.land_spec, !Z.lnot_spec by done.
  destruct (Z.testbit (shl1 k) b) eqn:E.
  - destruct Hk; subst k; rewrite E; simpl;
      rewrite ?andb_false_r; simpl; rewrite ?andb_false_r; reflexivity.
  - now rewrite !andb_false_r.
Qed.

Lemma is_pending_and_not_masked_eq s i p k :
  cpu_proc s = Some i -> procs s !! i = Some p ->
  is_pending_and_not_masked k s = Ret (if pending_unmasked p k then 1 else 0) s.
Proof.
  intros Hc Hp. unfold is_pending_and_not_masked, myproc_deref, bind, getp.
  rewrite Hc, Hp. now destruct (pending_unmasked p k).
Qed.

(** C6: [sigprocmask] returns the mask stored before and stores the
    requested one without the bits of SIGKILL and SIGSTOP; whatever mask
    is stored, a pending SIGKILL or SIGSTOP passes the test of
    [is_pending_and_not_masked]. *)
Theorem sigprocmask_clears_nonmaskable (s : kstate) (i : nat) (p : proc) (m : Z) :
  signum_ok SIGKILL -> signum_ok SIGSTOP ->
  cpu_proc s = Some i -> procs s !! i = Some p ->
  exists m',
    sigprocmask m s = Ret (signals_mask p) (setp i (set_signals_mask m' p) s) /\
    (forall b, 0 <= b ->
       Z.testbit m' b
       = Z.testbit m b && (b <? 32) && negb (b =? SIGKILL) && negb (b =? SIGSTOP)) /\
    (forall (s1 : kstate) (j : nat) (q : proc) (k : Z),
       cpu_proc s1 = Some j -> procs s1 !! j = Some q ->
       k = SIGKILL \/ k = SIGSTOP ->
       Z.testbit (pending_signals q) k = true ->
       pending_unmasked q k = true /\ is_pending_and_not_masked k s1 = Ret 1 s1).
Proof.
  intros HK HS Hc Hp.
  exists (Z.land m (u32 (Z.lnot (Z.lor (shl1 SIGKILL) (shl1 SIGSTOP))))).
  split; [|split].
  - unfold sigprocmask, myproc_deref, bind, getp, modp, ret.
    rewrite Hc, Hp. simpl. now rewrite Hp.
  - intros b Hb. unfold signum_ok in *.
    rewrite Z.land_spec, testbit_u32, Z.lnot_spec, Z.lor_spec, !testbit_shl1 by done.
    destruct (Z.ltb_spec b 32); simpl; [|destruct (Z.testbit m b); reflexivity].
    destruct (Z.ltb_spec 31 b); [lia|]. rewrite !andb_false_r, !orb_false_r.
    destruct (Z.testbit m b), (b =? SIGKILL), (b =? SIGSTOP); reflexivity.
  - intros s1 j q k Hc1 Hq Hk Hb.
    pose proof (pending_unmasked_nonmaskable q k HK HS Hk Hb) as Hu.
    split; [done|]. erewrite is_pending_and_not_masked_eq by done. now rewrite Hu.
Qed.

(** ** sigaction *)

Lemma sigaction_rejects s signum act oldact a :
  signum < 0 \/ 31 < signum \/ signum = SIGKILL \/ signum = SIGSTOP \/ act = 0 ->
  sigaction signum act oldact a s = Ret (-1) s.
Proof.
  intros H. unfold sigaction, myproc, gets, bind, ret.
  destruct (Z.ltb_spec signum 0); [done|]. destruct (Z.gtb_spec signum 31); [done|].
  simpl.
  destruct (Z.eqb_spec signum SIGKILL); [done|].
  destruct (Z.eqb_spec signum SIGSTOP); [done|].
  simpl. destruct (Z.eqb_spec act 0); [done|]. lia.
Qed.

(** C3: where [sigaction] accepts the request it returns 0 and changes
    one thing, the handler entry of [signum]: a handler pointer other
    than SIG_DFL is stored as given, and for SIG_DFL the address of the
    parameter variable is stored.  User memory is as before the call,
    also when [oldact] is not null: the previous handler is not copied
    out. *)
Theorem sigaction_writes_handler_only (s : kstate) (i : nat) (p : proc)
    (signum act oldact a : Z) :
  cpu_proc s = Some i -> procs s !! i = Some p ->
  0 <= signum <= 31 -> signum <> SIGKILL -> signum <> SIGSTOP -> act <> 0 ->
  exists s',
    sigaction signum act oldact a s = Ret 0 s' /\
    s' = setp i (set_handler signum (if act =? SIG_DFL then a else act) p) s /\
    ext s' = ext s.
Proof.
  intros Hc Hp Hr HK HS Ha. eexists. split; [|split; [reflexivity|reflexivity]].
  unfold sigaction, myproc, gets, bind, ret, deref, getp, modp.
  destruct (Z.ltb_spec signum 0); [lia|]. destruct (Z.gtb_spec signum 31); [lia|].
  simpl.
  destruct (Z.eqb_spec signum SIGKILL); [done|].
  destruct (Z.eqb_spec signum SIGSTOP); [done|].
  simpl. destruct (Z.eqb_spec act 0); [done|].
  rewrite Hc. simpl. rewrite Hp.
  destruct (act =? SIG_DFL); rewrite Hp; reflexivity.
Qed.

(** ** The delivery loop *)

Lemma stop_wait_running s i p env :
  procs s !! i = Some p -> stopped p = 0 -> stop_wait i env s = Ret env s.
Proof.
  intros Hp Hs. destruct env; simpl; unfold bind, getp; rewrite Hp, Hs; reflexivity.
Qed.

Lemma signal_loop_ignore s i p k env sigs :
  cpu_proc s = Some i -> procs s !! i = Some p ->
  signal_handling p = 0 -> killed p = 0 -> stopped p = 0 ->
  handler p k = SIG_IGN ->
  (forall j, j ∈ sigs -> j <> k -> pending_unmasked p j = false) ->
  signal_loop i sigs env s = Ret tt s.
Proof.
  intros Hc Hp Hh Hk Hs Hi Ho. induction sigs as [|j sigs IH]; [reflexivity|].
  simpl. erewrite bind_Ret by (apply getp_eq; eauto). rewrite Hk. simpl.
  erewrite bind_Ret by (eapply stop_wait_running; eauto).
  erewrite bind_Ret by (eapply is_pending_and_not_masked_eq; eauto).
  assert (signal_loop i sigs env s = Ret tt s) as IH'.
  { apply IH. intros j' Hj'. apply Ho. now right. }
  destruct (pending_unmasked p j) eqn:E; simpl; [|done].
  erewrite bind_Ret by (apply getp_eq; eauto). rewrite Hh. simpl.
  destruct (decide (j = k)) as [->|Hne].
  - now rewrite Hi, Z.eqb_refl.
  - rewrite Ho in E; [done|left|done].
Qed.

(** C1: a pass of [signalhandler] over a process whose only deliverable
    signal [k] has the ignore action returns with the kernel state as it
    was: bit [k] of [pending_signals] is still set. *)
Theorem signalhandler_ignore_keeps_pending (s : kstate) (i : nat) (p : proc) (k : Z)
    (env : list envstep) :
  cpu_proc s = Some i -> procs s !! i = Some p ->
  signal_handling p = 0 -> killed p = 0 -> stopped p = 0 ->
  0 <= k <= 31 -> pending_unmasked p k = true -> handler p k = SIG_IGN ->
  (forall j, 0 <= j <= 31 -> j <> k -> pending_unmasked p j = false) ->
  signalhandler env s = Ret tt s /\ Z.testbit (pending_signals p) k = true.
Proof.
  intros Hc Hp Hh Hk Hs Hr Hu Hi Ho. split.
  - unfold signalhandler, myproc, gets, bind. rewrite Hc.
    rewrite (getp_eq _ _ _ Hp), Hh. change (negb (0 =? 0)) with false. cbv iota.
    eapply signal_loop_ignore; eauto.
    intros j Hj. apply Ho. unfold signums in Hj.
    apply list_elem_of_fmap in Hj as (n & -> & Hn). apply elem_of_seq in Hn. lia.
  - unfold pending_unmasked in Hu. apply andb_prop in Hu as [Hu _].
    rewrite u32_shl1, land_pow2_eqb in Hu by lia.
    now destruct (Z.testbit (pending_signals p) k).
Qed.

(** ** The reentrancy guard *)

Lemma handling_kept_refl s : handling_kept s s.
Proof. intros j p Hp Hh. eauto. Qed.

Lemma handling_kept_trans s1 s2 s3 :
  handling_kept s1 s2 -> handling_kept s2 s3 -> handling_kept s1 s3.
Proof.
  intros H12 H23 j p Hp Hh. destruct (H12 j p Hp Hh) as (p' & Hp' & Hh'). eauto.
Qed.

Lemma keeps_ret {A} (a : A) : keeps (ret a).
Proof. intros s. apply handling_kept_refl. Qed.

Lemma keeps_gets {A} (f : kstate -> A) : keeps (gets f).
Proof. intros s. apply handling_kept_refl. Qed.

Lemma keeps_panic {A} msg : keeps (@panic C A msg).
Proof. intros s. apply handling_kept_refl. Qed.

Lemma keeps_bind {A B} (m : M A) (k : A -> M B) :
  keeps m -> (forall a, keeps (k a)) -> keeps (bind m k).
Proof.
  intros Hm Hk s. unfold bind. specialize (Hm s).
  destruct (m s) as [a s'| | |]; simpl in *; try done.
  eapply handling_kept_trans; [exact Hm|apply Hk].
Qed.

Lemma handling_kept_procs s s' : procs s' = procs s -> handling_kept s s'.
Proof. intros E j p Hp Hh. rewrite E. eauto. Qed.

Lemma handling_kept_setp s i p q :
  procs s !! i = Some p -> (signal_handling p <> 0 -> signal_handling q <> 0) ->
  handling_kept s (setp i q s).
Proof.
  intros Hp Hq j p' Hp' Hh. simpl. destruct (decide (i = j)) as [->|Hne].
  - exists q. split; [apply list_lookup_insert_eq; eapply lookup_lt_Some; eauto|].
    apply Hq. congruence.
  - rewrite list_lookup_insert_ne by done. eauto.
Qed.

Lemma keeps_getp i : keeps (getp i).
Proof. intros s. unfold getp. destruct (procs s !! i); apply handling_kept_refl. Qed.

Lemma keeps_modp i f :
  (forall p, signal_handling p <> 0 -> signal_handling (f p) <> 0) -> keeps (modp i f).
Proof.
  intros Hf s. unfold modp. destruct (procs s !! i) eqn:E; simpl.
  - eapply handling_kept_setp; eauto.
  - apply handling_kept_refl.
Qed.

Lemma handling_kept_lock_set l v s : handling_kept s (lock_set l v s).
Proof.
  destruct l as [| |i]; simpl; try (apply handling_kept_procs; reflexivity).
  destruct (procs s !! i) eqn:E; [|apply handling_kept_refl].
  eapply (handling_kept_setp s i); eauto.
Qed.

Lemma keeps_acquire l : keeps (acquire l).
Proof.
  intros s. unfold acquire. destruct (lock_of l s) as [[]|]; simpl;
    try apply handling_kept_refl.
  eapply handling_kept_trans; [apply (handling_kept_lock_set l HeldSelf)|].
  apply handling_kept_procs. reflexivity.
Qed.

Lemma keeps_release l : keeps (release l).
Proof.
  intros s. unfold release. destruct (lock_of l s) as [[]|]; simpl;
    try apply handling_kept_refl.
  destruct (noff s); simpl; [apply handling_kept_refl|].
  eapply handling_kept_trans; [apply (handling_kept_lock_set l Free)|].
  apply handling_kept_procs. reflexivity.
Qed.

Lemma keeps_scan {A} (body : nat -> M (option A)) l :
  (forall i, keeps (body i)) -> keeps (scan body l).
Proof.
  intros Hb. induction l as [|i l IH]; simpl; [apply keeps_ret|].
  apply keeps_bind; [apply Hb|]. intros [a|]; [apply keeps_ret|apply IH].
Qed.

Lemma keeps_for_each_proc {A} (body : nat -> M (option A)) :
  (forall i, keeps (body i)) -> keeps (for_each_proc body).
Proof. intros Hb s. unfold for_each_proc. now apply keeps_scan. Qed.

Lemma keeps_myproc_deref : keeps myproc_deref.
Proof. intros s. unfold myproc_deref. destruct (cpu_proc s); apply handling_kept_refl. Qed.

Lemma keeps_deref o : keeps (deref o).
Proof. destruct o; [apply keeps_ret|apply keeps_panic]. Qed.

Lemma keeps_call_ext {A} (f : ext_t -> A * ext_t) : keeps (call_ext f).
Proof.
  intros s. unfold call_ext. destruct (f (ext s)). apply handling_kept_procs. reflexivity.
Qed.

Ltac keeps_tac :=
  repeat first
    [ apply keeps_ret | apply keeps_gets | apply keeps_panic | apply keeps_getp
    | apply keeps_acquire | apply keeps_release | apply keeps_myproc_deref
    | apply keeps_deref | apply keeps_call_ext
    | apply keeps_modp; intros ?; simpl; try done
    | apply keeps_bind; [|intros ?]
    | match goal with
      | |- keeps (if ?b then _ else _) => destruct b
      | |- keeps (match ?o with Some _ => _ | None => _ end) => destruct o
      end ].

Lemma keeps_kill pid0 signum : keeps (kill pid0 signum).
Proof.
  unfold kill. destruct (_ || _); [apply keeps_ret|].
  apply keeps_bind; [|intros [v|]; apply keeps_ret].
  apply keeps_for_each_proc. intros i. unfold kill_body. keeps_tac.
Qed.

Lemma keeps_sigprocmask m : keeps (sigprocmask m).
Proof. unfold sigprocmask. keeps_tac. Qed.

Lemma keeps_sigaction signum act oldact a : keeps (sigaction signum act oldact a).
Proof. unfold sigaction, myproc. keeps_tac. Qed.

Lemma keeps_bind_post {A B} (m : M A) (k : A -> M B) (P : A -> Prop) :
  keeps m -> (forall s a s', m s = Ret a s' -> P a) -> (forall a, P a -> keeps (k a)) ->
  keeps (bind m k).
Proof.
  intros Hm HP Hk s. unfold bind. pose proof (Hm s) as Hms.
  destruct (m s) as [a s'| | |] eqn:E; simpl in *; try done.
  eapply handling_kept_trans; [exact Hms|]. apply Hk. eapply HP; eauto.
Qed.

Lemma keeps_modify f : (forall s, handling_kept s (f s)) -> keeps (modify f).
Proof. intros H s. apply H. Qed.

Lemma keeps_swtch_out i e :
  (forall f, e = Some f -> forall s, handling_kept s (f s)) -> keeps (swtch_out i e).
Proof.
  intros He s. unfold swtch_out. destruct e as [f|]; [|apply handling_kept_refl].
  assert (handling_kept s (f (scheduler_release i s))) as H1.
  { eapply handling_kept_trans; [|apply (He f eq_refl)].
    unfold scheduler_release.
    eapply handling_kept_trans; [apply (handling_kept_lock_set (ProcLock i) Free)|].
    apply handling_kept_procs. reflexivity. }
  destruct (scheduler_pick i _) as [s2|] eqn:E; simpl; [|exact H1].
  eapply handling_kept_trans; [exact H1|].
  unfold scheduler_pick in E.
  destruct (procs (f (scheduler_release i s)) !! i) as [p'|] eqn:Ep; [|done].
  destruct (_ && _); [|done]. inversion E; subst s2.
  eapply handling_kept_trans; [eapply (handling_kept_setp _ i); [exact Ep|]|].
  2:{ apply handling_kept_procs. reflexivity. }
  simpl. auto.
Qed.

Lemma keeps_sched e :
  (forall f, e = Some f -> forall s, handling_kept s (f s)) -> keeps (sched e).
Proof.
  intros He. unfold sched, holding, intr_get.
  repeat first
    [ apply keeps_gets | apply keeps_panic | apply keeps_getp | apply keeps_myproc_deref
    | apply keeps_swtch_out; exact He
    | apply keeps_modify; intros ?; apply handling_kept_procs; reflexivity
    | apply keeps_bind; [|intros ?]
    | match goal with |- keeps (if ?b then _ else _) => destruct b end ].
Qed.

Lemma keeps_yield e :
  (forall f, e = Some f -> forall s, handling_kept s (f s)) -> keeps (yield e).
Proof.
  intros He. unfold yield.
  apply keeps_bind; [apply keeps_myproc_deref|intros i].
  apply keeps_bind; [apply keeps_acquire|intros _].
  apply keeps_bind; [apply keeps_modp; intros ?; simpl; done|intros _].
  apply keeps_bind; [now apply keeps_sched|intros _]. apply keeps_release.
Qed.

Lemma keeps_sigcont_func : keeps sigcont_func.
Proof. unfold sigcont_func. keeps_tac. Qed.

Lemma keeps_sigstop_func : keeps sigstop_func.
Proof. unfold sigstop_func. keeps_tac. Qed.

Lemma keeps_sigkill_func : keeps sigkill_func.
Proof. unfold sigkill_func. keeps_tac. Qed.

Lemma keeps_turnoff_sigbit i k : keeps (turnoff_sigbit i k).
Proof. unfold turnoff_sigbit. keeps_tac. Qed.

Lemma keeps_is_pending k : keeps (is_pending_and_not_masked k).
Proof. unfold is_pending_and_not_masked. keeps_tac. Qed.

Lemma keeps_usersignalhandler i k : keeps (usersignalhandler i k).
Proof.
  unfold usersignalhandler.
  repeat first
    [ apply keeps_ret | apply keeps_gets | apply keeps_panic | apply keeps_getp
    | apply keeps_acquire | apply keeps_release | apply keeps_call_ext
    | apply keeps_sigprocmask
    | apply keeps_modp; intros ?; simpl; done
    | apply keeps_bind; [|intros ?]
    | match goal with
      | |- keeps (match ?o with Some _ => _ | None => _ end) => destruct o
      end ].
Qed.

Lemma keeps_search_cont_loop i sigs : keeps (search_cont_loop i sigs).
Proof.
  induction sigs as [|k sigs IH]; cbn [search_cont_loop]; [apply keeps_ret|].
  apply keeps_bind; [apply keeps_is_pending|intros r].
  destruct (negb (r =? 0)); [|exact IH].
  apply keeps_bind; [apply keeps_getp|intros p].
  destruct (handler p k =? SIGCONT); [|exact IH].
  apply keeps_bind; [apply keeps_sigcont_func|intros _].
  apply keeps_bind; [apply keeps_turnoff_sigbit|intros _]. apply keeps_ret.
Qed.

Lemma keeps_search_cont_signals : keeps search_cont_signals.
Proof.
  unfold search_cont_signals.
  apply keeps_bind; [apply keeps_myproc_deref|intros i].
  apply keeps_bind; [apply keeps_is_pending|intros r].
  destruct (negb (r =? 0)).
  { apply keeps_bind; [apply keeps_sigcont_func|intros _].
    apply keeps_bind; [apply keeps_turnoff_sigbit|intros _]. apply keeps_ret. }
  apply keeps_bind; [apply keeps_is_pending|intros r'].
  destruct (negb (r' =? 0)).
  { apply keeps_bind; [apply keeps_sigkill_func|intros _].
    apply keeps_bind; [apply keeps_turnoff_sigbit|intros _]. apply keeps_ret. }
  apply keeps_search_cont_loop.
Qed.

Lemma keeps_stop_wait i env : env_keeps env -> keeps (stop_wait i env).
Proof.
  induction env as [|f env IH]; intros He; cbn [stop_wait].
  - apply keeps_bind; [apply keeps_getp|intros p].
    destruct (stopped p =? 0); [apply keeps_ret|].
    apply keeps_bind; [apply keeps_search_cont_signals|intros r].
    destruct (negb (r =? 0)); [apply keeps_ret|].
    apply keeps_bind; [apply keeps_yield; intros f Hf; discriminate|intros _].
    apply keeps_ret.
  - inversion He as [|? ? Hf He']; subst.
    apply keeps_bind; [apply keeps_getp|intros p].
    destruct (stopped p =? 0); [apply keeps_ret|].
    apply keeps_bind; [apply keeps_search_cont_signals|intros r].
    destruct (negb (r =? 0)); [apply keeps_ret|].
    apply keeps_bind; [apply keeps_yield; intros f' [= <-]; exact Hf|intros _].
    now apply IH.
Qed.

Lemma stop_wait_env_keeps i env s env' s' :
  env_keeps env -> stop_wait i env s = Ret env' s' -> env_keeps env'.
Proof.
  revert s. induction env as [|f env IH]; intros s He; cbn [stop_wait]; unfold bind.
  - destruct (getp i s) as [p s1| | |]; try discriminate.
    destruct (stopped p =? 0); [unfold ret; intros [= <- _]; exact He|].
    destruct (search_cont_signals s1) as [r s2| | |]; try discriminate.
    destruct (negb (r =? 0)); [unfold ret; intros [= <- _]; exact He|].
    destruct (yield None s2); try discriminate. unfold ret. intros [= <- _]. constructor.
  - inversion He as [|? ? Hf He']; subst.
    destruct (getp i s) as [p s1| | |]; try discriminate.
    destruct (stopped p =? 0); [unfold ret; intros [= <- _]; exact He|].
    destruct (search_cont_signals s1) as [r s2| | |]; try discriminate.
    destruct (negb (r =? 0)); [unfold ret; intros [= <- _]; exact He|].
    destruct (yield (Some f) s2) as [u s3| | |]; try discriminate.
    intros H. eapply IH; eauto.
Qed.

Lemma keeps_dispatch i k h : keeps (dispatch i k h).
Proof.
  unfold dispatch.
  repeat match goal with |- keeps (if ?b then _ else _) => destruct b end;
    first [ apply keeps_sigstop_func | apply keeps_sigcont_func
          | apply keeps_sigkill_func | apply keeps_usersignalhandler ].
Qed.

Lemma keeps_signal_loop me sigs :
  forall env, env_keeps env -> keeps (signal_loop me sigs env).
Proof.
  induction sigs as [|k sigs IH]; intros env He; cbn [signal_loop]; [apply keeps_ret|].
  apply keeps_bind; [apply keeps_getp|intros p].
  destruct (negb (killed p =? 0)); [apply keeps_ret|].
  apply (keeps_bind_post _ _ env_keeps); [now apply keeps_stop_wait| |].
  { intros s a s' H. eapply stop_wait_env_keeps; eauto. }
  intros env' He'.
  apply keeps_bind; [apply keeps_is_pending|intros r].
  destruct (r =? 0); [now apply IH|].
  apply keeps_bind; [apply keeps_getp|intros p'].
  destruct (negb (signal_handling p' =? 0)); [apply keeps_ret|].
  destruct (handler p' k =? SIG_IGN); [now apply IH|].
  apply keeps_bind; [apply keeps_dispatch|intros _].
  apply keeps_bind; [apply keeps_turnoff_sigbit|intros _]. now apply IH.
Qed.

Lemma keeps_signalhandler env : env_keeps env -> keeps (signalhandler env).
Proof.
  intros He. unfold signalhandler, myproc.
  apply keeps_bind; [apply keeps_gets|intros [i|]]; [|apply keeps_ret].
  apply keeps_bind; [apply keeps_getp|intros p].
  destruct (negb (signal_handling p =? 0)); [apply keeps_ret|].
  now apply keeps_signal_loop.
Qed.

Lemma sigret_clears s i p tf :
  cpu_proc s = Some i -> procs s !! i = Some p -> lock p = Free ->
  trapframe p = Some tf ->
  exists s' p', sigret s = Ret tt s' /\ procs s' !! i = Some p' /\
    signal_handling p' = 0 /\ signals_mask p' = signals_mask_backup p /\
    user_tf_backup p' = 0.
Proof.
  intros Hc Hp Hl Ht. pose proof (lookup_lt_Some _ _ _ Hp) as Hlt.
  unfold sigret, myproc_deref, bind at 1. rewrite Hc.
  erewrite bind_Ret by (eapply acquire_proc; eauto).
  erewrite bind_Ret by (apply getp_eq; simpl; apply list_lookup_insert_eq; auto).
  simpl. rewrite Ht.
  unfold bind, gets, modp, release, getp; simpl.
  repeat (rewrite ?list_lookup_insert_eq by (rewrite ?length_insert; done); simpl).
  do 2 eexists. split; [reflexivity|]. simpl.
  rewrite list_lookup_insert_eq by (rewrite ?length_insert; done).
  split; [reflexivity|]. done.
Qed.

Lemma signalhandler_guard s i p env :
  cpu_proc s = Some i -> procs s !! i = Some p -> signal_handling p <> 0 ->
  signalhandler env s = Ret tt s.
Proof.
  intros Hc Hp Hh. unfold signalhandler, myproc, gets, bind. rewrite Hc.
  rewrite (getp_eq _ _ _ Hp). destruct (Z.eqb_spec (signal_handling p) 0); done.
Qed.

(** ** freeproc *)

Lemma freeproc_eq s i c :
  procs s !! i = Some c ->
  freeproc i s = Ret tt (set_ext (freed_ext c (ext s)) (setp i (freed c) s)).
Proof.
  intros H. pose proof (lookup_lt_Some _ _ _ H) as Hlt.
  unfold freeproc, freed_ext, proc_freepagetable. mstep.
  destruct (bool_decide (trapframe c <> None)); repeat mstep;
    change (pagetable (set_trapframe None c)) with (pagetable c);
    change (sz (set_trapframe None c)) with (sz c);
    destruct (bool_decide (pagetable c <> 0)); repeat mstep; reflexivity.
Qed.

(** Stepping, with [freeproc] taken as one step. *)
Ltac xstep :=
  lazymatch goal with
  | |- bind (freeproc _) _ _ = _ => erewrite bind_Ret by (apply freeproc_eq; lk); norm
  | |- returns (bind (freeproc _) _ _) _ =>
      erewrite bind_Ret by (apply freeproc_eq; lk); norm
  | _ => mstep
  end.

(** ** wait *)

(** Slots without a zombie child are passed over: only [havekids] is
    updated. *)
Lemma wait_scan_skip me addr l1 l2 hk s :
  locks_free s ->
  (forall j, j ∈ l1 -> (j < length (procs s))%nat) ->
  (forall j q, j ∈ l1 -> procs s !! j = Some q -> parent q = me -> state q <> ZOMBIE) ->
  wait_scan me addr (l1 ++ l2) hk s
  = wait_scan me addr l2 (hk || existsb (childb s me) l1) s.
Proof.
  intros LF. revert hk. induction l1 as [|j l1 IH]; intros hk Hlen Hnz.
  - simpl. now rewrite orb_false_r.
  - destruct (lookup_lt_is_Some_2 (procs s) j) as [q Hq]; [apply Hlen; left|].
    assert (forall hk', wait_scan me addr (l1 ++ l2) hk' s
              = wait_scan me addr l2 (hk' || existsb (childb s me) l1) s) as IH'.
    { intros hk'. apply IH; intros; [apply Hlen|eapply Hnz]; eauto; now right. }
    cbn [app wait_scan existsb]. unfold childb at 1. rewrite Hq.
    mstep. destruct (bool_decide (parent q = me)) eqn:E.
    + apply bool_decide_eq_true in E.
      pose proof (LF _ _ Hq) as L.
      pose proof (lookup_lt_Some _ _ _ Hq) as Hlt.
      mstep. mstep. cbn [state set_lock].
      rewrite bool_decide_eq_false_2 by (eapply Hnz; eauto; left).
      mstep. rewrite (set_lock_free_id q L), list_insert_id by done.
      rewrite kstate_eta, IH'. now rewrite orb_true_r.
    + rewrite IH'. reflexivity.
Qed.

Lemma wait_scan_skip_bind {B} me addr l1 l2 hk (k : bool + Z -> M B) s :
  locks_free s ->
  (forall j, j ∈ l1 -> (j < length (procs s))%nat) ->
  (forall j q, j ∈ l1 -> procs s !! j = Some q -> parent q = me -> state q <> ZOMBIE) ->
  bind (wait_scan me addr (l1 ++ l2) hk) k s
  = bind (wait_scan me addr l2 (hk || existsb (childb s me) l1)) k s.
Proof. intros. unfold bind. now rewrite wait_scan_skip. Qed.

Lemma wait_loop_unfold me addr env :
  wait_loop me addr env
  = bind (gets (fun s => length (procs s))) (fun n =>
    bind (wait_scan me addr (seq 0 n) false) (fun r =>
      match r with
      | inr v => ret v
      | inl havekids =>
          bind (if negb havekids then ret 0
                else bind (deref me) (fun i => bind (getp i) (fun p => ret (killed p))))
            (fun killed0 =>
               if negb havekids || negb (killed0 =? 0) then
                 bind (release WaitLock) (fun _ => ret (-1))
               else
                 match env with
                 | [] => bind (sleep (chan_of me) WaitLock None) (fun _ => ret (-1))
                 | f :: env' =>
                     bind (sleep (chan_of me) WaitLock (Some f))
                       (fun _ => wait_loop me addr env')
                 end)
      end)).
Proof. destruct env; reflexivity. Qed.

Lemma freed_locked c : lock c = Free -> set_lock Free (freed (set_lock HeldSelf c)) = freed c.
Proof. intros L. destruct c; simpl in *; now subst. Qed.

(** [wait] with a zombie child: what the copy-out decides. *)
Lemma wait_zombie s me p z c addr env :
  cpu_proc s = Some me -> procs s !! me = Some p -> wait_lock s = Free ->
  locks_free s -> first_zombie s me z c ->
  wait addr env s
  = if addr =? 0
    then Ret (pid c) (set_ext (freed_ext c (ext s)) (setp z (freed c) s))
    else
      let r := copyout_int (pagetable p) addr (xstate c) (ext s) in
      if r.1 <? 0 then Ret (-1) (set_ext r.2 s)
      else Ret (pid c) (set_ext (freed_ext c r.2) (setp z (freed c) s)).
Proof.
  intros Hc Hp Hw LF (Hz & Hpar & Hst & Hfirst).
  pose proof (lookup_lt_Some _ _ _ Hz) as Hlt.
  pose proof (LF _ _ Hz) as L.
  unfold wait, myproc. mstep. rewrite Hc. mstep.
  rewrite wait_loop_unfold. mstep.
  rewrite (seq_split_at z) by done.
  rewrite wait_scan_skip_bind; cycle 1.
  { exact LF. }
  { intros j Hj. apply elem_of_seq in Hj. cbn [procs]. lia. }
  { intros j q Hj Hq Hjp. apply elem_of_seq in Hj. eapply Hfirst; eauto. lia. }
  cbn [wait_scan orb]. repeat mstep. rewrite bool_decide_eq_true_2 by done.
  repeat mstep. cbn [state set_lock]. rewrite Hst.
  rewrite bool_decide_eq_true_2 by done.
  cbn [pid set_lock xstate].
  destruct (Z.eqb_spec addr 0) as [->|Hne].
  - repeat xstep. unfold ret. rewrite freed_locked by done.
    rewrite ?Hw, ?Hc. reflexivity.
  - unfold deref. repeat mstep.
    assert (exists p', <[z := set_lock HeldSelf c]> (procs s) !! me = Some p'
              /\ pagetable p' = pagetable p) as (p' & Hp' & Hpt).
    { destruct (decide (z = me)) as [->|Hne'].
      - exists (set_lock HeldSelf c). rewrite list_lookup_insert_eq by done.
        split; [done|]. rewrite Hz in Hp. now inversion Hp.
      - exists p. now rewrite list_lookup_insert_ne. }
    erewrite bind_Ret by (apply getp_eq; exact Hp'). rewrite Hpt.
    repeat mstep. cbn zeta.
    destruct (_ <? 0) eqn:Hrc.
    + repeat mstep. unfold ret.
      rewrite (set_lock_free_id c L), list_insert_id by done.
      rewrite ?Hw, ?Hc. reflexivity.
    + repeat xstep. unfold ret. rewrite freed_locked by done.
      rewrite ?Hw, ?Hc. reflexivity.
Qed.

Lemma has_child_existsb s me :
  has_child s me <-> existsb (childb s (Some me)) (seq 0 (length (procs s))) = true.
Proof.
  rewrite existsb_exists. split.
  - intros (j & q & Hq & Hp). exists j. split.
    + apply in_seq. apply lookup_lt_Some in Hq. lia.
    + unfold childb. rewrite Hq. now apply bool_decide_eq_true.
  - intros (j & _ & Hj). unfold childb in Hj.
    destruct (procs s !! j) as [q|] eqn:Hq; [|done].
    apply bool_decide_eq_true in Hj. now exists j, q.
Qed.

(** The scan of [wait] when no child is a zombie: the table is as before
    and [havekids] tells whether there is a child. *)
Lemma wait_scan_no_zombie {B} s me addr (k : bool + Z -> M B) n :
  n = length (procs s) -> locks_free s -> no_zombie s me ->
  bind (wait_scan (Some me) addr (seq 0 n) false) k s
  = k (inl (existsb (childb s (Some me)) (seq 0 n))) s.
Proof.
  intros -> LF NZ.
  rewrite <- (app_nil_r (seq 0 (length (procs s)))) at 1.
  rewrite wait_scan_skip_bind.
  - reflexivity.
  - exact LF.
  - intros j Hj. apply elem_of_seq in Hj. lia.
  - intros j q _ Hq Hp. eapply NZ; eauto.
Qed.

Lemma wait_fails s me p addr env :
  cpu_proc s = Some me -> procs s !! me = Some p -> wait_lock s = Free ->
  locks_free s -> no_zombie s me ->
  ~ has_child s me \/ killed p <> 0 ->
  wait addr env s = Ret (-1) s.
Proof.
  intros Hc Hp Hw LF NZ Hcase.
  unfold wait, myproc. mstep. rewrite Hc. mstep.
  rewrite wait_loop_unfold. mstep.
  rewrite wait_scan_no_zombie; [|reflexivity|exact LF|exact NZ].
  change (childb _ (Some me)) with (childb s (Some me)).
  destruct (existsb _ _) eqn:E; cbn [negb orb].
  - unfold deref. repeat mstep.
    destruct Hcase as [Hn|Hk]; [apply has_child_existsb in E; done|].
    destruct (Z.eqb_spec (killed p) 0); [done|]. cbn [negb].
    repeat mstep. unfold ret. rewrite <- Hw. now rewrite kstate_eta.
  - repeat mstep. unfold ret. rewrite <- Hw. now rewrite kstate_eta.
Qed.

Lemma scheduler_pick_Some i s' s2 :
  scheduler_pick i s' = Some s2 ->
  exists p', procs s' !! i = Some p' /\ lock p' = Free /\ state p' = RUNNABLE /\
    s2 = set_noff 1%nat (set_cpu_proc (Some i)
           (setp i (set_state RUNNING (set_lock HeldSelf p')) s')).
Proof.
  unfold scheduler_pick. destruct (procs s' !! i) as [p'|] eqn:E; [|done].
  destruct (bool_decide (lock p' = Free)) eqn:E1; [|done].
  destruct (bool_decide (state p' = RUNNABLE)) eqn:E2; [|done].
  intros [= <-]. apply bool_decide_eq_true in E1, E2. eauto.
Qed.

(** [sched] called by slot [me] holding only its own lock and not
    RUNNING. *)
Lemma sched_eq s me p e :
  cpu_proc s = Some me -> procs s !! me = Some p -> lock p = HeldSelf ->
  noff s = 1%nat -> state p <> RUNNING ->
  sched e s
  = bind (swtch_out me e) (fun _ => modify (set_intena (intena s))) s.
Proof.
  intros Hc Hp Hl Hn Hs. unfold sched, holding, intr_get.
  repeat mstep. cbn [lock_of]. rewrite Hp. cbn [fmap option_fmap option_map].
  rewrite Hl. rewrite bool_decide_eq_true_2 by done. cbn [negb].
  repeat mstep. rewrite Hn. rewrite bool_decide_eq_true_2 by done. cbn [negb].
  rewrite (bool_decide_eq_false_2 (state p = RUNNING)) by done.
  repeat mstep. rewrite Hn, (bool_decide_eq_false_2 (1%nat = 0%nat)) by done.
  repeat mstep. reflexivity.
Qed.

Lemma sched_eq_bind {B} s me p e (k : unit -> M B) :
  cpu_proc s = Some me -> procs s !! me = Some p -> lock p = HeldSelf ->
  noff s = 1%nat -> state p <> RUNNING ->
  bind (sched e) k s
  = bind (swtch_out me e) (fun _ => bind (modify (set_intena (intena s))) k) s.
Proof.
  intros Hc Hp Hl Hn Hs. unfold bind at 1.
  erewrite sched_eq by eauto. unfold bind.
  destruct (swtch_out me e s); reflexivity.
Qed.

(** [sleep] on one's own record under [wait_lock], up to the switch. *)
Lemma sleep_wait_eq {B} s me p e (k : unit -> M B) :
  cpu_proc s = Some me -> procs s !! me = Some p -> lock p = Free ->
  wait_lock s = HeldSelf -> noff s = 1%nat ->
  bind (sleep (ProcPtr me) WaitLock e) k s
  = bind (swtch_out me e) (fun _ =>
      bind (modify (set_intena (intena s))) (fun _ =>
      bind (bind (modp me (set_chan Null)) (fun _ =>
            bind (release (ProcLock me)) (fun _ => acquire WaitLock))) k))
      (set_wait_lock Free (asleep me p s)).
Proof.
  intros Hc Hp Hl Hw Hn. pose proof (lookup_lt_Some _ _ _ Hp) as Hlt.
  unfold sleep. repeat mstep. rewrite Hn. repeat mstep.
  erewrite sched_eq_bind; [| exact Hc | lk | reflexivity | reflexivity | done ].
  unfold asleep. norm. reflexivity.
Qed.

Lemma asleep_under_wait_lock s me p :
  wait_lock s = Free ->
  set_wait_lock Free (asleep me p (set_noff (S (noff s)) (set_wait_lock HeldSelf s)))
  = asleep me p s.
Proof. intros Hw. destruct s; simpl in *; subst; reflexivity. Qed.

(** [wait] up to the point where it goes to sleep. *)
Lemma wait_to_sleep s me p addr env :
  cpu_proc s = Some me -> procs s !! me = Some p -> wait_lock s = Free ->
  locks_free s -> no_zombie s me -> has_child s me -> killed p = 0 -> noff s = 0%nat ->
  wait addr env s
  = match env with
    | [] => bind (swtch_out me None) (fun _ => ret (-1)) (asleep me p s)
    | f :: env' =>
        bind (swtch_out me (Some f)) (fun _ =>
          bind (modify (set_intena (intena s))) (fun _ =>
          bind (bind (modp me (set_chan Null)) (fun _ =>
                bind (release (ProcLock me)) (fun _ => acquire WaitLock)))
               (fun _ => wait_loop (Some me) addr env')))
          (asleep me p s)
    end.
Proof.
  intros Hc Hp Hw LF NZ HC Hk Hn.
  unfold wait, myproc. mstep. rewrite Hc. mstep.
  rewrite wait_loop_unfold. mstep.
  rewrite wait_scan_no_zombie; [|reflexivity|exact LF|exact NZ].
  change (childb _ (Some me)) with (childb s (Some me)).
  apply has_child_existsb in HC. rewrite HC. cbn [negb orb].
  unfold deref. repeat mstep. rewrite Hk. cbn [Z.eqb negb]. cbv iota.
  rewrite <- (asleep_under_wait_lock s me p Hw). rewrite Hn.
  destruct env as [|f env']; cbn [chan_of].
  - erewrite sleep_wait_eq; [|exact Hc|exact Hp|eauto|reflexivity|reflexivity].
    unfold swtch_out, bind. reflexivity.
  - erewrite sleep_wait_eq; [|exact Hc|exact Hp|eauto|reflexivity|reflexivity].
    reflexivity.
Qed.

Lemma wait_sleeps s me p addr :
  cpu_proc s = Some me -> procs s !! me = Some p -> wait_lock s = Free ->
  locks_free s -> no_zombie s me -> has_child s me -> killed p = 0 -> noff s = 0%nat ->
  wait addr [] s = Switched (asleep me p s).
Proof. intros. erewrite wait_to_sleep by eauto. reflexivity. Qed.

Lemma wait_retries s me p addr f env s2 :
  cpu_proc s = Some me -> procs s !! me = Some p -> wait_lock s = Free ->
  locks_free s -> no_zombie s me -> has_child s me -> killed p = 0 -> noff s = 0%nat ->
  scheduler_pick me (f (scheduler_release me (asleep me p s))) = Some s2 ->
  wait_lock s2 = Free ->
  wait addr (f :: env) s = wait_loop (Some me) addr env (after_sleep me (intena s) s2).
Proof.
  intros Hc Hp Hw LF NZ HC Hk Hn Hpick Hw2.
  erewrite wait_to_sleep by eauto.
  unfold swtch_out at 1. unfold bind at 1. rewrite Hpick.
  remember (f (scheduler_release me (asleep me p s))) as s' eqn:Es'. clear Es'.
  destruct (scheduler_pick_Some _ _ _ Hpick) as (p' & Hp' & Hl' & Hs' & ->).
  clear Hpick.
  pose proof (lookup_lt_Some _ _ _ Hp') as Hlt.
  unfold after_sleep. cbn [procs setp set_noff set_cpu_proc set_procs].
  rewrite list_lookup_insert_eq by done.
  cbn [wait_lock setp set_noff set_cpu_proc set_procs] in Hw2.
  repeat mstep. reflexivity.
Qed.

Lemma wait_stays_asleep s me p addr f env :
  cpu_proc s = Some me -> procs s !! me = Some p -> wait_lock s = Free ->
  locks_free s -> no_zombie s me -> has_child s me -> killed p = 0 -> noff s = 0%nat ->
  scheduler_pick me (f (scheduler_release me (asleep me p s))) = None ->
  wait addr (f :: env) s = Switched (f (scheduler_release me (asleep me p s))).
Proof.
  intros Hc Hp Hw LF NZ HC Hk Hn Hpick.
  erewrite wait_to_sleep by eauto.
  unfold swtch_out at 1. unfold bind at 1. now rewrite Hpick.
Qed.

(** C8 (amended): [wait] scans the table first.  When a child is a
    zombie, the first such child in table order is reaped, whether or not
    the caller is marked killed: its exit status is copied out if an
    address was given and, the copy having succeeded, its slot is freed
    (state UNUSED) and its pid returned.  When no child is a zombie,
    [wait] returns -1 if the caller has no children or is marked killed;
    otherwise it switches out asleep on its own record, and once the
    scheduler picks it again it runs the scan again. *)
Theorem wait_reaps_fails_or_sleeps (s : kstate) (me : nat) (p : proc) (addr : Z) :
  cpu_proc s = Some me -> procs s !! me = Some p -> wait_lock s = Free ->
  locks_free s -> noff s = 0%nat ->
  (forall z c env, first_zombie s me z c ->
     let r := copyout_int (pagetable p) addr (xstate c) (ext s) in
     (addr = 0 ->
        wait addr env s
        = Ret (pid c) (set_ext (freed_ext c (ext s)) (setp z (freed c) s))) /\
     (addr <> 0 -> 0 <= r.1 ->
        wait addr env s
        = Ret (pid c) (set_ext (freed_ext c r.2) (setp z (freed c) s))) /\
     state (freed c) = UNUSED) /\
  (no_zombie s me ->
     (forall env, ~ has_child s me \/ killed p <> 0 -> wait addr env s = Ret (-1) s) /\
     (has_child s me -> killed p = 0 ->
        wait addr [] s = Switched (asleep me p s) /\
        (exists q, procs (asleep me p s) !! me = Some q /\
           state q = SLEEPING /\ chan q = ProcPtr me) /\
        (forall f env s2,
           scheduler_pick me (f (scheduler_release me (asleep me p s))) = Some s2 ->
           wait_lock s2 = Free ->
           wait addr (f :: env) s
           = wait_loop (Some me) addr env (after_sleep me (intena s) s2)))).
Proof.
  intros Hc Hp Hw LF Hn. split.
  - intros z c env FZ r. split; [|split]; [| |reflexivity].
    + intros ->. now rewrite (wait_zombie s me p z c 0 env).
    + intros Hne Hr. rewrite (wait_zombie s me p z c addr env) by done.
      destruct (Z.eqb_spec addr 0); [done|]. cbn zeta. fold r.
      destruct (Z.ltb_spec r.1 0); [lia|reflexivity].
  - intros NZ. split.
    + intros env Hcase. eapply wait_fails; eauto.
    + intros HC Hk. split; [eapply wait_sleeps; eauto|]. split.
      * exists (set_state SLEEPING (set_chan (ProcPtr me) (set_lock HeldSelf p))).
        split; [|split; reflexivity].
        unfold asleep; cbn. apply list_lookup_insert_eq. eapply lookup_lt_Some; eauto.
      * intros f env s2 Hpick Hw2. eapply wait_retries; eauto.
Qed.

(** C10: when the copy-out of a zombie child's exit status to a non-zero
    address fails, [wait] returns -1 and the table is as before the call:
    the child's slot is still ZOMBIE with its pid and exit status, and a
    later [wait] reaps it. *)
Theorem wait_copyout_failure_keeps_zombie (s : kstate) (me : nat) (p : proc)
    (z : nat) (c : proc) (addr : Z) (env : list envstep) :
  cpu_proc s = Some me -> procs s !! me = Some p -> wait_lock s = Free ->
  locks_free s -> first_zombie s me z c -> addr <> 0 ->
  (copyout_int (pagetable p) addr (xstate c) (ext s)).1 < 0 ->
  let x := (copyout_int (pagetable p) addr (xstate c) (ext s)).2 in
  wait addr env s = Ret (-1) (set_ext x s) /\
  procs (set_ext x s) = procs s /\
  procs (set_ext x s) !! z = Some c /\ state c = ZOMBIE /\
  (forall env',
     wait 0 env' (set_ext x s)
     = Ret (pid c) (set_ext (freed_ext c x) (setp z (freed c) s))).
Proof.
  intros Hc Hp Hw LF FZ Hne Hr x. pose proof FZ as (Hz & Hpar & Hst & _).
  split; [|split; [reflexivity|split; [exact Hz|split; [exact Hst|]]]].
  - rewrite (wait_zombie s me p z c addr env) by done.
    destruct (Z.eqb_spec addr 0); [done|]. cbn zeta.
    destruct (Z.ltb_spec (copyout_int (pagetable p) addr (xstate c) (ext s)).1 0);
      [reflexivity|lia].
  - intros env'.
    rewrite (wait_zombie (set_ext x s) me p z c 0 env'); try done.
Qed.

(** ** wakeup *)

Lemma wake_lock me ch j q : lock (wake me ch j q) = lock q.
Proof. unfold wake. repeat case_bool_decide; simpl; try reflexivity. Qed.

Lemma wakeup_body_eq s ch j q :
  procs s !! j = Some q -> lock q = Free ->
  wakeup_body ch j s = Ret None (setp j (wake (cpu_proc s) ch j q) s).
Proof.
  intros Hq L. pose proof (lookup_lt_Some _ _ _ Hq) as Hlt.
  unfold wakeup_body, myproc, wake. mstep.
  destruct (bool_decide (Some j = cpu_proc s)).
  - unfold ret. rewrite list_insert_id by done. now rewrite kstate_eta.
  - repeat mstep. cbn [state chan set_lock].
    destruct (bool_decide (state q = SLEEPING) && bool_decide (chan q = ch));
      repeat mstep; unfold ret; cbn [set_lock set_state]; rewrite <- L; now destruct q.
Qed.

Lemma wakeup_scan s ch l1 l2 :
  procs s = l1 ++ l2 -> Forall (fun q => lock q = Free) l2 ->
  scan (wakeup_body ch) (seq (length l1) (length l2)) s
  = Ret None (set_procs (l1 ++ imap (fun j => wake (cpu_proc s) ch (length l1 + j)) l2) s).
Proof.
  revert s l1. induction l2 as [|q l2 IH]; intros s l1 Hs HF.
  - simpl. unfold ret. rewrite <- Hs. now destruct s.
  - cbn [length seq scan]. inversion HF as [|? ? L HF']; subst.
    erewrite bind_Ret.
    2:{ apply wakeup_body_eq with (q := q); [|done].
        rewrite Hs. now apply list_lookup_middle. }
    set (q' := wake (cpu_proc s) ch (length l1) q).
    specialize (IH (setp (length l1) q' s) (l1 ++ [q'])).
    rewrite length_app in IH. cbn [length] in IH.
    replace (length l1 + 1)%nat with (S (length l1)) in IH by lia.
    cbv beta iota. fold q'. rewrite IH; [| |done].
    + norm. do 2 f_equal.
      rewrite <- app_assoc. cbn [app]. f_equal.
      rewrite imap_cons. rewrite Nat.add_0_r. f_equal.
      apply imap_ext. intros j x _. cbn [compose]. f_equal. lia.
    + norm. rewrite Hs. rewrite insert_app_r_alt by lia.
      rewrite Nat.sub_diag. cbn [insert list_insert]. now rewrite <- app_assoc.
Qed.

Lemma wakeup_eq s ch :
  locks_free s ->
  wakeup ch s = Ret tt (set_procs (woken (cpu_proc s) ch (procs s)) s).
Proof.
  intros LF. unfold wakeup, for_each_proc, bind.
  change (seq 0 (length (procs s))) with (seq (length (@nil proc)) (length (procs s))).
  rewrite (wakeup_scan s ch [] (procs s)).
  - reflexivity.
  - reflexivity.
  - apply Forall_forall. intros q Hq. apply list_elem_of_lookup in Hq as [j Hj]. eauto.
Qed.

Lemma woken_lookup me ch l j :
  woken me ch l !! j = wake me ch j <$> l !! j.
Proof. unfold woken. apply list_lookup_imap. Qed.

Lemma woken_length me ch l : length (woken me ch l) = length l.
Proof. unfold woken. apply length_imap. Qed.

(** ** reparent *)

Lemma locks_free_woken s me ch :
  locks_free s -> locks_free (set_procs (woken me ch (procs s)) s).
Proof.
  intros LF j q. cbn [procs set_procs]. rewrite woken_lookup.
  destruct (procs s !! j) as [q0|] eqn:E; [|done].
  intros [= <-]. rewrite wake_lock. eauto.
Qed.

Lemma reparent_scan s i slots :
  locks_free s -> (forall j, j ∈ slots -> (j < length (procs s))%nat) ->
  scan (reparent_body i) slots s
  = Ret None (set_procs (reparent_fold (cpu_proc s) i (initproc s) slots (procs s)) s).
Proof.
  revert s. induction slots as [|j slots IH]; intros s LF Hlen.
  - cbn. unfold ret. now destruct s.
  - destruct (lookup_lt_is_Some_2 (procs s) j) as [pp Hpp]; [apply Hlen; left|].
    cbn [scan reparent_fold]. rewrite Hpp. unfold reparent_body at 1.
    repeat mstep. destruct (bool_decide (parent pp = Some i)).
    + repeat mstep.
      erewrite bind_Ret.
      2:{ apply wakeup_eq. intros j' q'. cbn [procs].
          intros [(_ & <- & _)|(_ & H)]%list_lookup_insert_Some; [apply (LF _ _ Hpp)|eauto]. }
      norm. repeat mstep.
      rewrite IH.
      * reflexivity.
      * apply (locks_free_woken (Build_kstate _ _ _ _ _ _ _ _ _)).
        intros j' q'. cbn [procs].
        intros [(_ & <- & _)|(_ & H)]%list_lookup_insert_Some; [apply (LF _ _ Hpp)|eauto].
      * intros j' Hj'. cbn [procs]. rewrite woken_length, length_insert.
        apply Hlen. now right.
    + repeat mstep. rewrite IH; [reflexivity|done|]. intros j' Hj'. apply Hlen. now right.
Qed.

Lemma reparent_eq s i :
  locks_free s ->
  reparent i s
  = Ret tt (set_procs (reparent_fold (cpu_proc s) i (initproc s)
                         (seq 0 (length (procs s))) (procs s)) s).
Proof.
  intros LF. unfold reparent, for_each_proc, bind.
  rewrite reparent_scan; [reflexivity|done|].
  intros j Hj. apply elem_of_seq in Hj. lia.
Qed.

Lemma same_but_refl q : same_but q q.
Proof. exists (state q), (parent q). now destruct q. Qed.

Lemma same_but_trans q1 q2 q3 : same_but q1 q2 -> same_but q2 q3 -> same_but q1 q3.
Proof. intros (st1 & par1 & ->) (st2 & par2 & ->). now exists st2, par2. Qed.

Lemma same_but_wake me ch j q : same_but q (wake me ch j q).
Proof.
  unfold wake. destruct (bool_decide _); [apply same_but_refl|].
  destruct (_ && _); [|apply same_but_refl].
  exists RUNNABLE, (parent q). now destruct q.
Qed.

Lemma same_but_chan q q' : same_but q q' -> chan q' = chan q.
Proof. now intros (st & par & ->). Qed.

Lemma same_but_lock q q' : same_but q q' -> lock q' = lock q.
Proof. now intros (st & par & ->). Qed.

(** The record in slot [j] after the loop of [reparent]: a child of [i]
    in a visited slot has [initproc] for parent, other parents are as
    before; a state changes only from SLEEPING to RUNNABLE, for a sleeper
    on [initproc] other than the caller, and does so whenever some
    visited slot held a child. *)
Lemma reparent_fold_lookup me i ip slots :
  forall l j q,
    (forall j0, j0 ∈ slots -> (j0 < length l)%nat) ->
    l !! j = Some q ->
    exists q',
      reparent_fold me i ip slots l !! j = Some q' /\
      same_but q q' /\
      parent q' = (if bool_decide (j ∈ slots /\ parent q = Some i) then ip else parent q) /\
      (state q' = state q \/
       (Some j <> me /\ state q = SLEEPING /\ chan q = chan_of ip /\ state q' = RUNNABLE)) /\
      ((exists j0 c, j0 ∈ slots /\ l !! j0 = Some c /\ parent c = Some i) ->
       Some j <> me -> state q = SLEEPING -> chan q = chan_of ip -> state q' = RUNNABLE).
Proof.
  induction slots as [|j0 slots IH]; intros l j q Hlen Hq.
  - exists q. cbn. split; [done|]. split; [apply same_but_refl|].
    rewrite bool_decide_eq_false_2 by (intros [H _]; inversion H).
    split; [done|]. split; [now left|]. intros (j0 & c & H & _). inversion H.
  - destruct (lookup_lt_is_Some_2 l j0) as [pp Hpp]; [apply Hlen; left|].
    cbn [reparent_fold]. rewrite Hpp.
    destruct (bool_decide (parent pp = Some i)) eqn:Ech.
    + apply bool_decide_eq_true in Ech.
      set (l' := woken me (chan_of ip) (<[j0 := set_parent ip pp]> l)).
      set (q0 := if decide (j0 = j) then set_parent ip q else q).
      assert (l' !! j = Some (wake me (chan_of ip) j q0)) as Hq1.
      { unfold l'. rewrite woken_lookup. unfold q0. destruct (decide (j0 = j)) as [->|Hne].
        - rewrite list_lookup_insert_eq by (eapply lookup_lt_Some; eauto).
          rewrite Hpp in Hq. now inversion Hq.
        - rewrite list_lookup_insert_ne by done. now rewrite Hq. }
      destruct (IH l' j (wake me (chan_of ip) j q0)) as (q' & Hq' & Hsb & Hpar & Hst & _);
        [|exact Hq1|].
      { intros j1 Hj1. unfold l'. rewrite woken_length, length_insert.
        apply Hlen. now right. }
      assert (same_but q q0) as Hsb0.
      { unfold q0. destruct (decide (j0 = j)); [|apply same_but_refl].
        exists (state q), ip. now destruct q. }
      assert (state q0 = state q /\ chan q0 = chan q) as [Hst0 Hch0].
      { unfold q0. destruct (decide (j0 = j)); done. }
      assert (parent (wake me (chan_of ip) j q0) = parent q0) as Hpw.
      { unfold wake. repeat case_bool_decide; reflexivity. }
      assert (chan (wake me (chan_of ip) j q0) = chan q0) as Hcw.
      { unfold wake. repeat case_bool_decide; reflexivity. }
      exists q'. split; [exact Hq'|]. split.
      { eapply same_but_trans; [exact Hsb0|].
        eapply same_but_trans; [apply same_but_wake|exact Hsb]. }
      split.
      { rewrite Hpar, Hpw. unfold q0. destruct (decide (j0 = j)) as [->|Hne].
        - rewrite Hpp in Hq. inversion Hq; subst pp. cbn [parent set_parent].
          rewrite (bool_decide_eq_true_2 (j ∈ j :: slots /\ _)) by (split; [left|done]).
          destruct (bool_decide (j ∈ slots /\ ip = Some i)); reflexivity.
        - rewrite (bool_decide_ext (j ∈ j0 :: slots /\ parent q = Some i)
                     (j ∈ slots /\ parent q = Some i)); [reflexivity|].
          rewrite elem_of_cons. split; [intros [[?|?] ?]; [congruence|done]|].
          intros [? ?]. auto. }
      assert (state q' = state q \/
              Some j <> me /\ state q = SLEEPING /\ chan q = chan_of ip /\ state q' = RUNNABLE)
        as Hst'.
      { unfold wake in Hst, Hcw. rewrite Hst0, Hch0 in *.
        destruct (bool_decide (Some j = me)) eqn:E1.
        - destruct Hst as [Hst|(Hx & _)]; [left; congruence|].
          apply bool_decide_eq_true in E1. done.
        - apply bool_decide_eq_false in E1.
          destruct (bool_decide (state q = SLEEPING)) eqn:E2;
            destruct (bool_decide (chan q = chan_of ip)) eqn:E3; cbn [andb] in Hst;
            try apply bool_decide_eq_true in E2; try apply bool_decide_eq_true in E3.
          + right. destruct Hst as [Hst|(_ & Hst & _)]; [|done].
            cbn [state set_state] in Hst. done.
          + destruct Hst as [Hst|(_ & _ & Hc & _)]; [left; congruence|].
            apply bool_decide_eq_false in E3. congruence.
          + destruct Hst as [Hst|(_ & Hs & _)]; [left; congruence|].
            apply bool_decide_eq_false in E2. congruence.
          + destruct Hst as [Hst|(_ & Hs & _)]; [left; congruence|].
            apply bool_decide_eq_false in E2. congruence. }
      split; [exact Hst'|].
      intros _ Hme Hs Hc. destruct Hst' as [Hst'|(_ & _ & _ & Hst')]; [|done].
      unfold wake in Hst. rewrite Hst0, Hch0 in Hst.
      rewrite (bool_decide_eq_false_2 (Some j = me)) in Hst by done.
      rewrite !bool_decide_eq_true_2 in Hst by done. cbn [andb state set_state] in Hst.
      destruct Hst as [Hst|(_ & Hst & _)]; [congruence|done].
    + apply bool_decide_eq_false in Ech.
      destruct (IH l j q) as (q' & Hq' & Hsb & Hpar & Hst & Hw); [|done|].
      { intros j1 Hj1. apply Hlen. now right. }
      exists q'. split; [exact Hq'|]. split; [exact Hsb|]. split.
      { rewrite Hpar.
        rewrite (bool_decide_ext (j ∈ j0 :: slots /\ parent q = Some i)
                   (j ∈ slots /\ parent q = Some i)); [reflexivity|].
        rewrite elem_of_cons.
        split; [|intros [? ?]; auto]. intros [[->|H] Hp]; [|done].
        rewrite Hpp in Hq. inversion Hq; subst. done. }
      split; [exact Hst|].
      intros (j1 & c & Hj1 & Hc & Hpc). apply Hw.
      apply elem_of_cons in Hj1 as [->|Hj1]; [|eauto].
      rewrite Hpp in Hc. inversion Hc; subst. done.
Qed.

(** ** exit *)

Lemma close_files_eq i fds :
  forall s p, procs s !! i = Some p ->
    exists o' x',
      close_files i fds s = Ret tt (set_ext x' (setp i (set_ofile o' p) s)).
Proof.
  induction fds as [|fd fds IH]; intros s p Hp.
  - exists (ofile p), (ext s). cbn. unfold ret. norm.
    replace (set_ofile (ofile p) p) with p by now destruct p.
    rewrite list_insert_id by done. now rewrite kstate_eta.
  - pose proof (lookup_lt_Some _ _ _ Hp) as Hlt.
    destruct (entry (ofile p) fd =? 0) eqn:E.
    + destruct (IH s p Hp) as (o' & x' & H). exists o', x'.
      cbn [close_files]. repeat mstep. rewrite E. repeat mstep. exact H.
    + destruct (IH (Build_kstate (<[i := set_ofile (<[fd := 0]> (ofile p)) p]> (procs s))
                      (nextpid s) (pid_lock s) (wait_lock s) (initproc s) (cpu_proc s)
                      (noff s) (intena s) (fileclose (entry (ofile p) fd) (ext s)))
                  (set_ofile (<[fd := 0]> (ofile p)) p)) as (o' & x' & H).
      { cbn [procs]. now apply list_lookup_insert_eq. }
      exists o', x'. cbn [close_files]. repeat mstep. rewrite E. repeat mstep.
      rewrite H. norm. reflexivity.
Qed.

Lemma reparent_fold_length me i ip slots :
  forall l, length (reparent_fold me i ip slots l) = length l.
Proof.
  induction slots as [|j slots IH]; intros l; [reflexivity|].
  cbn [reparent_fold]. destruct (l !! j) as [pp|]; [|reflexivity].
  destruct (bool_decide _); rewrite IH; [|reflexivity].
  now rewrite woken_length, length_insert.
Qed.

Lemma noret_panic {A} msg : noret (@panic C A msg).
Proof. intros s a s'. discriminate. Qed.

Lemma noret_bind {A B} (m : M A) (k : A -> M B) :
  (forall a, noret (k a)) -> noret (bind m k).
Proof.
  intros Hk s b s'. unfold bind. destruct (m s) as [a s1| | |]; try discriminate.
  apply Hk.
Qed.

Lemma exit_noret status e : noret (exit status e).
Proof.
  unfold exit. apply noret_bind. intros me. apply noret_bind. intros ip.
  destruct (bool_decide (me = ip)); [apply noret_panic|].
  repeat (apply noret_bind; intros ?). apply noret_panic.
Qed.

Lemma exit_init_panics status e s :
  cpu_proc s = initproc s -> exit status e s = Panic "init exiting" s.
Proof.
  intros H. unfold exit, myproc. repeat mstep.
  rewrite bool_decide_eq_true_2 by done. reflexivity.
Qed.

Lemma exit_switches s me p status :
  cpu_proc s = Some me -> procs s !! me = Some p -> initproc s <> Some me ->
  locks_free s -> wait_lock s = Free -> noff s = 0%nat ->
  exists o' x' p1,
    reparent_fold (Some me) me (initproc s) (seq 0 (length (procs s)))
      (<[me := set_cwd 0 (set_ofile o' p)]> (procs s)) !! me = Some p1 /\
    exit status None s
    = Switched (Build_kstate (exit_table s me p status o' p1) (nextpid s) (pid_lock s)
                  Free (initproc s) (Some me) 1%nat (intena s) x').
Proof.
  intros Hc Hp Hi LF Hw Hn. pose proof (lookup_lt_Some _ _ _ Hp) as Hlt.
  destruct (close_files_eq me (seq 0 NOFILE) s p Hp) as (o' & x0 & Hcl).
  set (p0 := set_cwd 0 (set_ofile o' p)).
  set (l0 := <[me := p0]> (procs s)).
  assert (forall j q, l0 !! j = Some q -> lock q = Free) as LF0.
  { intros j q. unfold l0.
    intros [(_ & <- & _)|(_ & H)]%list_lookup_insert_Some; [apply (LF _ _ Hp)|eauto]. }
  set (l1 := reparent_fold (Some me) me (initproc s) (seq 0 (length (procs s))) l0).
  assert (forall j0, j0 ∈ seq 0 (length (procs s)) -> (j0 < length l0)%nat) as Hslots.
  { intros j0 Hj0. apply elem_of_seq in Hj0. unfold l0. rewrite length_insert. lia. }
  destruct (reparent_fold_lookup (Some me) me (initproc s) (seq 0 (length (procs s)))
              l0 me p0 Hslots) as (p1 & Hp1 & Hsb1 & _).
  { unfold l0. now apply list_lookup_insert_eq. }
  fold l1 in Hp1.
  assert (forall j q, l1 !! j = Some q -> lock q = Free) as LF1.
  { intros j q Hq. pose proof (lookup_lt_Some _ _ _ Hq) as Hj.
    unfold l1 in Hj. rewrite reparent_fold_length in Hj.
    destruct (lookup_lt_is_Some_2 l0 j Hj) as [q0 Hq0].
    destruct (reparent_fold_lookup (Some me) me (initproc s) (seq 0 (length (procs s)))
                l0 j q0 Hslots Hq0) as (q' & Hq' & Hsb & _).
    fold l1 in Hq'. rewrite Hq in Hq'. inversion Hq'; subst q'.
    rewrite (same_but_lock _ _ Hsb). eauto. }
  exists o', (end_op (iput (cwd (set_ofile o' p)) (begin_op x0))), p1.
  split; [exact Hp1|].
  unfold exit, myproc. repeat mstep. rewrite Hc.
  rewrite bool_decide_eq_false_2 by congruence.
  unfold deref. repeat mstep.
  erewrite bind_Ret by exact Hcl. norm. repeat mstep.
  erewrite bind_Ret.
  2:{ apply reparent_eq. exact LF0. }
  norm. rewrite length_insert, !Hc. fold p0 l0 l1.
  erewrite bind_Ret by (apply getp_eq; exact Hp1).
  erewrite bind_Ret.
  2:{ apply wakeup_eq. exact LF1. }
  norm.
  assert (woken (Some me) (chan_of (parent p1)) l1 !! me = Some p1) as Hp2.
  { rewrite woken_lookup, Hp1. cbn. unfold wake.
    now rewrite bool_decide_eq_true_2. }
  erewrite bind_Ret.
  2:{ eapply acquire_proc; [exact Hp2|]. rewrite (same_but_lock _ _ Hsb1). apply (LF0 me).
      unfold l0. now apply list_lookup_insert_eq. }
  norm.
  assert (me < length (woken (Some me) (chan_of (parent p1)) l1))%nat as Hlt2
    by (eapply lookup_lt_Some; eauto).
  repeat mstep. rewrite Hn.
  erewrite sched_eq_bind; [| reflexivity | lk | reflexivity | reflexivity | done ].
  unfold swtch_out, bind. reflexivity.
Qed.

Lemma wake_keeps_parent me ch j q : parent (wake me ch j q) = parent q.
Proof. unfold wake. repeat case_bool_decide; reflexivity. Qed.

Lemma wake_state me ch j q :
  state (wake me ch j q)
  = if bool_decide (Some j <> me) && bool_decide (state q = SLEEPING)
       && bool_decide (chan q = ch)
    then RUNNABLE else state q.
Proof. unfold wake. repeat case_bool_decide; try reflexivity; done. Qed.

(** C9: [exit] by the bootstrap process is a panic; [exit] never returns
    to its caller; and for any other process, once it has switched out,
    its record is a ZOMBIE holding the exit status, every record that had
    it for parent has [initproc] for parent, the bootstrap process has
    been woken from [wait] if there was such a child, and so has the
    exiting process's parent. *)
Theorem exit_reparents_wakes_and_never_returns (s : kstate) (me : nat) (p : proc)
    (status : Z) :
  (forall e s0, cpu_proc s0 = initproc s0 -> exit status e s0 = Panic "init exiting" s0) /\
  (forall e, noret (exit status e)) /\
  (cpu_proc s = Some me -> procs s !! me = Some p -> initproc s <> Some me ->
   locks_free s -> wait_lock s = Free -> noff s = 0%nat ->
   exists s', exit status None s = Switched s' /\ exit_post s me p status s').
Proof.
  split; [intros; now apply exit_init_panics|]. split; [intros; apply exit_noret|].
  intros Hc Hp Hi LF Hw Hn. pose proof (lookup_lt_Some _ _ _ Hp) as Hlt.
  destruct (exit_switches s me p status Hc Hp Hi LF Hw Hn) as (o' & x' & p1 & Hp1 & Hex).
  eexists. split; [exact Hex|]. unfold exit_post. cbn [procs initproc]. unfold exit_table.
  set (p0 := set_cwd 0 (set_ofile o' p)) in *.
  set (l0 := <[me := p0]> (procs s)) in *.
  set (slots := seq 0 (length (procs s))) in *.
  set (l1 := reparent_fold (Some me) me (initproc s) slots l0) in *.
  set (ch := chan_of (parent p1)).
  assert (forall j0, j0 ∈ slots -> (j0 < length l0)%nat) as Hslots.
  { intros j0 Hj0. apply elem_of_seq in Hj0. unfold l0. rewrite length_insert. lia. }
  assert (length l1 = length (procs s)) as Hlen1.
  { unfold l1. rewrite reparent_fold_length. unfold l0. apply length_insert. }
  assert (l0 !! me = Some p0) as Hp0 by (unfold l0; now apply list_lookup_insert_eq).
  (* the record in a slot other than the caller's *)
  assert (forall j q, j <> me -> procs s !! j = Some q ->
            exists q1, l1 !! j = Some q1 /\
              <[me := set_state ZOMBIE (set_xstate status (set_lock HeldSelf p1))]>
                (woken (Some me) ch l1) !! j = Some (wake (Some me) ch j q1) /\
              same_but q q1 /\
              parent q1 = (if bool_decide (j ∈ slots /\ parent q = Some me)
                           then initproc s else parent q) /\
              (state q1 = state q \/ state q1 = RUNNABLE) /\
              ((exists j0 c, j0 ∈ slots /\ l0 !! j0 = Some c /\ parent c = Some me) ->
               state q = SLEEPING -> chan q = chan_of (initproc s) ->
               state q1 = RUNNABLE)) as Hother.
  { intros j q Hne Hq.
    destruct (reparent_fold_lookup (Some me) me (initproc s) slots l0 j q Hslots)
      as (q1 & Hq1 & Hsb & Hpar & Hst & Hwk).
    { unfold l0. now rewrite list_lookup_insert_ne. }
    fold l1 in Hq1. exists q1. split; [exact Hq1|]. split.
    { rewrite list_lookup_insert_ne by done. now rewrite woken_lookup, Hq1. }
    split; [exact Hsb|]. split; [exact Hpar|]. split.
    { destruct Hst as [Hst|(_ & _ & _ & Hst)]; [now left|now right]. }
    intros Hch Hs Hcq. apply Hwk; try done. congruence. }
  assert (forall j, (j < length (procs s))%nat -> j ∈ slots) as Hin.
  { intros j Hj. apply elem_of_seq. lia. }
  split; [|split; [|split]].
  - exists (set_state ZOMBIE (set_xstate status (set_lock HeldSelf p1))).
    split; [|split; reflexivity].
    apply list_lookup_insert_eq. now rewrite woken_length, Hlen1.
  - intros j q Hq Hpar. destruct (decide (j = me)) as [->|Hne].
    + eexists. split.
      * apply list_lookup_insert_eq. now rewrite woken_length, Hlen1.
      * cbn [parent set_state set_xstate set_lock].
        destruct (reparent_fold_lookup (Some me) me (initproc s) slots l0 me p0 Hslots Hp0)
          as (q1 & Hq1 & _ & Hpar1 & _).
        fold l1 in Hq1. rewrite Hp1 in Hq1. inversion Hq1; subst q1.
        rewrite Hpar1. rewrite bool_decide_eq_true_2; [reflexivity|].
        split; [now apply Hin|]. rewrite Hp in Hq. now inversion Hq; subst.
    + destruct (Hother j q Hne Hq) as (q1 & _ & Hfin & _ & Hpar1 & _).
      eexists. split; [exact Hfin|]. rewrite wake_keeps_parent, Hpar1.
      rewrite bool_decide_eq_true_2; [reflexivity|].
      split; [|done]. apply Hin. eapply lookup_lt_Some; eauto.
  - intros (jc & c & Hjc & Hpc) i0 q0 Hi0 Hq0 Hs0 Hc0.
    assert (i0 <> me) as Hne by congruence.
    destruct (Hother i0 q0 Hne Hq0) as (q1 & _ & Hfin & _ & _ & _ & Hwk).
    eexists. split; [exact Hfin|]. rewrite wake_state.
    rewrite Hwk; [now destruct (_ && _)| |done|now rewrite Hi0].
    destruct (decide (jc = me)) as [->|Hnc].
    + exists me, p0. split; [now apply Hin|]. split; [done|].
      rewrite Hp in Hjc. now inversion Hjc; subst.
    + exists jc, c. split; [apply Hin; eapply lookup_lt_Some; eauto|].
      split; [|done]. unfold l0. now rewrite list_lookup_insert_ne.
  - intros par qp Hpp Hne Hqp Hsp Hcp.
    destruct (Hother par qp Hne Hqp) as (q1 & _ & Hfin & Hsb & _ & Hst & _).
    eexists. split; [exact Hfin|]. rewrite wake_state.
    assert (ch = ProcPtr par) as ->.
    { unfold ch.
      destruct (reparent_fold_lookup (Some me) me (initproc s) slots l0 me p0 Hslots Hp0)
        as (q2 & Hq2 & _ & Hpar2 & _).
      fold l1 in Hq2. rewrite Hp1 in Hq2. inversion Hq2; subst q2.
      rewrite Hpar2. rewrite bool_decide_eq_false_2.
      - cbn [parent p0 set_cwd set_ofile]. now rewrite Hpp.
      - intros [_ H]. cbn [parent p0 set_cwd set_ofile] in H. congruence. }
    rewrite (same_but_chan _ _ Hsb), Hcp.
    destruct Hst as [Hst|Hst]; rewrite Hst.
    + rewrite Hsp. rewrite !bool_decide_eq_true_2 by congruence. reflexivity.
    + now destruct (_ && _).
Qed.

(** ** allocproc *)

Lemma scan_first {A} (body : nat -> M (option A)) s i n v s' :
  (i < n)%nat -> (forall j, (j < i)%nat -> body j s = Ret None s) ->
  body i s = Ret (Some v) s' ->
  scan body (seq 0 n) s = Ret (Some v) s'.
Proof.
  intros Hlt Hskip Hhit. rewrite (seq_split_at i) by done. rewrite scan_app.
  rewrite scan_skip.
  - cbn [scan]. erewrite bind_Ret by exact Hhit. reflexivity.
  - intros j Hj. apply elem_of_seq in Hj. apply Hskip. lia.
Qed.

Lemma allocproc_body_skip s i q :
  procs s !! i = Some q -> lock q = Free -> state q <> UNUSED ->
  allocproc_body i s = Ret None s.
Proof.
  intros Hq L Hs. pose proof (lookup_lt_Some _ _ _ Hq) as Hlt.
  unfold allocproc_body. repeat mstep. cbn [state set_lock].
  rewrite bool_decide_eq_false_2 by done. repeat mstep. unfold ret.
  rewrite (set_lock_free_id q L), list_insert_id by done. now rewrite kstate_eta.
Qed.

Lemma allocproc_body_hit s i q :
  procs s !! i = Some q -> lock q = Free -> state q = UNUSED ->
  allocproc_body i s
  = Ret (Some i) (set_noff (S (noff s)) (setp i (set_lock HeldSelf q) s)).
Proof.
  intros Hq L Hs. pose proof (lookup_lt_Some _ _ _ Hq) as Hlt.
  unfold allocproc_body. repeat mstep. cbn [state set_lock].
  rewrite bool_decide_eq_true_2 by done. reflexivity.
Qed.

Lemma allocpid_eq s :
  pid_lock s = Free ->
  allocpid s = Ret (nextpid s) (set_nextpid (s32 (nextpid s + 1)) s).
Proof.
  intros H. unfold allocpid. repeat mstep. unfold ret. norm. rewrite <- H.
  reflexivity.
Qed.

Lemma proc_pagetable_eq i s :
  exists pt x', proc_pagetable i s = Ret pt (set_ext x' s).
Proof.
  unfold proc_pagetable.
  destruct ((uvmcreate (ext s)).1 =? 0) eqn:E1.
  { eexists _, _. mstep. rewrite E1. unfold ret. norm. reflexivity. }
  destruct ((mappages (uvmcreate (ext s)).1 TRAMPOLINE (uvmcreate (ext s)).2).1 <? 0)
    eqn:E2.
  { eexists _, _. mstep. rewrite E1. mstep. rewrite E2. repeat mstep.
    unfold ret. reflexivity. }
  destruct ((mappages (uvmcreate (ext s)).1 TRAPFRAME
               (mappages (uvmcreate (ext s)).1 TRAMPOLINE (uvmcreate (ext s)).2).2).1 <? 0)
    eqn:E3.
  { eexists _, _. mstep. rewrite E1. mstep. rewrite E2. mstep. rewrite E3.
    repeat mstep. unfold ret. reflexivity. }
  eexists _, _. mstep. rewrite E1. mstep. rewrite E2. mstep. rewrite E3.
  unfold ret. reflexivity.
Qed.

Lemma unused_or_first (l : list proc) :
  (forall j q, l !! j = Some q -> state q <> UNUSED) \/
  (exists i np, l !! i = Some np /\ state np = UNUSED /\
     forall j q, (j < i)%nat -> l !! j = Some q -> state q <> UNUSED).
Proof.
  destruct (list_find (fun q => state q = UNUSED) l) as [[i np]|] eqn:E.
  - right. apply list_find_Some in E as (H1 & H2 & H3). exists i, np. eauto.
  - left. apply list_find_None in E. rewrite Forall_forall in E.
    intros j q Hq. apply E. apply list_elem_of_lookup. eauto.
Qed.

Lemma freed_set_pagetable_trapframe pt tf0 r :
  freed (set_pagetable pt (set_trapframe tf0 r)) = freed r.
Proof. now destruct r. Qed.

Lemma freed_set_trapframe tf0 r : freed (set_trapframe tf0 r) = freed r.
Proof. now destruct r. Qed.

(** [allocproc] returns: null with the table untouched when no slot is
    unused; null with the first unused slot claimed and rolled back when
    an allocation fails; or the first unused slot, set up and with its
    lock held. *)
Lemma allocproc_returns s (Q : option nat -> kstate -> Prop) :
  locks_free s -> pid_lock s = Free ->
  ((forall j q, procs s !! j = Some q -> state q <> UNUSED) -> Q None s) ->
  (forall ni np x', first_unused s ni np ->
     Q None (Build_kstate
               (<[ni := set_lock Free (freed (alloc_init (nextpid s) np))]> (procs s))
               (s32 (nextpid s + 1)) Free (wait_lock s) (initproc s) (cpu_proc s) (noff s)
               (intena s) x')) ->
  (forall ni np x' tf0 pt, first_unused s ni np -> pt <> 0 ->
     Q (Some ni) (Build_kstate
                    (<[ni := alloc_done (nextpid s) tf0 pt np]> (procs s))
                    (s32 (nextpid s + 1)) Free (wait_lock s) (initproc s) (cpu_proc s)
                    (S (noff s)) (intena s) x')) ->
  returns (allocproc s) Q.
Proof.
  intros LF Hpl Hnone Hfail Hok.
  destruct (unused_or_first (procs s)) as [Hno|(ni & np & Hnp & Hun & Hfirst)].
  - unfold allocproc. erewrite bind_Ret.
    2:{ unfold for_each_proc. apply scan_skip. intros j Hj. apply elem_of_seq in Hj.
        destruct (lookup_lt_is_Some_2 (procs s) j) as [q Hq]; [lia|].
        eapply allocproc_body_skip; eauto. }
    apply returns_Ret. auto.
  - assert (first_unused s ni np) as FU by (split; [|split]; assumption).
    pose proof (lookup_lt_Some _ _ _ Hnp) as Hlt.
    pose proof (LF _ _ Hnp) as L.
    unfold allocproc. erewrite bind_Ret.
    2:{ unfold for_each_proc. eapply scan_first; [exact Hlt| |].
        - intros j Hj. destruct (lookup_lt_is_Some_2 (procs s) j) as [q Hq]; [lia|].
          eapply allocproc_body_skip; eauto.
        - apply allocproc_body_hit; eauto. }
    norm. erewrite bind_Ret by (apply allocpid_eq; exact Hpl). norm.
    repeat mstep.
    destruct ((kalloc (ext s)).1) as [tf0|] eqn:Ek.
    + rewrite bool_decide_eq_false_2 by done. cbv iota.
      match goal with
      | |- returns (bind (proc_pagetable ?i) _ ?S) _ =>
          destruct (proc_pagetable_eq i S) as (pt & x2 & Hpt)
      end.
      erewrite bind_Ret by exact Hpt. norm. repeat mstep.
      destruct (pt =? 0) eqn:Ept; cbv iota.
      * repeat xstep. apply returns_Ret. rewrite Hpl.
        rewrite freed_set_pagetable_trapframe.
        exact (Hfail ni np _ FU).
      * apply Z.eqb_neq in Ept. repeat mstep. apply returns_Ret. rewrite Hpl.
        cbn [kstack context set_pagetable set_trapframe set_signal_handling set_stopped
               set_pending_signals set_signals_mask set_signal_handlers set_state set_pid
               set_lock].
        exact (Hok ni np _ tf0 pt FU Ept).
    + rewrite bool_decide_eq_true_2 by done. cbv iota.
      repeat xstep. apply returns_Ret. rewrite Hpl.
      rewrite freed_set_trapframe.
      exact (Hfail ni np _ FU).
Qed.

Lemma s32_small x : - 2 ^ 31 <= x < 2 ^ 31 -> s32 x = x.
Proof. intros H. unfold s32. rewrite Z.mod_small by lia. lia. Qed.

Lemma proc_pagetable_cases i s :
  proc_pagetable i s
  = let c := uvmcreate (ext s) in
    if c.1 =? 0 then Ret 0 (set_ext c.2 s) else
    let m1 := mappages c.1 TRAMPOLINE c.2 in
    if m1.1 <? 0 then Ret 0 (set_ext (uvmfree c.1 0 m1.2) s) else
    let m2 := mappages c.1 TRAPFRAME m1.2 in
    if m2.1 <? 0
    then Ret 0 (set_ext (uvmfree c.1 0 (uvmunmap c.1 TRAMPOLINE m2.2)) s)
    else Ret c.1 (set_ext m2.2 s).
Proof.
  unfold proc_pagetable. cbv zeta.
  destruct ((uvmcreate (ext s)).1 =? 0) eqn:E1.
  { mstep. rewrite E1. unfold ret. norm. reflexivity. }
  destruct ((mappages (uvmcreate (ext s)).1 TRAMPOLINE (uvmcreate (ext s)).2).1 <? 0)
    eqn:E2.
  { mstep. rewrite E1. mstep. rewrite E2. repeat mstep. unfold ret. reflexivity. }
  destruct ((mappages (uvmcreate (ext s)).1 TRAPFRAME
               (mappages (uvmcreate (ext s)).1 TRAMPOLINE (uvmcreate (ext s)).2).2).1 <? 0)
    eqn:E3.
  { mstep. rewrite E1. mstep. rewrite E2. mstep. rewrite E3.
    repeat mstep. unfold ret. reflexivity. }
  mstep. rewrite E1. mstep. rewrite E2. mstep. rewrite E3.
  unfold ret. reflexivity.
Qed.

Lemma alloc_pages_Some x tf0 pt x4 :
  alloc_pages x = Some (tf0, pt, x4) -> pt <> 0.
Proof.
  unfold alloc_pages. cbv zeta. destruct ((kalloc x).1); [|discriminate].
  destruct (Z.eqb_spec (uvmcreate (kalloc x).2).1 0) as [|Hne]; [discriminate|].
  destruct (_ <? 0); [discriminate|]. destruct (_ <? 0); [discriminate|].
  now intros [= _ <- _].
Qed.

(** [allocproc] with an unused slot: what the collaborators decide. *)
Lemma allocproc_cases s ni np :
  locks_free s -> pid_lock s = Free -> first_unused s ni np ->
  match alloc_pages (ext s) with
  | Some (tf0, pt, x4) =>
      allocproc s
      = Ret (Some ni)
          (Build_kstate (<[ni := alloc_done (nextpid s) tf0 pt np]> (procs s))
             (s32 (nextpid s + 1)) Free (wait_lock s) (initproc s) (cpu_proc s)
             (S (noff s)) (intena s) x4)
  | None =>
      exists x',
        allocproc s
        = Ret None
            (Build_kstate
               (<[ni := set_lock Free (freed (alloc_init (nextpid s) np))]> (procs s))
               (s32 (nextpid s + 1)) Free (wait_lock s) (initproc s) (cpu_proc s)
               (noff s) (intena s) x')
  end.
Proof.
  intros LF Hpl FU. pose proof FU as (Hnp & Hun & Hfirst).
  pose proof (lookup_lt_Some _ _ _ Hnp) as Hlt.
  pose proof (LF _ _ Hnp) as L.
  assert (forall B (k : option nat -> M B),
            bind (for_each_proc allocproc_body) k s
            = k (Some ni) (set_noff (S (noff s)) (setp ni (set_lock HeldSelf np) s)))
    as Hscan.
  { intros B k. erewrite bind_Ret; [reflexivity|].
    unfold for_each_proc. eapply scan_first; [exact Hlt| |].
    - intros j Hj. destruct (lookup_lt_is_Some_2 (procs s) j) as [q Hq]; [lia|].
      eapply allocproc_body_skip; eauto.
    - apply allocproc_body_hit; eauto. }
  unfold alloc_pages. cbv zeta.
  destruct ((kalloc (ext s)).1) as [tf0|] eqn:Ek.
  - set (c := uvmcreate (kalloc (ext s)).2).
    set (m1 := mappages c.1 TRAMPOLINE c.2).
    set (m2 := mappages c.1 TRAPFRAME m1.2).
    assert (forall S B (k : Z -> M B), ext S = (kalloc (ext s)).2 ->
              bind (proc_pagetable ni) k S
              = if c.1 =? 0 then k 0 (set_ext c.2 S) else
                if m1.1 <? 0 then k 0 (set_ext (uvmfree c.1 0 m1.2) S) else
                if m2.1 <? 0
                then k 0 (set_ext (uvmfree c.1 0 (uvmunmap c.1 TRAMPOLINE m2.2)) S)
                else k c.1 (set_ext m2.2 S)) as Hpt.
    { intros S B k HS. unfold bind at 1. rewrite proc_pagetable_cases. cbv zeta.
      rewrite HS. fold c. fold m1. fold m2.
      destruct (c.1 =? 0); [reflexivity|]. destruct (m1.1 <? 0); [reflexivity|].
      destruct (m2.1 <? 0); reflexivity. }
    destruct (c.1 =? 0) eqn:E1.
    { eexists. unfold allocproc. rewrite Hscan.
      norm. erewrite bind_Ret by (apply allocpid_eq; exact Hpl). norm.
      repeat mstep. rewrite Ek. rewrite bool_decide_eq_false_2 by done. cbv iota.
      rewrite Hpt by reflexivity. rewrite ?E1. cbv iota. norm. repeat mstep.
      cbn [Z.eqb]. cbv iota. repeat xstep.
      unfold ret. rewrite Hpl. rewrite freed_set_pagetable_trapframe. reflexivity. }
    destruct (m1.1 <? 0) eqn:E2.
    { eexists. unfold allocproc. rewrite Hscan.
      norm. erewrite bind_Ret by (apply allocpid_eq; exact Hpl). norm.
      repeat mstep. rewrite Ek. rewrite bool_decide_eq_false_2 by done. cbv iota.
      rewrite Hpt by reflexivity. rewrite ?E1, ?E2. cbv iota. norm. repeat mstep.
      cbn [Z.eqb]. cbv iota. repeat xstep.
      unfold ret. rewrite Hpl. rewrite freed_set_pagetable_trapframe. reflexivity. }
    destruct (m2.1 <? 0) eqn:E3.
    { eexists. unfold allocproc. rewrite Hscan.
      norm. erewrite bind_Ret by (apply allocpid_eq; exact Hpl). norm.
      repeat mstep. rewrite Ek. rewrite bool_decide_eq_false_2 by done. cbv iota.
      rewrite Hpt by reflexivity. rewrite ?E1, ?E2, ?E3. cbv iota. norm. repeat mstep.
      cbn [Z.eqb]. cbv iota. repeat xstep.
      unfold ret. rewrite Hpl. rewrite freed_set_pagetable_trapframe. reflexivity. }
    unfold allocproc. rewrite Hscan.
    norm. erewrite bind_Ret by (apply allocpid_eq; exact Hpl). norm.
    repeat mstep. rewrite Ek. rewrite bool_decide_eq_false_2 by done. cbv iota.
    rewrite Hpt by reflexivity. rewrite ?E1, ?E2, ?E3. cbv iota. norm. repeat mstep.
    rewrite ?E1. cbv iota. repeat mstep. unfold ret. rewrite Hpl.
    cbn [kstack context set_pagetable set_trapframe set_signal_handling set_stopped
           set_pending_signals set_signals_mask set_signal_handlers set_state set_pid
           set_lock].
    reflexivity.
  - eexists. unfold allocproc. rewrite Hscan.
    norm. erewrite bind_Ret by (apply allocpid_eq; exact Hpl). norm.
    repeat mstep. rewrite Ek.
    rewrite bool_decide_eq_true_2 by done. cbv iota.
    repeat xstep. unfold ret. rewrite Hpl.
    rewrite freed_set_trapframe. reflexivity.
Qed.

(** ** fork *)

Lemma copy_handlers_eq me ni js :
  forall s p np, me <> ni -> procs s !! me = Some p -> procs s !! ni = Some np ->
    copy_handlers me ni js s
    = Ret tt (setp ni (set_signal_handlers
                         (copied_handlers (signal_handlers p) (signal_handlers np) js) np) s).
Proof.
  induction js as [|j js IH]; intros s p np Hne Hp Hnp.
  - cbn. unfold ret, setp.
    replace (set_signal_handlers (signal_handlers np) np) with np by now destruct np.
    rewrite list_insert_id by done. now destruct s.
  - pose proof (lookup_lt_Some _ _ _ Hnp) as Hlt.
    cbn [copy_handlers]. repeat mstep.
    erewrite IH; [| exact Hne | lk | lk ].
    norm. reflexivity.
Qed.

Lemma copied_handlers_prefix (hp hn : list Z) (k : nat) :
  (k <= length hp)%nat -> length hn = length hp ->
  copied_handlers hp hn (seq 0 k) = take k hp ++ drop k hn.
Proof.
  intros Hk Hlen. induction k as [|k IH].
  - reflexivity.
  - rewrite seq_S. unfold copied_handlers in *. rewrite foldl_app. cbn [foldl].
    rewrite IH by lia. cbn [Nat.add].
    destruct (lookup_lt_is_Some_2 hp k) as [x Hx]; [lia|].
    destruct (lookup_lt_is_Some_2 hn k) as [y Hy]; [lia|].
    rewrite insert_app_r_alt by (rewrite length_take; lia).
    rewrite length_take, Nat.min_l by lia. rewrite Nat.sub_diag.
    rewrite (drop_S hn y k Hy). cbn [insert list_insert].
    rewrite (take_S_r hp k x Hx). rewrite <- app_assoc. cbn [app].
    unfold entry. now rewrite (nth_lookup_Some hp k 0 x Hx).
Qed.

Lemma copied_handlers_full (hp hn : list Z) :
  length hn = length hp -> copied_handlers hp hn (seq 0 (length hp)) = hp.
Proof.
  intros Hlen. rewrite copied_handlers_prefix by (done || lia).
  rewrite firstn_all. rewrite <- Hlen, drop_all. apply app_nil_r.
Qed.

Lemma dup_files_eq me ni fds :
  forall s p np, me <> ni -> procs s !! me = Some p -> procs s !! ni = Some np ->
    exists o' x',
      dup_files me ni fds s = Ret tt (set_ext x' (setp ni (set_ofile o' np) s)).
Proof.
  induction fds as [|fd fds IH]; intros s p np Hne Hp Hnp.
  - exists (ofile np), (ext s). cbn. unfold ret. norm.
    replace (set_ofile (ofile np) np) with np by now destruct np.
    rewrite list_insert_id by done. now rewrite kstate_eta.
  - pose proof (lookup_lt_Some _ _ _ Hnp) as Hlt.
    destruct (entry (ofile p) fd =? 0) eqn:E.
    + destruct (IH s p np Hne Hp Hnp) as (o' & x' & H). exists o', x'.
      cbn [dup_files]. repeat mstep. rewrite E. repeat mstep. exact H.
    + set (f := filedup (entry (ofile p) fd) (ext s)).
      destruct (IH (Build_kstate (<[ni := set_ofile (<[fd := f.1]> (ofile np)) np]> (procs s))
                      (nextpid s) (pid_lock s) (wait_lock s) (initproc s) (cpu_proc s)
                      (noff s) (intena s) f.2)
                  p (set_ofile (<[fd := f.1]> (ofile np)) np) Hne) as (o' & x' & H).
      { cbn [procs]. now rewrite list_lookup_insert_ne. }
      { cbn [procs]. now apply list_lookup_insert_eq. }
      exists o', x'. cbn [dup_files]. repeat mstep. rewrite E. repeat mstep.
      fold f. rewrite H. norm. reflexivity.
Qed.


Lemma rolled_back_refl s : locks_free s -> rolled_back s s.
Proof. intros LF j q Hq. exists q. split; [done|]. repeat split; eauto. Qed.

Lemma rolled_back_freed s s' ni np q0 :
  locks_free s -> first_unused s ni np ->
  procs s' = <[ni := set_lock Free (freed q0)]> (procs s) ->
  rolled_back s s'.
Proof.
  intros LF (Hnp & Hun & _) E j q Hq. rewrite E.
  destruct (decide (ni = j)) as [->|Hne].
  - rewrite list_lookup_insert_eq by (eapply lookup_lt_Some; eauto).
    eexists. split; [reflexivity|]. rewrite Hnp in Hq. inversion Hq; subst q.
    split; [now rewrite Hun|]. split; [reflexivity|]. split; [done|].
    right. repeat split.
  - rewrite list_lookup_insert_ne by done. exists q.
    split; [done|]. repeat split; eauto.
Qed.

(** [fork] with an unused slot: what the collaborators decide. *)
Lemma fork_cases s me p tf ni np :
  cpu_proc s = Some me -> procs s !! me = Some p -> state p <> UNUSED ->
  trapframe p = Some tf -> length (signal_handlers p) = 32%nat ->
  locks_free s -> pid_lock s = Free -> wait_lock s = Free ->
  first_unused s ni np ->
  match alloc_pages (ext s) with
  | None =>
      returns (fork s) (fun v s' =>
        v = -1 /\ procs s' !! me = Some p /\ rolled_back s s')
  | Some (tf0, pt, x4) =>
      let rc := uvmcopy (pagetable p) pt (sz p) x4 in
      if rc.1 <? 0 then
        returns (fork s) (fun v s' =>
          v = -1 /\ procs s' !! me = Some p /\ rolled_back s s' /\
          ext s'
          = uvmfree pt (sz np)
              (uvmunmap pt TRAPFRAME (uvmunmap pt TRAMPOLINE (kfree rc.2))))
      else
        returns (fork s) (fun v s' =>
          v = nextpid s /\ procs s' !! me = Some p /\
          exists c, fork_child s me p tf ni c s')
  end.
Proof.
  intros Hc Hp Hsp Htf Hlen LF Hpl Hwl FU.
  pose proof FU as (Hnp & Hun & _). pose proof (lookup_lt_Some _ _ _ Hnp) as Hlt.
  assert (ni <> me) as Hne.
  { intros ->. rewrite Hp in Hnp. inversion Hnp; subst. done. }
  pose proof (allocproc_cases s ni np LF Hpl FU) as Ha.
  destruct (alloc_pages (ext s)) as [[[tf0 pt] x4]|] eqn:Ea.
  - pose proof (alloc_pages_Some _ _ _ _ Ea) as Hpt. cbv zeta.
    destruct ((uvmcopy (pagetable p) pt (sz p) x4).1 <? 0) eqn:Erc.
    + unfold fork, myproc. mstep. erewrite bind_Ret by exact Ha.
      rewrite Hc. unfold deref. repeat mstep.
      change (pagetable (alloc_done (nextpid s) tf0 pt np)) with pt.
      rewrite Erc. cbv iota.
      repeat xstep. apply returns_Ret.
      split; [reflexivity|].
      split; [cbn [procs]; now rewrite list_lookup_insert_ne|].
      split; [eapply rolled_back_freed; [exact LF|exact FU|reflexivity]|].
      cbn [ext]. unfold freed_ext.
      cbn [trapframe pagetable sz alloc_done alloc_init set_context set_pagetable
             set_trapframe set_signal_handling set_stopped set_pending_signals
             set_signals_mask set_signal_handlers set_state set_pid set_lock].
      rewrite !bool_decide_eq_true_2 by done. reflexivity.
    + unfold fork, myproc. mstep. erewrite bind_Ret by exact Ha.
      rewrite Hc. unfold deref. repeat mstep.
      change (pagetable (alloc_done (nextpid s) tf0 pt np)) with pt.
      rewrite Erc. cbv iota.
      repeat mstep.
      erewrite bind_Ret.
      2:{ apply copy_handlers_eq; [congruence | lk | lk ]. }
      norm. cbn [signal_handlers set_sz alloc_done alloc_init set_context set_pagetable
                   set_trapframe set_signal_handling set_stopped set_pending_signals
                   set_signals_mask set_signal_handlers].
      rewrite <- Hlen at 2. rewrite copied_handlers_full by (rewrite length_replicate; done).
      repeat mstep. rewrite Htf.
      cbn [trapframe set_signal_handlers set_signals_mask set_pending_signals set_sz].
      change (trapframe (alloc_done (nextpid s) tf0 pt np)) with (Some tf0).
      cbv iota. repeat mstep.
      match goal with
      | |- returns (bind (dup_files _ _ _) _ ?S) _ =>
          destruct (dup_files_eq me ni (seq 0 NOFILE) S p
                      (set_trapframe (Some (set_a0 0 tf))
                         (set_trapframe (Some tf)
                            (set_pending_signals 0
                               (set_signals_mask (signals_mask p)
                                  (set_signal_handlers (signal_handlers p)
                                     (set_sz (sz p) (alloc_done (nextpid s) tf0 pt np)))))))
                      )
            as (o' & x' & Hdup); [congruence | lk | lk |]
      end.
      erewrite bind_Ret by exact Hdup. norm.
      repeat mstep. apply returns_Ret.
      split; [reflexivity|].
      split; [cbn [procs]; now rewrite list_lookup_insert_ne|].
      eexists. split; [cbn [procs]; apply list_lookup_insert_eq; exact Hlt|].
      repeat split; try reflexivity.
      intros j Hj. cbn [procs]. now rewrite list_lookup_insert_ne.
  - destruct Ha as (x' & Ha).
    unfold fork, myproc. mstep. erewrite bind_Ret by exact Ha.
    apply returns_Ret. split; [reflexivity|].
    split; [cbn [procs]; now rewrite list_lookup_insert_ne|].
    eapply rolled_back_freed; [exact LF|exact FU|reflexivity].
Qed.

(** C7: [fork] returns, and what it returns is decided by the table and
    the collaborators.  With no unused slot it returns -1 and the kernel
    state is as it was.  With an unused slot, it returns -1 when
    [allocproc] cannot get its pages or [uvmcopy] fails, and the table is
    rolled back: the slot claimed for the child is UNUSED again, without
    pid, trap frame, page table, size or parent, and every record in use,
    the parent's among them, is as it was; after a failed [uvmcopy] the
    trap frame page has been given back and the page table unmapped and
    freed.  Otherwise it returns the pid of the child, the value
    [nextpid] held; the child's record has the parent's handler table and
    mask, no pending signal, the parent's trap frame but for [a0], which
    is 0, state RUNNABLE and the caller for parent, while the parent's
    record is as it was. *)
Theorem fork_copies_or_rolls_back (s : kstate) (me : nat) (p : proc) (tf : trapframe_t) :
  cpu_proc s = Some me -> procs s !! me = Some p -> state p <> UNUSED ->
  trapframe p = Some tf -> length (signal_handlers p) = 32%nat ->
  locks_free s -> pid_lock s = Free -> wait_lock s = Free ->
  returns (fork s) (fork_post s me p tf) /\
  ((forall j q, procs s !! j = Some q -> state q <> UNUSED) -> fork s = Ret (-1) s) /\
  (forall ni np, first_unused s ni np ->
     match alloc_pages (ext s) with
     | None => returns (fork s) (fun v s' => v = -1 /\ rolled_back s s')
     | Some (tf0, pt, x4) =>
         let rc := uvmcopy (pagetable p) pt (sz p) x4 in
         if rc.1 <? 0 then
           returns (fork s) (fun v s' =>
             v = -1 /\ rolled_back s s' /\
             ext s'
             = uvmfree pt (sz np)
                 (uvmunmap pt TRAPFRAME (uvmunmap pt TRAMPOLINE (kfree rc.2))))
         else
           returns (fork s) (fun v s' =>
             v = nextpid s /\ exists c, fork_child s me p tf ni c s')
     end).
Proof.
  intros Hc Hp Hsp Htf Hlen LF Hpl Hwl.
  assert ((forall j q, procs s !! j = Some q -> state q <> UNUSED) ->
          fork s = Ret (-1) s) as Hfull.
  { intros Hno.
    assert (allocproc s = Ret None s) as Ha.
    { unfold allocproc. erewrite bind_Ret.
      2:{ unfold for_each_proc. apply scan_skip. intros j Hj. apply elem_of_seq in Hj.
          destruct (lookup_lt_is_Some_2 (procs s) j) as [q Hq]; [lia|].
          eapply allocproc_body_skip; eauto. }
      reflexivity. }
    unfold fork, myproc. mstep. erewrite bind_Ret by exact Ha. reflexivity. }
  split; [|split; [exact Hfull|]].
  - destruct (unused_or_first (procs s)) as [Hno|(ni & np & Hnp & Hun & Hfirst)].
    + rewrite (Hfull Hno). apply returns_Ret. split; [exact Hp|].
      left. split; [reflexivity|]. now apply rolled_back_refl.
    + assert (first_unused s ni np) as FU by (split; [|split]; assumption).
      pose proof (fork_cases s me p tf ni np Hc Hp Hsp Htf Hlen LF Hpl Hwl FU) as H.
      destruct (alloc_pages (ext s)) as [[[tf0 pt] x4]|].
      * cbv zeta in H. destruct (_ <? 0).
        -- eapply returns_weaken; [exact H|]. intros v s' (-> & Hme & Hrb & _).
           split; [exact Hme|]. left. split; [reflexivity|exact Hrb].
        -- eapply returns_weaken; [exact H|]. intros v s' (-> & Hme & c & Hch).
           split; [exact Hme|]. right. exists ni, np, c.
           split; [exact FU|]. split; [|exact Hch].
           destruct Hch as (_ & Hpid & _). now rewrite Hpid.
      * eapply returns_weaken; [exact H|]. intros v s' (-> & Hme & Hrb).
        split; [exact Hme|]. left. split; [reflexivity|exact Hrb].
  - intros ni np FU.
    pose proof (fork_cases s me p tf ni np Hc Hp Hsp Htf Hlen LF Hpl Hwl FU) as H.
    destruct (alloc_pages (ext s)) as [[[tf0 pt] x4]|].
    + cbv zeta in H |- *. destruct (_ <? 0).
      * eapply returns_weaken; [exact H|]. intros v s' (-> & _ & Hrb & Hx). auto.
      * eapply returns_weaken; [exact H|]. intros v s' (-> & _ & Hch). auto.
    + eapply returns_weaken; [exact H|]. intros v s' (-> & _ & Hrb). auto.
Qed.

(** * Further properties of the process table *)

(** ** allocpid, freeproc, allocproc *)


Lemma freed_ext_freed c x : freed_ext (freed c) x = x.
Proof. reflexivity. Qed.

Lemma freed_freed c : freed (freed c) = freed c.
Proof. reflexivity. Qed.

(** X2: [freeproc] leaves the slot UNUSED with pid, parent, size, channel,
    kill mark and exit status cleared and no trap frame or page table; it
    leaves the lock, the signal fields, the open files and the working
    directory of the record as they were.  A second [freeproc] on the slot
    changes nothing: no page is freed twice. *)
Theorem freeproc_twice_is_once (s : kstate) (i : nat) (c : proc) :
  procs s !! i = Some c ->
  exists s1 c1,
    freeproc i s = Ret tt s1 /\ procs s1 !! i = Some c1 /\
    (state c1 = UNUSED /\ pid c1 = 0 /\ parent c1 = None /\ sz c1 = 0 /\
     chan c1 = Null /\ killed c1 = 0 /\ xstate c1 = 0 /\
     trapframe c1 = None /\ pagetable c1 = 0) /\
    (lock c1 = lock c /\ signal_handlers c1 = signal_handlers c /\
     signals_mask c1 = signals_mask c /\ pending_signals c1 = pending_signals c /\
     stopped c1 = stopped c /\ signal_handling c1 = signal_handling c /\
     ofile c1 = ofile c /\ cwd c1 = cwd c) /\
    freeproc i s1 = Ret tt s1.
Proof.
  intros H. pose proof (lookup_lt_Some _ _ _ H) as Hlt.
  exists (set_ext (freed_ext c (ext s)) (setp i (freed c) s)), (freed c).
  split; [now apply freeproc_eq|].
  assert (procs (set_ext (freed_ext c (ext s)) (setp i (freed c) s)) !! i
          = Some (freed c)) as H1 by (cbn; now apply list_lookup_insert_eq).
  split; [exact H1|]. split; [repeat split|]. split; [repeat split|].
  rewrite (freeproc_eq _ i (freed c) H1).
  rewrite freed_ext_freed, freed_freed. norm. reflexivity.
Qed.

(** X3: when no slot of the table is UNUSED, [allocproc] returns null and
    the kernel state is as it was: no pid is used up and every lock it
    took is free again. *)
Theorem allocproc_full_table (s : kstate) :
  locks_free s -> (forall j q, procs s !! j = Some q -> state q <> UNUSED) ->
  allocproc s = Ret None s.
Proof.
  intros LF Hno. unfold allocproc. erewrite bind_Ret.
  2:{ unfold for_each_proc. apply scan_skip. intros j Hj. apply elem_of_seq in Hj.
      destruct (lookup_lt_is_Some_2 (procs s) j) as [q Hq]; [lia|].
      eapply allocproc_body_skip; eauto. }
  reflexivity.
Qed.

Lemma first_unused_unique s i np j nq :
  first_unused s i np -> first_unused s j nq -> i = j /\ np = nq.
Proof.
  intros (H1 & U1 & F1) (H2 & U2 & F2).
  assert (i = j) as ->.
  { destruct (Nat.lt_trichotomy i j) as [Hlt|[->|Hlt]]; [|done|].
    - exfalso. eapply F2; eauto.
    - exfalso. eapply F1; eauto. }
  split; [done|]. congruence.
Qed.

(** X4: [allocproc] takes the first UNUSED slot in table order and always
    returns; the pid counter has moved to the next [int] (by one, below
    [INT_MAX]) and the signal fields of the slot are at their defaults
    whether it succeeds or not.  On success the
    slot is returned locked, USED, with the pid, a trap frame, a page
    table and a context that starts at [forkret] on the top of its kernel
    stack.  On failure the slot is UNUSED again, unlocked, without pid,
    trap frame or page table.  Every other slot is as it was. *)
Theorem allocproc_claims_first_unused (s : kstate) (ni : nat) (np : proc) :
  locks_free s -> pid_lock s = Free -> first_unused s ni np ->
  returns (allocproc s) (fun r s' =>
    nextpid s' = s32 (nextpid s + 1) /\
    (- 2 ^ 31 <= nextpid s < 2 ^ 31 - 1 -> nextpid s' = nextpid s + 1) /\
    pid_lock s' = Free /\
    (forall j, j <> ni -> procs s' !! j = procs s !! j) /\
    exists c, procs s' !! ni = Some c /\
      signal_handlers c = replicate 32 SIG_DFL /\ signals_mask c = 0 /\
      pending_signals c = 0 /\ stopped c = 0 /\ signal_handling c = 0 /\
      match r with
      | Some i =>
          i = ni /\ state c = USED /\ lock c = HeldSelf /\ pid c = nextpid s /\
          trapframe c <> None /\ pagetable c <> 0 /\
          ctx_ra (context c) = forkret /\ ctx_sp (context c) = u64 (kstack np + PGSIZE) /\
          noff s' = S (noff s)
      | None =>
          state c = UNUSED /\ lock c = Free /\ pid c = 0 /\
          trapframe c = None /\ pagetable c = 0 /\ noff s' = noff s
      end).
Proof.
  intros LF Hpl FU. pose proof FU as (Hnp & Hun & _).
  pose proof (lookup_lt_Some _ _ _ Hnp) as Hlt.
  apply allocproc_returns; [exact LF|exact Hpl| | |].
  - intros Hno. exfalso. eapply Hno; eauto.
  - intros ni' np' x' FU'. destruct (first_unused_unique _ _ _ _ _ FU FU') as [<- <-].
    cbn [nextpid pid_lock procs noff].
    split; [reflexivity|]. split; [intros Hb; apply s32_small; lia|].
    split; [reflexivity|].
    split; [intros j Hj; now rewrite list_lookup_insert_ne|].
    eexists. split; [now apply list_lookup_insert_eq|].
    repeat split.
  - intros ni' np' x' tf0 pt FU' Hpt.
    destruct (first_unused_unique _ _ _ _ _ FU FU') as [<- <-].
    cbn [nextpid pid_lock procs noff].
    split; [reflexivity|]. split; [intros Hb; apply s32_small; lia|].
    split; [reflexivity|].
    split; [intros j Hj; now rewrite list_lookup_insert_ne|].
    eexists. split; [now apply list_lookup_insert_eq|].
    repeat split; try reflexivity; try done.
Qed.

(** X5: when the page allocator has no page for the trap frame,
    [allocproc] returns null although a slot was free: the slot is UNUSED
    and unlocked again, the pid it was given is used up (the counter has
    moved to the next [int]), and the failed [kalloc] is the only call
    made to a collaborator (the slot, like every slot that [freeproc]
    left, has no page table to free). *)
Theorem allocproc_out_of_memory (s : kstate) (ni : nat) (np : proc) :
  locks_free s -> pid_lock s = Free -> first_unused s ni np ->
  pagetable np = 0 -> (kalloc (ext s)).1 = None ->
  exists c,
    allocproc s
    = Ret None (set_ext (kalloc (ext s)).2
                  (set_nextpid (s32 (nextpid s + 1)) (setp ni c s))) /\
    state c = UNUSED /\ lock c = Free /\ pid c = 0 /\ trapframe c = None /\
    kstack c = kstack np.
Proof.
  intros LF Hpl FU Hpt0 Hk. pose proof FU as (Hnp & Hun & Hfirst).
  pose proof (lookup_lt_Some _ _ _ Hnp) as Hlt.
  pose proof (LF _ _ Hnp) as L.
  exists (set_lock Free (freed (alloc_init (nextpid s) np))).
  split; [|repeat split].
  unfold allocproc. erewrite bind_Ret.
  2:{ unfold for_each_proc. eapply scan_first; [exact Hlt| |].
      - intros j Hj. destruct (lookup_lt_is_Some_2 (procs s) j) as [q Hq]; [lia|].
        eapply allocproc_body_skip; eauto.
      - apply allocproc_body_hit; eauto. }
  norm. erewrite bind_Ret by (apply allocpid_eq; exact Hpl). norm.
  repeat mstep. rewrite Hk.
  rewrite bool_decide_eq_true_2 by done. cbv iota.
  repeat xstep. unfold ret. rewrite Hpl, freed_set_trapframe.
  unfold freed_ext.
  cbn [trapframe pagetable set_trapframe set_signal_handling set_stopped
         set_pending_signals set_signals_mask set_signal_handlers set_state set_pid
         set_lock].
  rewrite Hpt0. reflexivity.
Qed.

(** ** wakeup, sleep, yield, sched *)

Lemma wake_idem me ch j q : wake me ch j (wake me ch j q) = wake me ch j q.
Proof.
  unfold wake. destruct (bool_decide (Some j = me)); [reflexivity|].
  destruct (bool_decide (state q = SLEEPING) && bool_decide (chan q = ch)) eqn:E.
  - reflexivity.
  - now rewrite E.
Qed.

Lemma woken_idem me ch l : woken me ch (woken me ch l) = woken me ch l.
Proof.
  apply list_eq. intros j. rewrite !woken_lookup.
  destruct (l !! j) as [q|]; cbn; [|reflexivity]. now rewrite wake_idem.
Qed.

Lemma wake_cases me ch j q :
  wake me ch j q
  = if bool_decide (Some j <> me /\ state q = SLEEPING /\ chan q = ch)
    then set_state RUNNABLE q else q.
Proof.
  unfold wake.
  destruct (decide (Some j = me)) as [E|E].
  - rewrite (bool_decide_eq_true_2 _ E), bool_decide_eq_false_2; [done|].
    intros (H & _). done.
  - rewrite (bool_decide_eq_false_2 _ E).
    destruct (decide (state q = SLEEPING)) as [E1|E1].
    + rewrite (bool_decide_eq_true_2 _ E1). cbn [andb].
      destruct (decide (chan q = ch)) as [E2|E2].
      * rewrite (bool_decide_eq_true_2 _ E2), bool_decide_eq_true_2; done.
      * rewrite (bool_decide_eq_false_2 _ E2), bool_decide_eq_false_2; [done|].
        intros (_ & _ & H). done.
    + rewrite (bool_decide_eq_false_2 _ E1). cbn [andb].
      rewrite bool_decide_eq_false_2; [done|]. intros (_ & H & _). done.
Qed.

(** X6: called with no record lock held, [wakeup(chan)] returns; each
    record other than the caller's that is SLEEPING on [chan] is RUNNABLE
    afterwards and every other record, the caller's among them, is as it
    was, as is the rest of the kernel state.  A second [wakeup] on the
    same channel changes nothing. *)
Theorem wakeup_wakes_sleepers_on_channel (s : kstate) (ch : ptr) :
  locks_free s ->
  exists s',
    wakeup ch s = Ret tt s' /\
    s' = set_procs (procs s') s /\
    length (procs s') = length (procs s) /\
    (forall j q, procs s !! j = Some q ->
       procs s' !! j
       = Some (if bool_decide (Some j <> cpu_proc s /\ state q = SLEEPING /\ chan q = ch)
               then set_state RUNNABLE q else q)) /\
    wakeup ch s' = Ret tt s'.
Proof.
  intros LF. exists (set_procs (woken (cpu_proc s) ch (procs s)) s).
  split; [now apply wakeup_eq|]. split; [reflexivity|].
  split; [cbn [procs set_procs]; apply woken_length|]. split.
  - intros j q Hq. cbn [procs set_procs]. rewrite woken_lookup, Hq. cbn.
    now rewrite wake_cases.
  - rewrite wakeup_eq by now apply locks_free_woken.
    cbn [procs set_procs cpu_proc]. rewrite woken_idem. reflexivity.
Qed.

Lemma bind_ret_r {A} (m : M A) s : bind m (fun a => ret a) s = m s.
Proof. unfold bind, ret. now destruct (m s). Qed.

(** [sleep] under [wait_lock], up to the switch. *)
Lemma sleep_to_switch {B} s me p ch e (k : unit -> M B) :
  cpu_proc s = Some me -> procs s !! me = Some p -> lock p = Free ->
  wait_lock s = HeldSelf -> noff s = 1%nat ->
  bind (sleep ch WaitLock e) k s
  = bind (swtch_out me e) (fun _ =>
      bind (modify (set_intena (intena s))) (fun _ =>
      bind (bind (modp me (set_chan Null)) (fun _ =>
            bind (release (ProcLock me)) (fun _ => acquire WaitLock))) k))
      (set_wait_lock Free
         (set_noff 1%nat
            (setp me (set_state SLEEPING (set_chan ch (set_lock HeldSelf p))) s))).
Proof.
  intros Hc Hp Hl Hw Hn. pose proof (lookup_lt_Some _ _ _ Hp) as Hlt.
  unfold sleep. repeat mstep. rewrite Hn. repeat mstep.
  erewrite sched_eq_bind; [| exact Hc | lk | reflexivity | reflexivity | done ].
  norm. reflexivity.
Qed.

(** The table in which the sleeper of slot [me] waits for the scheduler:
    asleep on [ch], its lock released by the scheduler. *)
Lemma scheduler_release_asleep s me p ch :
  procs s !! me = Some p ->
  scheduler_release me
    (set_wait_lock Free
       (set_noff 1%nat
          (setp me (set_state SLEEPING (set_chan ch (set_lock HeldSelf p))) s)))
  = Build_kstate (<[me := set_state SLEEPING (set_chan ch (set_lock Free p))]> (procs s))
      (nextpid s) (pid_lock s) Free (initproc s) None 0%nat (intena s) (ext s).
Proof.
  intros Hp. pose proof (lookup_lt_Some _ _ _ Hp) as Hlt.
  unfold scheduler_release, lock_set. norm. lk. norm. reflexivity.
Qed.

Lemma locks_free_insert (l : list proc) i q :
  (forall j r, l !! j = Some r -> lock r = Free) -> lock q = Free ->
  forall j r, <[i := q]> l !! j = Some r -> lock r = Free.
Proof.
  intros LF L j r H. apply list_lookup_insert_Some in H as [(_ & <- & _)|(_ & H)]; eauto.
Qed.

(** X7: a process that holds only [wait_lock] and sleeps on [chan] comes
    back from [sleep] once a [wakeup(chan)] has run while it was switched
    out: it is RUNNING again with its channel cleared and its lock free,
    and it holds [wait_lock] again.  The other sleepers on [chan] have
    been made RUNNABLE by the same [wakeup]. *)
Theorem sleep_returns_after_wakeup (s : kstate) (me : nat) (p : proc) (ch : ptr) :
  cpu_proc s = Some me -> procs s !! me = Some p -> locks_free s ->
  wait_lock s = HeldSelf -> noff s = 1%nat ->
  exists s' p',
    sleep ch WaitLock (Some (fun s0 => final (wakeup ch s0))) s = Ret tt s' /\
    procs s' !! me = Some p' /\
    state p' = RUNNING /\ chan p' = Null /\ lock p' = Free /\
    wait_lock s' = HeldSelf /\ noff s' = 1%nat /\ cpu_proc s' = Some me /\
    (forall j q, j <> me -> procs s !! j = Some q ->
       procs s' !! j
       = Some (if bool_decide (state q = SLEEPING /\ chan q = ch)
               then set_state RUNNABLE q else q)).
Proof.
  intros Hc Hp LF Hw Hn. pose proof (LF _ _ Hp) as L.
  pose proof (lookup_lt_Some _ _ _ Hp) as Hlt.
  set (asl := set_state SLEEPING (set_chan ch (set_lock Free p))).
  set (l := woken None ch (<[me := asl]> (procs s))).
  assert (length l = length (procs s)) as Hlen
    by (unfold l; rewrite woken_length; apply length_insert).
  assert (l !! me = Some (set_state RUNNABLE asl)) as Hme.
  { unfold l. rewrite woken_lookup, list_lookup_insert_eq by done. cbn.
    unfold wake. rewrite bool_decide_eq_false_2 by done.
    cbn [state chan asl set_state set_chan].
    now rewrite !bool_decide_eq_true_2 by done. }
  assert (forall j q, j <> me -> procs s !! j = Some q ->
            l !! j = Some (if bool_decide (state q = SLEEPING /\ chan q = ch)
                           then set_state RUNNABLE q else q)) as Hothers.
  { intros j q Hj Hq. unfold l.
    rewrite woken_lookup, list_lookup_insert_ne, Hq by done. cbn.
    rewrite wake_cases. f_equal.
    destruct (decide (state q = SLEEPING /\ chan q = ch)) as [H|H].
    - rewrite !bool_decide_eq_true_2; [done|done|]. split; [done|exact H].
    - rewrite !bool_decide_eq_false_2; [done|done|]. intros (_ & H'). done. }
  eexists _, _. split.
  - rewrite <- bind_ret_r.
    erewrite sleep_to_switch; [|exact Hc|exact Hp|exact L|exact Hw|exact Hn].
    unfold swtch_out at 1. unfold bind at 1.
    rewrite (scheduler_release_asleep s me p ch Hp). fold asl.
    rewrite wakeup_eq.
    2:{ intros j r. cbn [procs]. apply locks_free_insert; [exact LF|reflexivity]. }
    cbn [final]. norm. fold l.
    unfold scheduler_pick. cbn [procs]. rewrite Hme.
    cbn [lock state set_state asl set_chan set_lock].
    rewrite !bool_decide_eq_true_2 by done. cbn [andb].
    norm. repeat mstep. reflexivity.
  - cbn [procs wait_lock noff cpu_proc].
    rewrite list_lookup_insert_eq by (rewrite ?length_insert; lia).
    split; [reflexivity|]. repeat split.
    intros j q Hj Hq. rewrite !list_lookup_insert_ne by done. now apply Hothers.
Qed.

(** X8: [sleep] gives up [wait_lock] and the CPU with the record SLEEPING
    on [chan]; a [wakeup] on another channel, run while the sleeper is
    switched out, does not bring it back. *)
Theorem sleep_ignores_other_channels (s : kstate) (me : nat) (p : proc) (ch ch' : ptr) :
  cpu_proc s = Some me -> procs s !! me = Some p -> locks_free s ->
  wait_lock s = HeldSelf -> noff s = 1%nat -> ch' <> ch ->
  exists s1 s2 p1 p2,
    sleep ch WaitLock None s = Switched s1 /\
    procs s1 !! me = Some p1 /\ state p1 = SLEEPING /\ chan p1 = ch /\
    lock p1 = HeldSelf /\ wait_lock s1 = Free /\ noff s1 = 1%nat /\
    sleep ch WaitLock (Some (fun s0 => final (wakeup ch' s0))) s = Switched s2 /\
    procs s2 !! me = Some p2 /\ state p2 = SLEEPING /\ chan p2 = ch /\
    lock p2 = Free /\ wait_lock s2 = Free.
Proof.
  intros Hc Hp LF Hw Hn Hne. pose proof (LF _ _ Hp) as L.
  pose proof (lookup_lt_Some _ _ _ Hp) as Hlt.
  set (asl := set_state SLEEPING (set_chan ch (set_lock Free p))).
  set (l := woken None ch' (<[me := asl]> (procs s))).
  assert (l !! me = Some asl) as Hme.
  { unfold l. rewrite woken_lookup, list_lookup_insert_eq by done. cbn.
    unfold wake. rewrite bool_decide_eq_false_2 by done.
    cbn [state chan asl set_state set_chan].
    rewrite (bool_decide_eq_false_2 (ch = ch')) by congruence.
    now rewrite andb_false_r. }
  eexists _, _, _, _. split; [|split; [|split; [|split; [|split; [|split; [|split; [|split]]]]]]].
  - rewrite <- bind_ret_r.
    erewrite sleep_to_switch; [|exact Hc|exact Hp|exact L|exact Hw|exact Hn].
    unfold swtch_out at 1. unfold bind at 1. reflexivity.
  - cbn [procs set_wait_lock set_noff setp set_procs].
    now apply list_lookup_insert_eq.
  - reflexivity.
  - reflexivity.
  - reflexivity.
  - reflexivity.
  - reflexivity.
  - rewrite <- bind_ret_r.
    erewrite sleep_to_switch; [|exact Hc|exact Hp|exact L|exact Hw|exact Hn].
    unfold swtch_out at 1. unfold bind at 1.
    rewrite (scheduler_release_asleep s me p ch Hp). fold asl.
    rewrite wakeup_eq.
    2:{ intros j r. cbn [procs]. apply locks_free_insert; [exact LF|reflexivity]. }
    cbn [final]. norm. fold l.
    unfold scheduler_pick. cbn [procs]. rewrite Hme.
    cbn [lock state set_state asl set_chan set_lock].
    rewrite (bool_decide_eq_false_2 (SLEEPING = RUNNABLE)) by done.
    rewrite andb_false_r. reflexivity.
  - cbn [procs wait_lock]. split; [exact Hme|]. repeat split.
Qed.

Lemma holding_proc {B} s me p (k : bool -> M B) :
  procs s !! me = Some p ->
  bind (holding (ProcLock me)) k s = k (bool_decide (lock p = HeldSelf)) s.
Proof.
  intros Hp. unfold holding. rewrite bind_gets. cbn [lock_of]. rewrite Hp.
  cbn [fmap option_fmap option_map]. f_equal.
  apply bool_decide_ext. split; [now intros [= ->]|now intros ->].
Qed.

Lemma sched_locks_panic s me p e :
  cpu_proc s = Some me -> procs s !! me = Some p -> lock p = HeldSelf ->
  noff s <> 1%nat -> sched e s = Panic "sched locks" s.
Proof.
  intros Hc Hp Hl Hn. unfold sched. repeat mstep. rewrite (holding_proc s me p) by done.
  rewrite bool_decide_eq_true_2 by done. cbn [negb]. repeat mstep.
  rewrite bool_decide_eq_false_2 by done. reflexivity.
Qed.

(** X9: [sched] switches only for a caller that holds its own record lock
    and no other lock and has left the RUNNING state; any other call is a
    panic, and the tests are made in that order.  With nothing to resume
    it, a caller that passes them stays switched out, the state
    untouched. *)
Theorem sched_refuses_unsafe_switch (s : kstate) (me : nat) (p : proc)
    (e : option envstep) :
  cpu_proc s = Some me -> procs s !! me = Some p ->
  (lock p <> HeldSelf -> sched e s = Panic "sched p->lock" s) /\
  (lock p = HeldSelf -> noff s <> 1%nat -> sched e s = Panic "sched locks" s) /\
  (lock p = HeldSelf -> noff s = 1%nat -> state p = RUNNING ->
     sched e s = Panic "sched running" s) /\
  (lock p = HeldSelf -> noff s = 1%nat -> state p <> RUNNING ->
     sched None s = Switched s).
Proof.
  intros Hc Hp.
  split; [|split; [|split]].
  - intros Hl. unfold sched. repeat mstep. rewrite (holding_proc s me p) by done.
    rewrite bool_decide_eq_false_2 by done. reflexivity.
  - intros Hl Hn. exact (sched_locks_panic s me p e Hc Hp Hl Hn).
  - intros Hl Hn Hs. unfold sched. repeat mstep. rewrite (holding_proc s me p) by done.
    rewrite bool_decide_eq_true_2 by done. cbn [negb]. repeat mstep.
    rewrite (bool_decide_eq_true_2 (noff s = 1%nat)) by done. cbn [negb].
    rewrite bool_decide_eq_true_2 by done. reflexivity.
  - intros Hl Hn Hs. erewrite sched_eq by eauto. reflexivity.
Qed.

Lemma yield_to_switch s me p e :
  cpu_proc s = Some me -> procs s !! me = Some p -> lock p = Free -> noff s = 0%nat ->
  yield e s
  = bind (swtch_out me e) (fun _ =>
      bind (modify (set_intena (intena s))) (fun _ => release (ProcLock me)))
      (set_noff 1%nat (setp me (set_state RUNNABLE (set_lock HeldSelf p)) s)).
Proof.
  intros Hc Hp Hl Hn. pose proof (lookup_lt_Some _ _ _ Hp) as Hlt.
  unfold yield. repeat mstep. rewrite Hn.
  erewrite sched_eq_bind; [| exact Hc | lk | reflexivity | reflexivity | done ].
  norm. reflexivity.
Qed.

(** X10: [yield] by a process that holds no lock marks it RUNNABLE and
    switches out holding its own lock; picked again by the scheduler with
    nothing else having happened, it returns RUNNING with its lock free
    and the rest of the kernel state as before.  Called while a lock is
    held, [yield] ends in the panic "sched locks". *)
Theorem yield_round_trip (s : kstate) (me : nat) (p : proc) :
  cpu_proc s = Some me -> procs s !! me = Some p -> lock p = Free ->
  (noff s = 0%nat ->
     yield None s
     = Switched (set_noff 1%nat (setp me (set_state RUNNABLE (set_lock HeldSelf p)) s)) /\
     yield (Some (fun s0 => s0)) s = Ret tt (setp me (set_state RUNNING p) s)) /\
  (noff s <> 0%nat ->
     forall e,
       yield e s
       = Panic "sched locks"
           (set_noff (S (noff s)) (setp me (set_state RUNNABLE (set_lock HeldSelf p)) s))).
Proof.
  intros Hc Hp Hl. pose proof (lookup_lt_Some _ _ _ Hp) as Hlt. split.
  - intros Hn. split.
    + erewrite yield_to_switch by eauto. reflexivity.
    + erewrite yield_to_switch by eauto.
      unfold swtch_out at 1. unfold bind at 1.
      unfold scheduler_release, lock_set. norm. lk. norm.
      unfold scheduler_pick. cbn [procs]. lk.
      cbn [lock state set_state set_lock].
      rewrite !bool_decide_eq_true_2 by done. cbn [andb]. norm.
      repeat mstep. unfold ret. f_equal. rewrite <- Hn, <- Hc.
      replace (set_lock Free (set_state RUNNING (set_lock HeldSelf
                 (set_lock Free (set_state RUNNABLE (set_lock HeldSelf p))))))
        with (set_state RUNNING p) by (destruct p; cbn in *; now subst).
      reflexivity.
  - intros Hn e. unfold yield. repeat mstep.
    unfold bind at 1.
    erewrite sched_locks_panic; [reflexivity|exact Hc|lk|reflexivity|cbn [noff]; lia].
Qed.

(** ** Pending bits and masks *)

Lemma testbit_uint_high x b : 0 <= x < 2 ^ 32 -> 32 <= b -> Z.testbit x b = false.
Proof.
  intros Hx Hb. rewrite <- (Z.mod_small x (2 ^ 32)) by done.
  apply Z.mod_pow2_bits_high. lia.
Qed.

Lemma eqb0_one_bit x k :
  0 <= k -> (forall b, 0 <= b -> b <> k -> Z.testbit x b = false) ->
  (x =? 0) = negb (Z.testbit x k).
Proof.
  intros Hk H. destruct (Z.testbit x k) eqn:E; cbn [negb].
  - apply Z.eqb_neq. intros ->. now rewrite Z.bits_0 in E.
  - apply eqb0_bits. intros b Hb. destruct (decide (b = k)) as [->|Hne]; auto.
Qed.

Lemma pending_unmasked_bits (p : proc) (k : Z) :
  signum_ok SIGKILL -> signum_ok SIGSTOP -> 0 <= k <= 31 ->
  0 <= signals_mask p < 2 ^ 32 ->
  pending_unmasked p k
  = Z.testbit (pending_signals p) k
    && (negb (Z.testbit (signals_mask p) k) || (k =? SIGKILL) || (k =? SIGSTOP)).
Proof.
  intros HK HS Hk Hm. unfold signum_ok in *. unfold pending_unmasked.
  rewrite u32_shl1 by done. rewrite land_pow2_eqb, negb_involutive by lia.
  f_equal.
  rewrite (eqb0_one_bit _ k) by first
    [ lia
    | intros b Hb Hne; rewrite !Z.land_spec, testbit_u64, testbit_shl1 by lia;
      destruct (Z.ltb_spec b 32);
      [ destruct (Z.eqb_spec b k); [lia|];
        destruct (Z.ltb_spec 31 b); [lia|];
        now rewrite andb_false_r, !andb_false_r
      | now rewrite (testbit_uint_high _ b Hm) ] ].
  rewrite !Z.land_spec. unfold non_maskable.
  rewrite !testbit_u64, Z.land_spec, !Z.lnot_spec, !testbit_shl1 by lia.
  rewrite Z.eqb_refl.
  replace (k <? 64) with true by (symmetry; apply Z.ltb_lt; lia).
  replace (31 <? k) with false by (symmetry; apply Z.ltb_ge; lia).
  rewrite !andb_false_r, !orb_false_r. cbn [andb orb].
  rewrite !andb_true_r.
  destruct (Z.testbit (signals_mask p) k), (k =? SIGKILL), (k =? SIGSTOP); reflexivity.
Qed.

(** X11: for a signal number in 0..31, [is_pending_and_not_masked]
    returns 1 exactly when the pending bit of the signal is set and its
    mask bit is clear or the signal is SIGKILL or SIGSTOP, and 0
    otherwise; it changes nothing. *)
Theorem pending_and_not_masked_by_bits (s : kstate) (i : nat) (p : proc) (k : Z) :
  signum_ok SIGKILL -> signum_ok SIGSTOP ->
  cpu_proc s = Some i -> procs s !! i = Some p ->
  0 <= k <= 31 -> 0 <= signals_mask p < 2 ^ 32 ->
  is_pending_and_not_masked k s
  = Ret (if Z.testbit (pending_signals p) k
            && (negb (Z.testbit (signals_mask p) k) || (k =? SIGKILL) || (k =? SIGSTOP))
         then 1 else 0) s.
Proof.
  intros HK HS Hc Hp Hk Hm.
  erewrite is_pending_and_not_masked_eq by eauto.
  now rewrite pending_unmasked_bits.
Qed.

Lemma turnoff_sigbit_eq s i p k :
  procs s !! i = Some p -> lock p = Free ->
  turnoff_sigbit i k s
  = Ret tt (setp i (set_pending_signals
                      (Z.land (pending_signals p) (u32 (Z.lnot (shl1 k)))) p) s).
Proof.
  intros Hp Hl. pose proof (lookup_lt_Some _ _ _ Hp) as Hlt.
  unfold turnoff_sigbit. repeat mstep.
  replace (set_lock Free (set_pending_signals
             (Z.land (pending_signals (set_lock HeldSelf p)) (u32 (Z.lnot (shl1 k))))
             (set_lock HeldSelf p)))
    with (set_pending_signals (Z.land (pending_signals p) (u32 (Z.lnot (shl1 k)))) p)
    by (destruct p; cbn in *; now subst).
  reflexivity.
Qed.

Lemma testbit_turnoff x k b :
  0 <= k <= 31 -> 0 <= b -> 0 <= x < 2 ^ 32 ->
  Z.testbit (Z.land x (u32 (Z.lnot (shl1 k)))) b = Z.testbit x b && negb (b =? k).
Proof.
  intros Hk Hb Hx.
  rewrite Z.land_spec, testbit_u32, Z.lnot_spec, testbit_shl1 by lia.
  destruct (Z.ltb_spec b 32).
  - destruct (Z.ltb_spec 31 b); [lia|]. now rewrite andb_false_r, orb_false_r.
  - rewrite (testbit_uint_high x b) by done. reflexivity.
Qed.

(** X12: raising signal [k] with [kill] and then clearing it with
    [turnoff_sigbit] leaves bit [k] of the target's pending set clear and
    every other bit as it was, with all locks released; if [k] was not
    pending before, the kernel state is the one before the [kill]. *)
Theorem kill_then_turnoff_sigbit (s : kstate) (pid0 k : Z) (i : nat) (p : proc) :
  locks_free s -> 0 <= k <= 31 -> first_pid s pid0 i p ->
  killed p = 0 -> state p <> ZOMBIE -> state p <> UNUSED ->
  0 <= pending_signals p < 2 ^ 32 ->
  exists m,
    bind (kill pid0 k) (fun _ => turnoff_sigbit i k) s
    = Ret tt (setp i (set_pending_signals m p) s) /\
    (forall b, 0 <= b -> Z.testbit m b = Z.testbit (pending_signals p) b && negb (b =? k)) /\
    (Z.testbit (pending_signals p) k = false ->
       setp i (set_pending_signals m p) s = s).
Proof.
  intros LF Hk FP B1 B2 B3 Hr. pose proof FP as (Hp & P & F).
  pose proof (lookup_lt_Some _ _ _ Hp) as Hlt. pose proof (LF _ _ Hp) as L.
  set (m := Z.land (Z.lor (pending_signals p) (2 ^ k)) (u32 (Z.lnot (shl1 k)))).
  assert (forall b, 0 <= b ->
            Z.testbit m b = Z.testbit (pending_signals p) b && negb (b =? k)) as Hbits.
  { intros b Hb. unfold m.
    rewrite Z.land_spec, testbit_u32, Z.lnot_spec, testbit_shl1 by lia.
    rewrite Z.lor_spec, Z.pow2_bits_eqb by lia. rewrite (Z.eqb_sym k b).
    destruct (Z.ltb_spec b 32).
    - destruct (Z.ltb_spec 31 b); [lia|]. rewrite andb_false_r, orb_false_r. cbn [andb].
      destruct (Z.testbit (pending_signals p) b), (b =? k); reflexivity.
    - rewrite (testbit_uint_high _ b Hr) by done.
      destruct (Z.eqb_spec b k); [lia|]. reflexivity. }
  exists m. split; [|split; [exact Hbits|]].
  - erewrite bind_Ret.
    2:{ rewrite kill_in_range by done.
        erewrite (kill_scan_found s i p); [|done|done|apply kill_body_hit; eauto].
        reflexivity. }
    erewrite turnoff_sigbit_eq;
      [|cbn [procs setp set_procs]; now apply list_lookup_insert_eq|exact L].
    norm. reflexivity.
  - intros Hclear.
    assert (m = pending_signals p) as ->.
    { apply Z.bits_inj'. intros b Hb. rewrite Hbits by done.
      destruct (Z.eqb_spec b k) as [->|]; [now rewrite Hclear|now rewrite andb_true_r]. }
    replace (set_pending_signals (pending_signals p) p) with p by now destruct p.
    now apply setp_id.
Qed.

(** ** Entering and leaving a user handler *)

Lemma usersignalhandler_eq s i p tf k :
  cpu_proc s = Some i -> procs s !! i = Some p -> lock p = Free ->
  trapframe p = Some tf ->
  let h := handler p k in
  let dst :=
    default stack_junk64 (copyin_u64 (pagetable p) (u64 (h + off_sa_handler)) (ext s)) in
  let sigmask :=
    default stack_junk32 (copyin_u32 (pagetable p) (u64 (h + off_sigmask)) (ext s)) in
  let save := u64 (sp tf - sizeof_trapframe) in
  let top := u64 (save - func_size) in
  usersignalhandler i k s
  = Ret tt
      (set_ext (copyout_code (pagetable p) top func_size
                  (copyout_tf (pagetable p) save tf (ext s)).2).2
         (setp i
            (set_trapframe (Some (set_ra top (set_a0 k (set_sp top (set_epc dst tf)))))
               (set_user_tf_backup save
                  (set_signal_handling 1
                     (set_signals_mask_backup (signals_mask p)
                        (set_signals_mask
                           (Z.land sigmask
                              (u32 (Z.lnot (Z.lor (shl1 SIGKILL) (shl1 SIGSTOP))))) p)))))
            s)).
Proof.
  intros Hc Hp Hl Ht h dst sigmask save top.
  pose proof (lookup_lt_Some _ _ _ Hp) as Hlt.
  unfold usersignalhandler, sigprocmask. repeat mstep.
  cbn [trapframe set_signal_handling set_signals_mask_backup set_signals_mask set_lock].
  rewrite Ht. cbv iota. repeat mstep.
  cbn [pagetable handler signal_handlers signals_mask set_lock sp set_sp set_epc].
  fold (handler p k). fold h. fold dst. fold sigmask. fold save. fold top.
  unfold ret. f_equal. f_equal. f_equal.
  destruct p; cbn in *; now subst.
Qed.

Lemma sigret_eq s i p tf :
  cpu_proc s = Some i -> procs s !! i = Some p -> lock p = Free ->
  trapframe p = Some tf ->
  sigret s
  = Ret tt (setp i (set_signal_handling 0 (set_user_tf_backup 0
              (set_signals_mask (signals_mask_backup p)
                 (set_trapframe
                    (Some (copyin_tf (pagetable p) (user_tf_backup p) tf (ext s))) p)))) s).
Proof.
  intros Hc Hp Hl Ht. pose proof (lookup_lt_Some _ _ _ Hp) as Hlt.
  unfold sigret. repeat mstep. cbn [trapframe set_lock]. rewrite Ht. cbv iota.
  repeat mstep. norm.
  cbn [pagetable user_tf_backup signals_mask_backup set_lock set_trapframe].
  f_equal. f_equal. f_equal. destruct p; cbn in *; now subst.
Qed.

(** X13: [usersignalhandler] returns with the process set up to run the
    user handler: the trap frame resumes at the handler address read from
    the descriptor, with the signal number in [a0] and with [sp] and [ra]
    at the copy of the [sigret] stub, which lies on the user stack below
    the saved frame; the frame as it was has been copied out to
    [sp - sizeof(struct trapframe)], whose address is kept in
    [user_tf_backup]; the descriptor's mask is installed without the bits
    of SIGKILL and SIGSTOP, the previous mask is kept in
    [signals_mask_backup], [signal_handling] is set and the lock is
    released. *)
Theorem usersignalhandler_enters_handler (s : kstate) (i : nat) (p : proc)
    (tf : trapframe_t) (k : Z) :
  cpu_proc s = Some i -> procs s !! i = Some p -> lock p = Free ->
  trapframe p = Some tf ->
  let h := handler p k in
  let dst :=
    default stack_junk64 (copyin_u64 (pagetable p) (u64 (h + off_sa_handler)) (ext s)) in
  let sigmask :=
    default stack_junk32 (copyin_u32 (pagetable p) (u64 (h + off_sigmask)) (ext s)) in
  let save := u64 (sp tf - sizeof_trapframe) in
  let top := u64 (save - func_size) in
  exists s1 p1 tf1,
    usersignalhandler i k s = Ret tt s1 /\ procs s1 !! i = Some p1 /\
    trapframe p1 = Some tf1 /\
    (epc tf1 = dst /\ a0 tf1 = k /\ sp tf1 = top /\ ra tf1 = top /\
     tf_rest tf1 = tf_rest tf) /\
    signals_mask p1
    = Z.land sigmask (u32 (Z.lnot (Z.lor (shl1 SIGKILL) (shl1 SIGSTOP)))) /\
    signals_mask_backup p1 = signals_mask p /\
    signal_handling p1 = 1 /\ user_tf_backup p1 = save /\
    lock p1 = Free /\ pending_signals p1 = pending_signals p /\
    ext s1 = (copyout_code (pagetable p) top func_size
                (copyout_tf (pagetable p) save tf (ext s)).2).2 /\
    noff s1 = noff s /\
    (forall j, j <> i -> procs s1 !! j = procs s !! j).
Proof.
  intros Hc Hp Hl Ht h dst sigmask save top.
  pose proof (lookup_lt_Some _ _ _ Hp) as Hlt.
  eexists _, _, _. split; [now apply (usersignalhandler_eq s i p tf k)|].
  cbn [procs set_ext setp set_procs].
  split; [now apply list_lookup_insert_eq|].
  split; [reflexivity|]. split; [repeat split|].
  repeat split; try exact Hl.
  intros j Hj. now rewrite list_lookup_insert_ne.
Qed.

(** X14: [sigret] after [usersignalhandler] puts back the signal mask the
    process had before the handler was entered, clears [signal_handling]
    and [user_tf_backup], and reads the trap frame back from the user
    address to which [usersignalhandler] copied it; pending signals and
    the lock count are as before. *)
Theorem sigret_undoes_usersignalhandler (s : kstate) (i : nat) (p : proc)
    (tf : trapframe_t) (k : Z) :
  cpu_proc s = Some i -> procs s !! i = Some p -> lock p = Free ->
  trapframe p = Some tf ->
  exists s1 p1 tf1 s2 p2,
    usersignalhandler i k s = Ret tt s1 /\ procs s1 !! i = Some p1 /\
    trapframe p1 = Some tf1 /\
    ext s1 = (copyout_code (pagetable p) (sp tf1) func_size
                (copyout_tf (pagetable p) (u64 (sp tf - sizeof_trapframe)) tf (ext s)).2).2 /\
    sigret s1 = Ret tt s2 /\ procs s2 !! i = Some p2 /\
    signals_mask p2 = signals_mask p /\ signal_handling p2 = 0 /\
    user_tf_backup p2 = 0 /\
    trapframe p2
    = Some (copyin_tf (pagetable p) (u64 (sp tf - sizeof_trapframe)) tf1 (ext s1)) /\
    pending_signals p2 = pending_signals p /\ lock p2 = Free /\
    noff s2 = noff s /\ ext s2 = ext s1.
Proof.
  intros Hc Hp Hl Ht. pose proof (lookup_lt_Some _ _ _ Hp) as Hlt.
  eexists _, _, _, _, _.
  split; [now apply (usersignalhandler_eq s i p tf k)|].
  split; [cbn [procs set_ext setp set_procs]; now apply list_lookup_insert_eq|].
  split; [reflexivity|]. split; [reflexivity|].
  split.
  { erewrite sigret_eq;
      [ reflexivity | exact Hc
      | cbn [procs set_ext setp set_procs]; now apply list_lookup_insert_eq
      | exact Hl | reflexivity ]. }
  cbn [procs set_ext setp set_procs].
  split; [apply list_lookup_insert_eq; now rewrite length_insert|].
  repeat split. exact Hl.
Qed.

(** ** The delivery loop *)

Lemma signal_loop_killed s i p sigs env :
  procs s !! i = Some p -> killed p <> 0 -> signal_loop i sigs env s = Ret tt s.
Proof.
  intros Hp Hk. destruct sigs as [|k sigs]; [reflexivity|].
  cbn [signal_loop]. mstep. destruct (Z.eqb_spec (killed p) 0); [done|]. reflexivity.
Qed.

(** X15: a process that is marked killed handles no signal: a pass of
    [signalhandler] returns at once with the kernel state as it was,
    whatever is pending. *)
Theorem signalhandler_killed_handles_nothing (s : kstate) (i : nat) (p : proc)
    (env : list envstep) :
  cpu_proc s = Some i -> procs s !! i = Some p -> killed p <> 0 ->
  signalhandler env s = Ret tt s.
Proof.
  intros Hc Hp Hk. unfold signalhandler, myproc. mstep. rewrite Hc. mstep.
  destruct (negb (signal_handling p =? 0)); [reflexivity|].
  now apply signal_loop_killed with (p := p).
Qed.

Lemma signal_loop_skip s i p env l1 l2 :
  cpu_proc s = Some i -> procs s !! i = Some p -> killed p = 0 -> stopped p = 0 ->
  (forall j, j ∈ l1 -> pending_unmasked p j = false) ->
  signal_loop i (l1 ++ l2) env s = signal_loop i l2 env s.
Proof.
  intros Hc Hp Hk Hs. induction l1 as [|j l1 IH]; intros Hno; [reflexivity|].
  cbn [app signal_loop]. mstep. rewrite Hk. cbn [Z.eqb negb]. cbv iota.
  erewrite bind_Ret by (eapply stop_wait_running; eauto).
  erewrite bind_Ret by (eapply is_pending_and_not_masked_eq; eauto).
  rewrite Hno by left. cbn [Z.eqb]. cbv iota.
  apply IH. intros j' Hj'. apply Hno. now right.
Qed.

Lemma signums_split k :
  0 <= k <= 31 ->
  exists l1 l2, signums = l1 ++ k :: l2 /\ (forall j, j ∈ l1 -> 0 <= j < k).
Proof.
  intros Hk. unfold signums.
  rewrite (seq_split_at (Z.to_nat k) 32) by lia. rewrite map_app. cbn [map].
  rewrite Z2Nat.id by lia. eexists _, _. split; [reflexivity|].
  intros j Hj. apply list_elem_of_fmap in Hj as (n & -> & Hn).
  apply elem_of_seq in Hn. lia.
Qed.

Lemma sigkill_func_eq s i p :
  cpu_proc s = Some i -> procs s !! i = Some p -> lock p = Free ->
  sigkill_func s = Ret tt (setp i (kill_mark p) s).
Proof.
  intros Hc Hp Hl. pose proof (lookup_lt_Some _ _ _ Hp) as Hlt.
  unfold sigkill_func, kill_mark. repeat mstep. cbn [state set_killed set_lock].
  destruct (bool_decide (state p = SLEEPING)); repeat mstep; unfold ret;
    f_equal; f_equal; f_equal; destruct p; cbn in *; now subst.
Qed.

(** X16: the default action of a signal other than SIGSTOP and SIGCONT is
    to kill.  When signal [k], with the default handler, is the first
    signal of the pass that is pending and not masked, [signalhandler]
    marks the process killed (making it RUNNABLE if it was SLEEPING),
    clears bit [k] and returns without looking at the signals after [k]:
    their pending bits are as they were. *)
Theorem signalhandler_default_action_kills (s : kstate) (i : nat) (p : proc) (k : Z)
    (env : list envstep) :
  cpu_proc s = Some i -> procs s !! i = Some p -> lock p = Free ->
  signal_handling p = 0 -> killed p = 0 -> stopped p = 0 ->
  0 <= k <= 31 -> k <> SIGSTOP -> k <> SIGCONT -> SIG_DFL <> SIG_IGN ->
  pending_unmasked p k = true -> handler p k = SIG_DFL ->
  (forall j, 0 <= j < k -> pending_unmasked p j = false) ->
  let p' := set_pending_signals (Z.land (pending_signals p) (u32 (Z.lnot (shl1 k))))
              (kill_mark p) in
  signalhandler env s = Ret tt (setp i p' s) /\
  killed p' = 1 /\ Z.testbit (pending_signals p') k = false.
Proof.
  intros Hc Hp Hl Hh Hk Hs Hr HnS HnC Hdi Hpend Hdfl Hbefore p'.
  pose proof (lookup_lt_Some _ _ _ Hp) as Hlt.
  split; [|split].
  - unfold signalhandler, myproc. mstep. rewrite Hc. mstep. rewrite Hh.
    cbn [Z.eqb negb]. cbv iota.
    destruct (signums_split k Hr) as (l1 & l2 & -> & Hl1).
    erewrite signal_loop_skip; [|exact Hc|exact Hp|exact Hk|exact Hs|].
    2:{ intros j Hj. apply Hbefore. now apply Hl1. }
    cbn [signal_loop]. mstep. rewrite Hk. cbn [Z.eqb negb]. cbv iota.
    erewrite bind_Ret by (eapply stop_wait_running; eauto).
    erewrite bind_Ret by (eapply is_pending_and_not_masked_eq; eauto).
    rewrite Hpend. cbn [Z.eqb]. cbv iota. mstep. rewrite Hh.
    cbn [Z.eqb negb]. cbv iota. rewrite Hdfl.
    destruct (Z.eqb_spec SIG_DFL SIG_IGN); [done|].
    unfold dispatch. rewrite Z.eqb_refl.
    destruct (Z.eqb_spec k SIGSTOP); [done|]. destruct (Z.eqb_spec k SIGCONT); [done|].
    assert (bind (sigkill_func) (fun _ => bind (turnoff_sigbit i k)
                                   (fun _ => signal_loop i l2 env)) s
            = Ret tt (setp i p' s)) as Hrun.
    { erewrite bind_Ret by (eapply sigkill_func_eq; eauto).
      erewrite bind_Ret.
      2:{ apply turnoff_sigbit_eq with (p := kill_mark p).
          - cbn [procs setp set_procs]. now apply list_lookup_insert_eq.
          - unfold kill_mark. now destruct (bool_decide (state p = SLEEPING)). }
      replace (pending_signals (kill_mark p)) with (pending_signals p)
        by (unfold kill_mark; now destruct (bool_decide (state p = SLEEPING))).
      fold p'.
      rewrite signal_loop_killed with (p := p').
      - norm. reflexivity.
      - norm. now apply list_lookup_insert_eq.
      - unfold p', kill_mark. now destruct (bool_decide (state p = SLEEPING)). }
    destruct (k =? SIGKILL); rewrite Hrun; norm; rewrite ?Hc; reflexivity.
  - unfold p', kill_mark. now destruct (bool_decide (state p = SLEEPING)).
  - unfold p'. cbn [pending_signals set_pending_signals].
    rewrite Z.land_spec, testbit_u32, Z.lnot_spec, testbit_shl1 by lia.
    rewrite Z.eqb_refl. cbn [orb negb]. now rewrite !andb_false_r.
Qed.

(** ** Stop and continue *)

Lemma search_cont_loop_none s i p sigs :
  cpu_proc s = Some i -> procs s !! i = Some p ->
  (forall j, j ∈ sigs -> pending_unmasked p j = false) ->
  search_cont_loop i sigs s = Ret 0 s.
Proof.
  intros Hc Hp. induction sigs as [|j sigs IH]; intros Hno; [reflexivity|].
  cbn [search_cont_loop].
  erewrite bind_Ret by (eapply is_pending_and_not_masked_eq; eauto).
  rewrite Hno by left. cbn [Z.eqb negb]. cbv iota.
  apply IH. intros j' Hj'. apply Hno. now right.
Qed.

Lemma signums_range j : j ∈ signums -> 0 <= j <= 31.
Proof.
  unfold signums. intros Hj. apply list_elem_of_fmap in Hj as (n & -> & Hn).
  apply elem_of_seq in Hn. lia.
Qed.

Lemma search_cont_none s i p :
  signum_ok SIGCONT -> signum_ok SIGKILL ->
  cpu_proc s = Some i -> procs s !! i = Some p ->
  (forall j, 0 <= j <= 31 -> pending_unmasked p j = false) ->
  search_cont_signals s = Ret 0 s.
Proof.
  intros HC HK Hc Hp Hno. unfold search_cont_signals. mstep.
  erewrite bind_Ret by (eapply is_pending_and_not_masked_eq; eauto).
  rewrite Hno by exact HC. cbn [Z.eqb negb]. cbv iota.
  erewrite bind_Ret by (eapply is_pending_and_not_masked_eq; eauto).
  rewrite Hno by exact HK. cbn [Z.eqb negb]. cbv iota.
  eapply search_cont_loop_none; eauto.
  intros j Hj. apply Hno. now apply signums_range.
Qed.

Lemma sigcont_func_eq s i p :
  cpu_proc s = Some i -> procs s !! i = Some p ->
  sigcont_func s = Ret tt (setp i (set_stopped 0 p) s).
Proof. intros Hc Hp. unfold sigcont_func. repeat mstep. reflexivity. Qed.

Lemma sigstop_func_eq s i p :
  cpu_proc s = Some i -> procs s !! i = Some p ->
  sigstop_func s = Ret tt (setp i (set_stopped 1 p) s).
Proof. intros Hc Hp. unfold sigstop_func. repeat mstep. reflexivity. Qed.

Lemma search_cont_sigcont s i p :
  cpu_proc s = Some i -> procs s !! i = Some p -> lock p = Free ->
  pending_unmasked p SIGCONT = true ->
  search_cont_signals s
  = Ret 1 (setp i (set_pending_signals
                     (Z.land (pending_signals p) (u32 (Z.lnot (shl1 SIGCONT))))
                     (set_stopped 0 p)) s).
Proof.
  intros Hc Hp Hl Hpend. pose proof (lookup_lt_Some _ _ _ Hp) as Hlt.
  unfold search_cont_signals. mstep.
  erewrite bind_Ret by (eapply is_pending_and_not_masked_eq; eauto).
  rewrite Hpend. cbn [Z.eqb negb]. cbv iota.
  erewrite bind_Ret by (eapply sigcont_func_eq; eauto).
  erewrite bind_Ret.
  2:{ apply turnoff_sigbit_eq with (p := set_stopped 0 p).
      - cbn [procs setp set_procs]. now apply list_lookup_insert_eq.
      - exact Hl. }
  norm. rewrite ?Hc. reflexivity.
Qed.

Lemma search_cont_sigkill s i p :
  cpu_proc s = Some i -> procs s !! i = Some p -> lock p = Free ->
  pending_unmasked p SIGCONT = false -> pending_unmasked p SIGKILL = true ->
  search_cont_signals s
  = Ret 1 (setp i (set_pending_signals
                     (Z.land (pending_signals p) (u32 (Z.lnot (shl1 SIGKILL))))
                     (kill_mark p)) s).
Proof.
  intros Hc Hp Hl Hno Hpend. pose proof (lookup_lt_Some _ _ _ Hp) as Hlt.
  unfold search_cont_signals. mstep.
  erewrite bind_Ret by (eapply is_pending_and_not_masked_eq; eauto).
  rewrite Hno. cbn [Z.eqb negb]. cbv iota.
  erewrite bind_Ret by (eapply is_pending_and_not_masked_eq; eauto).
  rewrite Hpend. cbn [Z.eqb negb]. cbv iota.
  erewrite bind_Ret by (eapply sigkill_func_eq; eauto).
  erewrite bind_Ret.
  2:{ apply turnoff_sigbit_eq with (p := kill_mark p).
      - cbn [procs setp set_procs]. now apply list_lookup_insert_eq.
      - unfold kill_mark. now destruct (bool_decide (state p = SLEEPING)). }
  replace (pending_signals (kill_mark p)) with (pending_signals p)
    by (unfold kill_mark; now destruct (bool_decide (state p = SLEEPING))).
  norm. rewrite ?Hc. reflexivity.
Qed.

Lemma stop_wait_unfold i env :
  stop_wait i env
  = bind (getp i) (fun p =>
      if stopped p =? 0 then ret env else
      bind search_cont_signals (fun r =>
        if negb (r =? 0) then ret env else
        match env with
        | [] => bind (yield None) (fun _ => ret [])
        | f :: env' => bind (yield (Some f)) (fun _ => stop_wait i env')
        end)).
Proof. destruct env; reflexivity. Qed.

Lemma stop_wait_cont s i p env :
  cpu_proc s = Some i -> procs s !! i = Some p -> lock p = Free -> stopped p <> 0 ->
  pending_unmasked p SIGCONT = true ->
  stop_wait i env s
  = Ret env (setp i (set_pending_signals
                       (Z.land (pending_signals p) (u32 (Z.lnot (shl1 SIGCONT))))
                       (set_stopped 0 p)) s).
Proof.
  intros Hc Hp Hl Hs Hpend.
  assert ((stopped p =? 0) = false) as Hs' by now apply Z.eqb_neq.
  rewrite stop_wait_unfold. mstep. rewrite Hs'.
  erewrite bind_Ret by (eapply search_cont_sigcont; eauto).
  reflexivity.
Qed.

(** X17: a stopped process with a deliverable SIGCONT leaves the
    stop-wait loop of [signalhandler] without yielding: it is no longer
    stopped and the SIGCONT bit is cleared.  With no deliverable SIGCONT
    but a deliverable SIGKILL it leaves the loop as well, marked killed
    and with the SIGKILL bit cleared, and it is still marked stopped.
    SIGCONT is looked at first. *)
Theorem stop_wait_ends_on_cont_or_kill (s : kstate) (i : nat) (p : proc)
    (env : list envstep) :
  cpu_proc s = Some i -> procs s !! i = Some p -> lock p = Free -> stopped p <> 0 ->
  (pending_unmasked p SIGCONT = true ->
     stop_wait i env s
     = Ret env (setp i (set_pending_signals
                          (Z.land (pending_signals p) (u32 (Z.lnot (shl1 SIGCONT))))
                          (set_stopped 0 p)) s)) /\
  (pending_unmasked p SIGCONT = false -> pending_unmasked p SIGKILL = true ->
     stop_wait i env s
     = Ret env (setp i (set_pending_signals
                          (Z.land (pending_signals p) (u32 (Z.lnot (shl1 SIGKILL))))
                          (kill_mark p)) s) /\
     stopped (kill_mark p) <> 0 /\ killed (kill_mark p) = 1).
Proof.
  intros Hc Hp Hl Hs.
  assert ((stopped p =? 0) = false) as Hs' by now apply Z.eqb_neq.
  split.
  - intros Hpend. now apply stop_wait_cont.
  - intros Hno Hpend. split; [|split].
    + rewrite stop_wait_unfold. mstep. rewrite Hs'.
      erewrite bind_Ret by (eapply search_cont_sigkill; eauto).
      reflexivity.
    + unfold kill_mark. now destruct (bool_decide (state p = SLEEPING)).
    + unfold kill_mark. now destruct (bool_decide (state p = SLEEPING)).
Qed.

Lemma signums_split_len k :
  0 <= k <= 31 ->
  exists l1 l2, signums = l1 ++ k :: l2 /\ (forall j, j ∈ l1 -> 0 <= j < k) /\
    length l2 = Z.to_nat (31 - k).
Proof.
  intros Hk. unfold signums.
  rewrite (seq_split_at (Z.to_nat k) 32) by lia. rewrite map_app. cbn [map].
  rewrite Z2Nat.id by lia. eexists _, _. split; [reflexivity|]. split.
  - intros j Hj. apply list_elem_of_fmap in Hj as (n & -> & Hn).
    apply elem_of_seq in Hn. lia.
  - rewrite length_map, length_seq. lia.
Qed.

Lemma pending_unmasked_turnoff (p q : proc) (k j : Z) :
  0 <= k <= 31 -> 0 <= j <= 31 ->
  signals_mask q = signals_mask p ->
  pending_signals q = Z.land (pending_signals p) (u32 (Z.lnot (shl1 k))) ->
  pending_unmasked q j = pending_unmasked p j && negb (j =? k).
Proof.
  intros Hk Hj Hm Hq. unfold pending_unmasked. rewrite Hm, Hq.
  rewrite u32_shl1 by done. rewrite !land_pow2_eqb by lia.
  rewrite Z.land_spec, testbit_u32, Z.lnot_spec, testbit_shl1 by lia.
  replace (j <? 32) with true by (symmetry; apply Z.ltb_lt; lia).
  replace (31 <? j) with false by (symmetry; apply Z.ltb_ge; lia).
  rewrite andb_false_r, orb_false_r. cbn [andb].
  destruct (Z.testbit (pending_signals p) j), (j =? k),
    (Z.land (Z.land (signals_mask p) non_maskable) (u64 (shl1 j)) =? 0); reflexivity.
Qed.

(** X18: the default action of SIGSTOP stops the process.  When SIGSTOP,
    with the default handler, is the only deliverable signal of a process
    that holds no lock, [signalhandler] marks it stopped, clears the
    SIGSTOP bit and, at the next signal number, gives up the CPU in
    [yield]: with nothing to continue it the process stays switched out,
    RUNNABLE and stopped. *)
Theorem signalhandler_stop_then_yield (s : kstate) (i : nat) (p : proc) :
  signum_ok SIGKILL -> signum_ok SIGCONT -> 0 <= SIGSTOP < 31 -> SIG_DFL <> SIG_IGN ->
  cpu_proc s = Some i -> procs s !! i = Some p -> lock p = Free -> noff s = 0%nat ->
  signal_handling p = 0 -> killed p = 0 -> stopped p = 0 ->
  pending_unmasked p SIGSTOP = true -> handler p SIGSTOP = SIG_DFL ->
  (forall j, 0 <= j <= 31 -> j <> SIGSTOP -> pending_unmasked p j = false) ->
  let p' := set_pending_signals (Z.land (pending_signals p) (u32 (Z.lnot (shl1 SIGSTOP))))
              (set_stopped 1 p) in
  signalhandler [] s
  = Switched (set_noff 1%nat (setp i (set_state RUNNABLE (set_lock HeldSelf p')) s)).
Proof.
  intros HK HC HS Hdi Hc Hp Hl Hn Hh Hk Hs Hpend Hdfl Hothers p'.
  pose proof (lookup_lt_Some _ _ _ Hp) as Hlt.
  assert (forall j, 0 <= j <= 31 -> pending_unmasked p' j = false) as Hnone.
  { intros j Hj. rewrite (pending_unmasked_turnoff p p' SIGSTOP j) by (done || lia).
    destruct (Z.eqb_spec j SIGSTOP) as [->|Hne]; [now rewrite andb_false_r|].
    now rewrite Hothers. }
  unfold signalhandler, myproc. mstep. rewrite Hc. mstep. rewrite Hh.
  cbn [Z.eqb negb]. cbv iota.
  destruct (signums_split_len SIGSTOP) as (l1 & l2 & -> & Hl1 & Hlen); [lia|].
  destruct l2 as [|k2 l2]; [cbn [length] in Hlen; lia|].
  erewrite signal_loop_skip; [|exact Hc|exact Hp|exact Hk|exact Hs|].
  2:{ intros j Hj. pose proof (Hl1 j Hj). apply Hothers; lia. }
  cbn [signal_loop]. mstep. rewrite Hk. cbn [Z.eqb negb]. cbv iota.
  erewrite bind_Ret by (eapply stop_wait_running; eauto).
  erewrite bind_Ret by (eapply is_pending_and_not_masked_eq; eauto).
  rewrite Hpend. cbn [Z.eqb]. cbv iota. mstep. rewrite Hh.
  cbn [Z.eqb negb]. cbv iota. rewrite Hdfl.
  destruct (Z.eqb_spec SIG_DFL SIG_IGN); [done|].
  unfold dispatch. rewrite !Z.eqb_refl.
  erewrite bind_Ret by (eapply sigstop_func_eq; eauto).
  erewrite bind_Ret.
  2:{ apply turnoff_sigbit_eq with (p := set_stopped 1 p).
      - cbn [procs setp set_procs]. now apply list_lookup_insert_eq.
      - exact Hl. }
  cbn [pending_signals set_stopped]. fold p'. norm.
  mstep. cbn [killed p' set_pending_signals set_stopped]. rewrite Hk.
  cbn [Z.eqb negb]. cbv iota.
  rewrite stop_wait_unfold. rewrite bind_assoc. mstep.
  cbn [stopped p' set_pending_signals set_stopped Z.eqb]. cbv iota.
  rewrite bind_assoc.
  erewrite bind_Ret.
  2:{ apply search_cont_none with (i := i) (p := p'); [done|done|exact Hc| |exact Hnone].
      cbn [procs]. now apply list_lookup_insert_eq. }
  cbn [Z.eqb negb]. cbv iota. rewrite !bind_assoc.
  unfold bind at 1.
  erewrite yield_to_switch; [|exact Hc|cbn [procs]; now apply list_lookup_insert_eq
                             |exact Hl|exact Hn].
  norm. rewrite ?Hc. unfold swtch_out. unfold bind at 1. reflexivity.
Qed.

Lemma yield_to_switch_bind {B} s me p e (k : unit -> M B) :
  cpu_proc s = Some me -> procs s !! me = Some p -> lock p = Free -> noff s = 0%nat ->
  bind (yield e) k s
  = bind (swtch_out me e) (fun _ =>
      bind (modify (set_intena (intena s))) (fun _ => bind (release (ProcLock me)) k))
      (set_noff 1%nat (setp me (set_state RUNNABLE (set_lock HeldSelf p)) s)).
Proof.
  intros Hc Hp Hl Hn. unfold bind at 1. erewrite yield_to_switch by eauto.
  unfold bind. destruct (swtch_out me e _) as [[] s1| | |]; reflexivity.
Qed.

Lemma scheduler_release_yielded s me p :
  procs s !! me = Some p -> lock p = Free ->
  scheduler_release me
    (set_noff 1%nat (setp me (set_state RUNNABLE (set_lock HeldSelf p)) s))
  = Build_kstate (<[me := set_state RUNNABLE p]> (procs s))
      (nextpid s) (pid_lock s) (wait_lock s) (initproc s) None 0%nat (intena s) (ext s).
Proof.
  intros Hp Hl. pose proof (lookup_lt_Some _ _ _ Hp) as Hlt.
  unfold scheduler_release, lock_set. norm. lk. norm.
  replace (set_lock Free (set_state RUNNABLE (set_lock HeldSelf p)))
    with (set_state RUNNABLE p) by (destruct p; cbn in *; now subst).
  reflexivity.
Qed.

Lemma testbit_turnoff_self x k :
  0 <= k <= 31 -> Z.testbit (Z.land x (u32 (Z.lnot (shl1 k)))) k = false.
Proof.
  intros Hk. rewrite Z.land_spec, testbit_u32, Z.lnot_spec, testbit_shl1 by lia.
  rewrite Z.eqb_refl. cbn [orb negb]. now rewrite !andb_false_r.
Qed.

(** X19: stop and continue.  A stopped process with nothing deliverable
    yields; when, while it is switched out, another thread raises SIGCONT
    against it with [kill], it leaves the stop-wait loop as soon as the
    scheduler has picked it again: it is RUNNING, no longer stopped, the
    SIGCONT bit is cleared again, it holds no lock, and no other record
    has changed. *)
Theorem stopped_process_resumes_on_sigcont (s : kstate) (i : nat) (p : proc)
    (env : list envstep) :
  signum_ok SIGCONT -> signum_ok SIGKILL -> signum_ok SIGSTOP ->
  cpu_proc s = Some i -> first_pid s (pid p) i p -> locks_free s -> noff s = 0%nat ->
  stopped p <> 0 -> killed p = 0 -> state p = RUNNING ->
  0 <= signals_mask p < 2 ^ 32 -> Z.testbit (signals_mask p) SIGCONT = false ->
  (forall j, 0 <= j <= 31 -> pending_unmasked p j = false) ->
  exists s' p',
    stop_wait i ((fun s0 => final (kill (pid p) SIGCONT s0)) :: env) s = Ret env s' /\
    procs s' !! i = Some p' /\ stopped p' = 0 /\ state p' = RUNNING /\ lock p' = Free /\
    Z.testbit (pending_signals p') SIGCONT = false /\
    noff s' = 0%nat /\ cpu_proc s' = Some i /\
    (forall j, j <> i -> procs s' !! j = procs s !! j).
Proof.
  intros HC HK HS Hc FP LF Hn Hst Hk Hrun Hm Hmc Hnone.
  pose proof FP as (Hp & _ & Hfirst).
  pose proof (lookup_lt_Some _ _ _ Hp) as Hlt. pose proof (LF _ _ Hp) as Hl.
  set (p2 := set_state RUNNABLE p).
  set (p3 := set_pending_signals (Z.lor (pending_signals p) (2 ^ SIGCONT)) p2).
  set (p5 := set_state RUNNING p3).
  set (S2 := Build_kstate (<[i := p2]> (procs s)) (nextpid s) (pid_lock s) (wait_lock s)
               (initproc s) None 0%nat (intena s) (ext s)).
  assert (kill (pid p) SIGCONT S2 = Ret 0 (setp i p3 S2)) as Hkill.
  { rewrite kill_in_range by exact HC.
    erewrite (kill_scan_found S2 i p2).
    - reflexivity.
    - intros j r. cbn [procs S2]. apply locks_free_insert; [exact LF|exact Hl].
    - split; [cbn [procs S2]; now apply list_lookup_insert_eq|]. split; [reflexivity|].
      intros j q Hj. cbn [procs S2]. rewrite list_lookup_insert_ne by lia.
      now apply Hfirst.
    - apply (kill_body_hit S2 i p2); try done.
      cbn [procs S2]. now apply list_lookup_insert_eq. }
  assert (pending_unmasked p5 SIGCONT = true) as Hpend.
  { rewrite pending_unmasked_bits by done.
    cbn [pending_signals signals_mask p5 p3 p2 set_state set_pending_signals].
    unfold signum_ok in HC.
    rewrite Z.lor_spec, Z.pow2_bits_true, Hmc by lia. now rewrite orb_true_r. }
  eexists _, _. split.
  - rewrite stop_wait_unfold. mstep. rewrite (proj2 (Z.eqb_neq _ _) Hst).
    erewrite bind_Ret by (eapply search_cont_none; eauto).
    cbn [Z.eqb negb]. cbv iota.
    erewrite yield_to_switch_bind by eauto.
    unfold swtch_out at 1. unfold bind at 1.
    rewrite (scheduler_release_yielded s i p Hp Hl). fold p2. fold S2.
    rewrite Hkill. cbn [final].
    unfold scheduler_pick. unfold S2. norm. lk.
    cbn [lock state p3 p2 set_pending_signals set_state]. rewrite Hl.
    rewrite !bool_decide_eq_true_2 by done. cbn [andb]. norm.
    repeat mstep.
    replace (set_lock Free (set_state RUNNING (set_lock HeldSelf p3))) with p5
      by (unfold p5, p3, p2; destruct p; cbn in *; now subst).
    rewrite (stop_wait_cont _ i p5 env);
      [ reflexivity | reflexivity | cbn [procs]; now apply list_lookup_insert_eq
      | exact Hl | exact Hst | exact Hpend ].
  - cbn [procs setp set_procs noff cpu_proc].
    rewrite list_insert_insert_eq.
    split; [now apply list_lookup_insert_eq|].
    split; [reflexivity|]. split; [reflexivity|]. split; [exact Hl|].
    split; [apply testbit_turnoff_self; exact HC|].
    split; [reflexivity|]. split; [reflexivity|].
    intros j Hj. now rewrite list_lookup_insert_ne.
Qed.

(** ** exit and wait together *)

Lemma same_but_pid q q' : same_but q q' -> pid q' = pid q.
Proof. now intros (st & par & ->). Qed.

Lemma same_but_pagetable q q' : same_but q q' -> pagetable q' = pagetable q.
Proof. now intros (st & par & ->). Qed.

Lemma wake_not_zombie me ch j q :
  state (wake me ch j q) = ZOMBIE -> state q = ZOMBIE.
Proof.
  rewrite wake_state. destruct (_ && _); [discriminate|done].
Qed.

(** X20: a process exits and its parent waits.  After [exit(status)] the
    record is a ZOMBIE that keeps its pid and holds [status].  Once the
    scheduler has released its lock, [wait] called by the parent, no
    zombie child of the parent or of the exiting process lying before it
    in the table, passes exactly [status] to [copyout] when an address
    was given and, unless that copy fails, returns the pid of the exited
    process and frees its slot; when the copy fails it returns -1. *)
Theorem wait_reaps_exited_child (s : kstate) (me par : nat) (p pq : proc)
    (status addr : Z) (env : list envstep) :
  cpu_proc s = Some me -> procs s !! me = Some p -> initproc s <> Some me ->
  locks_free s -> wait_lock s = Free -> noff s = 0%nat ->
  parent p = Some par -> par <> me -> procs s !! par = Some pq ->
  (forall j q, (j < me)%nat -> procs s !! j = Some q -> state q = ZOMBIE ->
     parent q <> Some par /\ parent q <> Some me) ->
  exists s1 c,
    exit status None s = Switched s1 /\
    procs s1 !! me = Some c /\ state c = ZOMBIE /\ xstate c = status /\
    pid c = pid p /\ parent c = Some par /\
    let s2 := set_cpu_proc (Some par) (scheduler_release me s1) in
    let c2 := set_lock Free c in
    wait addr env s2
    = if addr =? 0
      then Ret (pid p) (set_ext (freed_ext c2 (ext s1)) (setp me (freed c2) s2))
      else
        let r := copyout_int (pagetable pq) addr status (ext s1) in
        if r.1 <? 0 then Ret (-1) (set_ext r.2 s2)
        else Ret (pid p) (set_ext (freed_ext c2 r.2) (setp me (freed c2) s2)).
Proof.
  intros Hc Hp Hi LF Hw Hn Hpar Hne Hpq Hz.
  pose proof (lookup_lt_Some _ _ _ Hp) as Hlt.
  destruct (exit_switches s me p status Hc Hp Hi LF Hw Hn) as (o' & x' & p1 & Hp1 & Hex).
  unfold exit_table in Hex.
  set (p0 := set_cwd 0 (set_ofile o' p)) in *.
  set (l0 := <[me := p0]> (procs s)) in *.
  set (slots := seq 0 (length (procs s))) in *.
  set (l1 := reparent_fold (Some me) me (initproc s) slots l0) in *.
  set (ch := chan_of (parent p1)) in *.
  set (l2 := woken (Some me) ch l1) in *.
  set (c := set_state ZOMBIE (set_xstate status (set_lock HeldSelf p1))) in *.
  assert (forall j0, j0 ∈ slots -> (j0 < length l0)%nat) as Hslots.
  { intros j0 Hj0. apply elem_of_seq in Hj0. unfold l0. rewrite length_insert. lia. }
  assert (length l2 = length (procs s)) as Hlen2.
  { unfold l2, l1. rewrite woken_length, reparent_fold_length. unfold l0.
    apply length_insert. }
  assert (l0 !! me = Some p0) as Hp0 by (unfold l0; now apply list_lookup_insert_eq).
  assert (pid p1 = pid p /\ parent p1 = Some par) as [Hpid1 Hpar1].
  { destruct (reparent_fold_lookup (Some me) me (initproc s) slots l0 me p0 Hslots Hp0)
      as (q1 & Hq1 & Hsb & Hpr & _).
    fold l1 in Hq1. rewrite Hp1 in Hq1. inversion Hq1; subst q1.
    split; [now rewrite (same_but_pid _ _ Hsb)|].
    rewrite Hpr. rewrite bool_decide_eq_false_2; [exact Hpar|].
    intros [_ H]. cbn [parent p0 set_cwd set_ofile] in H. congruence. }
  (* the records of the other slots *)
  assert (forall j q, j <> me -> procs s !! j = Some q ->
            exists q2, l2 !! j = Some q2 /\ lock q2 = lock q /\
              pagetable q2 = pagetable q /\
              (state q2 = ZOMBIE -> state q = ZOMBIE) /\
              (parent q2 = parent q \/ parent q = Some me)) as Hother.
  { intros j q Hj Hq.
    destruct (reparent_fold_lookup (Some me) me (initproc s) slots l0 j q Hslots)
      as (q1 & Hq1 & Hsb & Hpr & Hst & _).
    { unfold l0. now rewrite list_lookup_insert_ne. }
    fold l1 in Hq1. exists (wake (Some me) ch j q1).
    split; [unfold l2; now rewrite woken_lookup, Hq1|].
    split; [now rewrite wake_lock, (same_but_lock _ _ Hsb)|].
    split.
    { rewrite (same_but_pagetable _ _ (same_but_wake (Some me) ch j q1)).
      apply (same_but_pagetable _ _ Hsb). }
    split.
    { intros H%wake_not_zombie.
      destruct Hst as [Hst|(_ & _ & _ & Hst)]; congruence. }
    rewrite wake_keeps_parent, Hpr.
    destruct (decide (parent q = Some me)) as [E|E]; [now right|left].
    rewrite bool_decide_eq_false_2; [done|]. now intros [_ H]. }
  set (S2 := Build_kstate (<[me := set_lock Free c]> l2) (nextpid s) (pid_lock s) Free
               (initproc s) (Some par) 0%nat (intena s) x').
  assert (set_cpu_proc (Some par)
            (scheduler_release me
               (Build_kstate (<[me := c]> l2) (nextpid s) (pid_lock s) Free (initproc s)
                  (Some me) 1%nat (intena s) x')) = S2) as HS2.
  { unfold scheduler_release, lock_set. cbn [procs].
    rewrite list_lookup_insert_eq by lia. norm. reflexivity. }
  destruct (Hother par pq Hne Hpq) as (pp & Hpp & _ & Hpt & _).
  exists (Build_kstate (<[me := c]> l2) (nextpid s) (pid_lock s) Free (initproc s)
            (Some me) 1%nat (intena s) x'), c.
  split; [exact Hex|].
  split; [cbn [procs]; apply list_lookup_insert_eq; lia|].
  split; [reflexivity|]. split; [reflexivity|]. split; [exact Hpid1|].
  split; [exact Hpar1|].
  intros s2 c2. unfold s2. rewrite HS2.
  rewrite (wait_zombie S2 par pp me c2 addr env).
  - cbn [pid xstate c2 c set_lock set_state set_xstate ext S2].
    rewrite Hpid1, Hpt. reflexivity.
  - reflexivity.
  - cbn [procs S2]. now rewrite list_lookup_insert_ne.
  - reflexivity.
  - intros j q. cbn [procs S2]. intros Hq.
    apply list_lookup_insert_Some in Hq as [(_ & <- & _)|(Hj & Hq)]; [reflexivity|].
    pose proof (lookup_lt_Some _ _ _ Hq) as Hjl. rewrite Hlen2 in Hjl.
    destruct (lookup_lt_is_Some_2 (procs s) j Hjl) as [q0 Hq0].
    destruct (Hother j q0 (not_eq_sym Hj) Hq0) as (q2 & Hq2 & Hl2 & _).
    rewrite Hq in Hq2. inversion Hq2; subst q2. rewrite Hl2. eauto.
  - split; [cbn [procs S2]; apply list_lookup_insert_eq; lia|].
    split; [exact Hpar1|]. split; [reflexivity|].
    intros j q Hj. cbn [procs S2]. rewrite list_lookup_insert_ne by lia. intros Hq Hpq2.
    pose proof (lookup_lt_Some _ _ _ Hq) as Hjl. rewrite Hlen2 in Hjl.
    destruct (lookup_lt_is_Some_2 (procs s) j Hjl) as [q0 Hq0].
    destruct (Hother j q0 ltac:(lia) Hq0) as (q2 & Hq2 & _ & _ & Hzb & Hpr).
    rewrite Hq in Hq2. inversion Hq2; subst q2.
    intros Hst. destruct (Hz j q0 Hj Hq0 (Hzb Hst)) as [H1 H2].
    destruct Hpr as [Hpr|Hpr]; congruence.
Qed.

(** ** fork again *)

Lemma pids_below_insert (l : list proc) (n n' : Z) i c :
  (forall j q, l !! j = Some q -> pid q < n) -> pid c < n' -> n <= n' ->
  forall j q, <[i := c]> l !! j = Some q -> pid q < n'.
Proof.
  intros Hl Hc Hn j q H.
  apply list_lookup_insert_Some in H as [(_ & <- & _)|(_ & H)]; [done|].
  specialize (Hl _ _ H). lia.
Qed.

(** X21: [fork] keeps the table fit for the next call and hands out a
    fresh pid.  Called with no lock held in a table whose pids lie below
    [nextpid], itself below [INT_MAX], it returns with no lock held, the lock count as before and
    all pids still below [nextpid], which has not gone down; and when it
    does not return -1, its result is the old [nextpid], the pid of the
    child, which no record had before and no other record has now. *)
Theorem fork_hands_out_a_fresh_pid (s : kstate) (me : nat) (p : proc) (tf : trapframe_t) :
  cpu_proc s = Some me -> procs s !! me = Some p -> state p <> UNUSED ->
  trapframe p = Some tf -> quiet s -> pids_below s -> nextpid s < 2 ^ 31 - 1 ->
  returns (fork s) (fun v s' =>
    quiet s' /\ noff s' = noff s /\ cpu_proc s' = Some me /\
    pids_below s' /\ nextpid s <= nextpid s' /\
    (v = -1 \/
     (v = nextpid s /\
      (forall j q, procs s !! j = Some q -> pid q <> v) /\
      exists ni c, procs s' !! ni = Some c /\ pid c = v /\ state c = RUNNABLE /\
        forall j q, j <> ni -> procs s' !! j = Some q -> pid q <> v))).
Proof.
  intros Hc Hp Hsp Htf (LF & Hpl & Hwl) (Hpos & Hbelow) Hmax.
  assert (s32 (nextpid s + 1) = nextpid s + 1) as Hs32 by (apply s32_small; lia).
  assert (forall ni np, first_unused s ni np -> ni <> me) as Hnime.
  { intros ni np (Hnp & Hun & _) ->. rewrite Hp in Hnp. inversion Hnp; subst. done. }
  assert (forall s',
            (exists ni c, procs s' = <[ni := c]> (procs s) /\ lock c = Free /\ pid c = 0) ->
            nextpid s' = nextpid s + 1 -> pid_lock s' = Free -> wait_lock s' = Free ->
            noff s' = noff s -> cpu_proc s' = Some me ->
            quiet s' /\ noff s' = noff s /\ cpu_proc s' = Some me /\
            pids_below s' /\ nextpid s <= nextpid s') as Hrolled.
  { intros s' (ni & c & Hl' & Hlc & Hpc) Hn' Hpl' Hwl' Hno' Hc'.
    unfold quiet, pids_below, locks_free. rewrite Hl', Hn'.
    split; [split; [|done]|].
    - intros j q. apply locks_free_insert; [exact LF|exact Hlc].
    - split; [exact Hno'|]. split; [exact Hc'|]. split; [|lia]. split; [lia|].
      apply pids_below_insert with (n := nextpid s); [exact Hbelow|lia|lia]. }
  unfold fork, myproc. mstep. apply returns_bind.
  apply allocproc_returns; [exact LF|exact Hpl| | |].
  - intros _. apply returns_Ret.
    split; [done|]. split; [reflexivity|]. split; [exact Hc|].
    split; [done|]. split; [lia|]. now left.
  - intros ni np x FU. rewrite Hs32. apply returns_Ret.
    match goal with
    | |- quiet ?S /\ _ =>
        destruct (Hrolled S) as (H1 & H2 & H3 & H4 & H5);
          [ eexists _, _; split; [reflexivity|split; reflexivity]
          | reflexivity | reflexivity | exact Hwl | reflexivity | exact Hc | ]
    end.
    split; [exact H1|]. split; [exact H2|]. split; [exact H3|].
    split; [exact H4|]. split; [exact H5|]. now left.
  - intros ni np x tf0 pt FU Hpt. pose proof (Hnime _ _ FU) as Hne.
    pose proof FU as (Hnp & Hun & _). pose proof (lookup_lt_Some _ _ _ Hnp) as Hlt.
    rewrite Hs32. rewrite Hc. unfold deref. repeat mstep.
    destruct (_ <? 0) eqn:Erc; cbv iota.
    + repeat xstep. apply returns_Ret.
      match goal with
      | |- quiet ?S /\ _ =>
          destruct (Hrolled S) as (H1 & H2 & H3 & H4 & H5);
            [ eexists _, _; split; [reflexivity|split; reflexivity]
            | reflexivity | reflexivity | first [exact Hwl|reflexivity] | reflexivity
            | first [exact Hc|reflexivity] | ]
      end.
      split; [exact H1|]. split; [exact H2|]. split; [exact H3|].
      split; [exact H4|]. split; [exact H5|]. now left.
    + repeat mstep.
      erewrite bind_Ret.
      2:{ apply copy_handlers_eq; [congruence | lk | lk ]. }
      norm. repeat mstep. rewrite Htf.
      cbn [trapframe set_signal_handlers set_signals_mask set_pending_signals set_sz].
      change (trapframe (alloc_done (nextpid s) tf0 pt np)) with (Some tf0).
      cbv iota. repeat mstep.
      match goal with
      | |- returns (bind (dup_files _ _ _) _ ?S) _ =>
          match S with
          | context [<[ni := ?c]> (procs s)] =>
              destruct (dup_files_eq me ni (seq 0 NOFILE) S p c)
                as (o' & x' & Hdup); [congruence | lk | lk |]
          end
      end.
      erewrite bind_Ret by exact Hdup. norm.
      repeat mstep. apply returns_Ret.
      unfold quiet, pids_below.
      cbn [procs nextpid pid_lock wait_lock noff cpu_proc].
      split; [split; [|split; reflexivity]|].
      { intros j q. apply locks_free_insert; [exact LF|reflexivity]. }
      split; [reflexivity|]. split; [reflexivity|]. split.
      { split; [lia|].
        apply pids_below_insert with (n := nextpid s); [exact Hbelow| |lia].
        match goal with |- pid ?c < _ => change (pid c) with (nextpid s) end. lia. }
      split; [lia|]. right. split; [reflexivity|]. split.
      { intros j q Hq. specialize (Hbelow _ _ Hq).
        match goal with |- _ <> pid ?c => change (pid c) with (nextpid s) end. lia. }
      eexists ni, _. split; [apply list_lookup_insert_eq; exact Hlt|].
      split; [transitivity (nextpid s); reflexivity|]. split; [reflexivity|].
      intros j q Hj. rewrite list_lookup_insert_ne by (apply not_eq_sym; exact Hj).
      intros Hq. specialize (Hbelow _ _ Hq).
      match goal with |- _ <> pid ?c => change (pid c) with (nextpid s) end. lia.
Qed.

(** * Boot, [growproc], the scheduler loop and [procdump] *)

Context {V : Collab2}.

(** ** growproc *)

(** X22: [growproc] returns 0 or -1 and fails only when asked to grow:
    with [n <= 0] it returns 0.  A failure leaves the process table as it
    was; a success changes one field, the size of the caller, and the
    size stored always fits 32 bits.  [growproc(0)] calls no collaborator
    and, for a size that fits 32 bits, changes nothing. *)
Theorem growproc_fails_only_when_growing (s : kstate) (i : nat) (p : proc) (n : Z) :
  cpu_proc s = Some i -> procs s !! i = Some p ->
  exists v s',
    growproc n s = Ret v s' /\
    ((v = -1 /\ 0 < n /\ procs s' = procs s) \/
     (v = 0 /\ exists z, 0 <= z < 2 ^ 32 /\ procs s' = <[i := set_sz z p]> (procs s))) /\
    (n = 0 -> ext s' = ext s /\ (0 <= sz p < 2 ^ 32 -> s' = s)).
Proof.
  intros Hc Hp. pose proof (lookup_lt_Some _ _ _ Hp) as Hlt.
  assert (forall x, 0 <= u32 x < 2 ^ 32) as Hu by (intros x; apply Z.mod_pos_bound; lia).
  unfold growproc.
  destruct (Z.gtb_spec n 0) as [Hpos|Hle].
  - destruct (u32 (uvmalloc (pagetable p) (u32 (sz p)) (u32 (u32 (sz p) + n)) (ext s)).1
              =? 0) eqn:E.
    + eexists _, _. split; [|split].
      * repeat mstep. rewrite E. reflexivity.
      * left. split; [reflexivity|]. split; [lia|reflexivity].
      * intros ->. lia.
    + eexists _, _. split; [|split].
      * repeat mstep. rewrite E. repeat mstep. reflexivity.
      * right. split; [reflexivity|]. eexists. split; [apply Hu|reflexivity].
      * intros ->. lia.
  - destruct (Z.ltb_spec n 0) as [Hneg|Hge].
    + eexists _, _. split; [|split].
      * repeat mstep. reflexivity.
      * right. split; [reflexivity|]. eexists. split; [apply Hu|reflexivity].
      * intros ->. lia.
    + eexists _, _. split; [|split].
      * repeat mstep. reflexivity.
      * right. split; [reflexivity|]. eexists. split; [apply Hu|reflexivity].
      * intros _. split; [reflexivity|]. intros Hsz. unfold u32.
        rewrite Z.mod_small by done.
        replace (set_sz (sz p) p) with p by now destruct p.
        rewrite list_insert_id by done. apply kstate_eta.
Qed.

(** ** The scheduler loop *)

Lemma scheduler_body_skip s i p run :
  procs s !! i = Some p -> lock p = Free -> state p <> RUNNABLE ->
  scheduler_body run i s = Ret None s.
Proof.
  intros Hp Hl Hs. pose proof (lookup_lt_Some _ _ _ Hp) as Hlt.
  unfold scheduler_body. repeat mstep. cbn [state set_lock].
  rewrite bool_decide_eq_false_2 by done. repeat mstep. unfold ret.
  rewrite (set_lock_free_id p Hl), list_insert_id by done. now rewrite kstate_eta.
Qed.

(** X23: the body of the scheduler's scan and the hand-over that [sched]
    sees are the same thing.  On a slot that is not RUNNABLE the body
    changes nothing.  On a RUNNABLE slot it hands the process the state
    [scheduler_pick] describes (record RUNNING, lock held, the core's
    current process set); and when the process switches back holding its
    lock and nothing else, the body leaves the state
    [scheduler_release] describes: no current process, the lock
    released. *)
Theorem scheduler_body_hands_over (s : kstate) (i : nat) (p : proc) (run : nat -> envstep) :
  procs s !! i = Some p -> lock p = Free -> noff s = 0%nat ->
  (state p <> RUNNABLE ->
     scheduler_pick i s = None /\ scheduler_body run i s = Ret None s) /\
  (state p = RUNNABLE ->
     exists s1,
       scheduler_pick i s = Some (set_noff 1%nat s1) /\
       s1 = set_cpu_proc (Some i) (setp i (set_state RUNNING (set_lock HeldSelf p)) s) /\
       forall p',
         procs (run i (set_noff 1%nat s1)) !! i = Some p' -> lock p' = HeldSelf ->
         noff (run i (set_noff 1%nat s1)) = 1%nat ->
         scheduler_body run i s
         = Ret None (scheduler_release i (run i (set_noff 1%nat s1)))).
Proof.
  intros Hp Hl Hn. pose proof (lookup_lt_Some _ _ _ Hp) as Hlt. split.
  - intros Hs. split; [|now apply scheduler_body_skip with (p := p)].
    unfold scheduler_pick. rewrite Hp.
    rewrite (bool_decide_eq_false_2 (state p = RUNNABLE)) by done.
    now rewrite andb_false_r.
  - intros Hs. eexists. split; [|split; [reflexivity|]].
    + unfold scheduler_pick. rewrite Hp.
      rewrite !bool_decide_eq_true_2 by done. cbn [andb]. norm. reflexivity.
    + intros p' Hp' Hl' Hn'.
      unfold scheduler_body. repeat mstep. cbn [state set_lock].
      rewrite bool_decide_eq_true_2 by done. repeat mstep.
      rewrite Hn.
      match type of Hp' with
      | procs ?R !! _ = _ =>
          match goal with
          | |- context [run i ?S] => change (run i S) with R
          end;
          remember R as R' eqn:ER
      end.
      clear ER. pose proof (lookup_lt_Some _ _ _ Hp') as Hlt'.
      erewrite bind_Ret by (eapply release_proc; [cbn [procs]; exact Hp'|exact Hl'|exact Hn']).
      unfold ret, scheduler_release, lock_set. rewrite Hp'. norm. reflexivity.
Qed.

(** X24: a round of the scheduler over a table with no RUNNABLE record
    and no lock held runs no process and leaves the kernel state as it
    was. *)
Theorem scheduler_round_idle (s : kstate) (run : nat -> envstep) :
  locks_free s -> (forall j q, procs s !! j = Some q -> state q <> RUNNABLE) ->
  scheduler_round run s = Ret tt s.
Proof.
  intros LF Hno. unfold scheduler_round. erewrite bind_Ret; [reflexivity|].
  unfold for_each_proc. apply scan_skip. intros j Hj. apply elem_of_seq in Hj.
  destruct (lookup_lt_is_Some_2 (procs s) j) as [q Hq]; [lia|].
  eapply scheduler_body_skip; eauto.
Qed.

(** ** Boot *)

Lemma procinit_body_eq s j q :
  procs s !! j = Some q ->
  procinit_body j s
  = Ret None (setp j (set_kstack (KSTACK (Z.of_nat j)) (set_lock Free q)) s).
Proof.
  intros Hq. pose proof (lookup_lt_Some _ _ _ Hq) as Hlt.
  unfold procinit_body, initlock. mstep. unfold lock_set. rewrite Hq. norm.
  repeat mstep. reflexivity.
Qed.

Lemma procinit_scan s l1 l2 :
  procs s = l1 ++ l2 ->
  scan procinit_body (seq (length l1) (length l2)) s
  = Ret None
      (set_procs
         (l1 ++ imap (fun j q => set_kstack (KSTACK (Z.of_nat (length l1 + j)))
                                   (set_lock Free q)) l2) s).
Proof.
  revert s l1. induction l2 as [|q l2 IH]; intros s l1 Hs.
  - cbn [length seq scan imap]. unfold ret. rewrite <- Hs. now destruct s.
  - cbn [length seq scan].
    erewrite bind_Ret.
    2:{ apply procinit_body_eq with (q := q). rewrite Hs. now apply list_lookup_middle. }
    set (q' := set_kstack (KSTACK (Z.of_nat (length l1))) (set_lock Free q)).
    specialize (IH (setp (length l1) q' s) (l1 ++ [q'])).
    rewrite length_app in IH. cbn [length] in IH.
    replace (length l1 + 1)%nat with (S (length l1)) in IH by lia.
    cbv beta iota. rewrite IH.
    + norm. do 2 f_equal.
      rewrite <- app_assoc. cbn [app]. f_equal.
      rewrite imap_cons. rewrite Nat.add_0_r. f_equal.
      apply imap_ext. intros j x _. cbn [compose]. do 3 f_equal. lia.
    + norm. rewrite Hs. rewrite insert_app_r_alt by lia.
      rewrite Nat.sub_diag. cbn [insert list_insert]. now rewrite <- app_assoc.
Qed.

(** X25: [procinit] returns with every lock of [proc.c] free, whatever
    they were, and with the kernel stack address of slot [j] set to
    [KSTACK(j)]; every other field of every record, and the rest of the
    kernel state, is as it was. *)
Theorem procinit_frees_locks_and_sets_stacks (s : kstate) :
  exists s',
    procinit s = Ret tt s' /\
    quiet s' /\
    (forall j q, procs s !! j = Some q ->
       procs s' !! j = Some (set_kstack (KSTACK (Z.of_nat j)) (set_lock Free q))) /\
    length (procs s') = length (procs s) /\
    s' = set_wait_lock Free (set_pid_lock Free (set_procs (procs s') s)).
Proof.
  eexists. split.
  - unfold procinit, initlock. rewrite !bind_modify. cbn [lock_set]. norm.
    erewrite bind_Ret.
    2:{ unfold for_each_proc. cbn [procs].
        change (seq 0 (length (procs s)))
          with (seq (length (@nil proc)) (length (procs s))).
        apply (procinit_scan _ [] (procs s)). reflexivity. }
    reflexivity.
  - cbn [app length Nat.add procs set_procs]. unfold quiet.
    cbn [pid_lock wait_lock set_procs procs].
    split; [split; [|split; reflexivity]|].
    + intros j q Hq. cbn [procs set_procs] in Hq. rewrite list_lookup_imap in Hq.
      destruct (procs s !! j); [|discriminate]. cbn in Hq. now inversion Hq.
    + split; [|split; [apply length_imap|reflexivity]].
      intros j q Hq. now rewrite list_lookup_imap, Hq.
Qed.

(** X26: [userinit] takes the first UNUSED slot for the first process,
    and what it does is decided by [allocproc].  When the collaborators
    give [allocproc] its pages, [allocproc] returns the slot and the slot
    becomes [initproc]: it is RUNNABLE and unlocked, has the pid that
    [nextpid] held, a user memory of one page, a trap frame that starts
    at address 0 with the stack pointer at the top of that page, and the
    name "initcode"; the lock count is as before and the other slots are
    untouched.  When they do not, [allocproc] returns null and [userinit]
    uses the null result: [initproc] is null and the kernel traps. *)
Theorem userinit_sets_up_first_process (s : kstate) (ni : nat) (np : proc) :
  locks_free s -> pid_lock s = Free -> first_unused s ni np ->
  match alloc_pages (ext s) with
  | None =>
      exists s0 s',
        allocproc s = Ret None s0 /\
        userinit s = Panic "kerneltrap" s' /\ initproc s' = None /\
        procs s' = procs s0 /\ nextpid s' = s32 (nextpid s + 1)
  | Some (tf0, pt, x4) =>
      exists s0 s' c tf,
        allocproc s = Ret (Some ni) s0 /\
        userinit s = Ret tt s' /\ initproc s' = Some ni /\ procs s' !! ni = Some c /\
        state c = RUNNABLE /\ lock c = Free /\ pid c = nextpid s /\ sz c = PGSIZE /\
        trapframe c = Some tf /\ epc tf = 0 /\ sp tf = PGSIZE /\
        name c = "initcode"%string /\ pagetable c = pt /\ pt <> 0 /\
        ctx_ra (context c) = forkret /\ ctx_sp (context c) = u64 (kstack np + PGSIZE) /\
        pending_signals c = 0 /\ signal_handlers c = replicate 32 SIG_DFL /\
        nextpid s' = s32 (nextpid s + 1) /\ noff s' = noff s /\
        (forall j, j <> ni -> procs s' !! j = procs s !! j)
  end.
Proof.
  intros LF Hpl FU. pose proof FU as (Hnp & Hun & _).
  pose proof (lookup_lt_Some _ _ _ Hnp) as Hlt.
  pose proof (allocproc_cases s ni np LF Hpl FU) as Ha.
  destruct (alloc_pages (ext s)) as [[[tf0 pt] x4]|] eqn:Ea.
  - pose proof (alloc_pages_Some _ _ _ _ Ea) as Hpt.
    eexists _, _, _, _. split; [exact Ha|]. split.
    + unfold userinit. erewrite bind_Ret by exact Ha.
      unfold deref. repeat mstep.
      change (trapframe (set_sz PGSIZE (alloc_done (nextpid s) tf0 pt np)))
        with (Some tf0).
      cbv iota. repeat mstep. reflexivity.
    + cbn [initproc procs nextpid noff].
      split; [reflexivity|].
      split; [apply list_lookup_insert_eq; exact Hlt|].
      repeat split; try reflexivity; try exact Hpt.
      intros j Hj. now rewrite list_lookup_insert_ne.
  - destruct Ha as (x' & Ha). eexists _, _. split; [exact Ha|]. split.
    + unfold userinit. erewrite bind_Ret by exact Ha.
      mstep. unfold deref. rewrite bind_panic. reflexivity.
    + repeat split; reflexivity.
Qed.

(** ** procdump *)

Lemma procdump_loop_eq s l1 l2 :
  procs s = l1 ++ l2 ->
  procdump_loop (seq (length l1) (length l2)) s
  = Ret (omap (fun q => if bool_decide (state q = UNUSED) then None
                        else Some (pid q, default "???"%string (states (state q)), name q))
           l2) s.
Proof.
  revert l1. induction l2 as [|q l2 IH]; intros l1 Hs; [reflexivity|].
  cbn [length seq procdump_loop omap list_omap].
  erewrite bind_Ret by (apply getp_eq; rewrite Hs; now apply list_lookup_middle).
  specialize (IH (l1 ++ [q])). rewrite length_app in IH. cbn [length] in IH.
  replace (length l1 + 1)%nat with (S (length l1)) in IH by lia.
  rewrite <- app_assoc in IH. specialize (IH Hs).
  destruct (bool_decide (state q = UNUSED)).
  - exact IH.
  - erewrite bind_Ret by exact IH. reflexivity.
Qed.

(** X27: [procdump] prints one line for each record that is not UNUSED,
    in table order, with its pid, the label of its state and its name; a
    record in state USED, which has no label in the table of names, is
    printed as "???".  It takes no lock, so it returns whatever locks are
    held, and it leaves the kernel state as it was. *)
Theorem procdump_lists_slots_in_use (s : kstate) :
  procdump s
  = Ret (omap (fun q => if bool_decide (state q = UNUSED) then None
                        else Some (pid q, default "???"%string (states (state q)), name q))
           (procs s)) s /\
  (forall q, state q = USED -> default "???"%string (states (state q)) = "???"%string) /\
  (forall q, state q <> USED -> states (state q) <> None).
Proof.
  split; [|split].
  - unfold procdump.
    change (seq 0 (length (procs s))) with (seq (length (@nil proc)) (length (procs s))).
    now apply procdump_loop_eq.
  - intros q ->. reflexivity.
  - intros q Hq. destruct (state q); done.
Qed.

(** ** A parent blocked in wait *)

Lemma exit_table_other s me o' p ch0 j q :
  j <> me -> procs s !! j = Some q ->
  exists q2,
    woken (Some me) ch0
      (reparent_fold (Some me) me (initproc s) (seq 0 (length (procs s)))
         (<[me := set_cwd 0 (set_ofile o' p)]> (procs s))) !! j = Some q2 /\
    lock q2 = lock q /\
    (state q2 = ZOMBIE -> state q = ZOMBIE) /\
    (parent q2 = parent q \/ parent q = Some me) /\
    (state q = SLEEPING -> chan q = ch0 -> state q2 = RUNNABLE).
Proof.
  intros Hj Hq.
  destruct (reparent_fold_lookup (Some me) me (initproc s) (seq 0 (length (procs s)))
              (<[me := set_cwd 0 (set_ofile o' p)]> (procs s)) j q)
    as (q1 & Hq1 & Hsb & Hpr & Hst & _).
  { intros j0 Hj0. apply elem_of_seq in Hj0. rewrite length_insert. lia. }
  { now rewrite list_lookup_insert_ne. }
  exists (wake (Some me) ch0 j q1).
  split; [now rewrite woken_lookup, Hq1|].
  split; [now rewrite wake_lock, (same_but_lock _ _ Hsb)|].
  split.
  { intros H%wake_not_zombie.
    destruct Hst as [Hst|(_ & _ & _ & Hst)]; congruence. }
  split.
  { rewrite wake_keeps_parent, Hpr.
    destruct (decide (parent q = Some me)) as [E|E]; [now right|left].
    rewrite bool_decide_eq_false_2; [done|]. now intros [_ H]. }
  intros Hsl Hch. rewrite wake_state, (same_but_chan _ _ Hsb).
  rewrite (bool_decide_eq_true_2 (Some j <> Some me)) by congruence.
  rewrite (bool_decide_eq_true_2 (chan q = ch0)) by done.
  destruct Hst as [Hst|(_ & _ & _ & Hst)]; rewrite Hst.
  - now rewrite bool_decide_eq_true_2.
  - reflexivity.
Qed.

Lemma wait_after_acquire s me addr env :
  cpu_proc s = Some me -> wait_lock s = Free ->
  wait addr env s
  = wait_loop (Some me) addr env (set_noff (S (noff s)) (set_wait_lock HeldSelf s)).
Proof.
  intros Hc Hw. unfold wait, myproc. mstep. rewrite Hc. mstep. rewrite ?Hc. reflexivity.
Qed.

(** X28: a parent with a living child and no zombie blocks in [wait];
    when the child then calls [exit(status)] while the parent is switched
    out, the [wakeup] in [exit] makes the parent RUNNABLE, and once the
    scheduler has picked it again the same call of [wait] finds the
    zombie: unless an address was given and the copy to it fails, it
    returns the child's pid and the child's slot is UNUSED; the parent is
    RUNNING, sleeps on no channel and holds no lock. *)
Theorem wait_blocks_until_child_exits (s : kstate) (par ch : nat) (pq p : proc)
    (status addr : Z) (env : list envstep) :
  cpu_proc s = Some par -> procs s !! par = Some pq -> procs s !! ch = Some p ->
  parent p = Some par -> par <> ch -> initproc s <> Some ch ->
  locks_free s -> wait_lock s = Free -> noff s = 0%nat -> killed pq = 0 ->
  no_zombie s par ->
  (forall j q, (j < ch)%nat -> procs s !! j = Some q -> parent q = Some ch ->
     state q <> ZOMBIE) ->
  let child_exits : envstep :=
    fun s0 => scheduler_release ch (final (exit status None (set_cpu_proc (Some ch) s0))) in
  wait addr [] s = Switched (asleep par pq s) /\
  exists v s' c q,
    wait addr (child_exits :: env) s = Ret v s' /\
    procs s' !! ch = Some c /\ procs s' !! par = Some q /\
    ((v = pid p /\ state c = UNUSED /\ pid c = 0) \/
     (v = -1 /\ addr <> 0 /\ state c = ZOMBIE /\ xstate c = status /\ pid c = pid p)) /\
    state q = RUNNING /\ chan q = Null /\ lock q = Free /\ lock c = Free /\
    wait_lock s' = Free /\ noff s' = 0%nat /\ cpu_proc s' = Some par.
Proof.
  intros Hc Hpq Hp Hpar Hne Hi LF Hw Hn Hk NZ NZc child_exits.
  pose proof (lookup_lt_Some _ _ _ Hpq) as Hltp.
  pose proof (lookup_lt_Some _ _ _ Hp) as Hltc.
  assert (has_child s par) as HC by (exists ch, p; done).
  split; [now apply wait_sleeps|].
  set (qa := set_state SLEEPING (set_chan (ProcPtr par) (set_lock Free pq))).
  set (sA := Build_kstate (<[par := qa]> (procs s)) (nextpid s) (pid_lock s) Free
               (initproc s) None 0%nat (intena s) (ext s)).
  assert (scheduler_release par (asleep par pq s) = sA) as HsA.
  { unfold asleep, scheduler_release, lock_set. norm. lk. norm. rewrite Hw.
    reflexivity. }
  set (sB := set_cpu_proc (Some ch) sA).
  assert (procs sB !! ch = Some p) as HpB.
  { cbn [procs sB sA set_cpu_proc]. now rewrite list_lookup_insert_ne. }
  assert (locks_free sB) as LFB.
  { intros j r. cbn [procs sB sA set_cpu_proc]. apply locks_free_insert; [exact LF|].
    reflexivity. }
  destruct (exit_switches sB ch p status eq_refl HpB Hi LFB eq_refl eq_refl)
    as (o' & x' & p1 & Hp1 & Hex).
  unfold exit_table in Hex.
  change (initproc sB) with (initproc s) in *.
  change (nextpid sB) with (nextpid s) in *.
  change (pid_lock sB) with (pid_lock s) in *.
  change (intena sB) with (intena s) in *.
  set (l1 := reparent_fold (Some ch) ch (initproc s) (seq 0 (length (procs sB)))
               (<[ch := set_cwd 0 (set_ofile o' p)]> (procs sB))) in *.
  set (l2 := woken (Some ch) (chan_of (parent p1)) l1) in *.
  set (c := set_state ZOMBIE (set_xstate status (set_lock HeldSelf p1))) in *.
  assert (length l2 = length (procs s)) as Hlen2.
  { unfold l2, l1. rewrite woken_length, reparent_fold_length, length_insert.
    cbn [procs sB sA set_cpu_proc]. apply length_insert. }
  assert (pid p1 = pid p /\ parent p1 = Some par) as [Hpid1 Hpar1].
  { destruct (reparent_fold_lookup (Some ch) ch (initproc s) (seq 0 (length (procs sB)))
                (<[ch := set_cwd 0 (set_ofile o' p)]> (procs sB)) ch
                (set_cwd 0 (set_ofile o' p)))
      as (q1 & Hq1 & Hsb & Hpr & _).
    { intros j0 Hj0. apply elem_of_seq in Hj0. rewrite length_insert. lia. }
    { apply list_lookup_insert_eq. cbn [procs sB sA set_cpu_proc].
      rewrite length_insert. lia. }
    fold l1 in Hq1. rewrite Hp1 in Hq1. inversion Hq1; subst q1.
    split; [now rewrite (same_but_pid _ _ Hsb)|].
    rewrite Hpr. rewrite bool_decide_eq_false_2; [exact Hpar|].
    intros [_ H]. cbn [parent set_cwd set_ofile] in H. congruence. }
  (* the parent has been woken *)
  destruct (exit_table_other sB ch o' p (chan_of (parent p1)) par qa Hne)
    as (q2 & Hq2 & Hl2 & _ & _ & Hrun).
  { cbn [procs sB sA set_cpu_proc]. now apply list_lookup_insert_eq. }
  change (l2 !! par = Some q2) in Hq2.
  assert (state q2 = RUNNABLE) as Hst2.
  { apply Hrun; [reflexivity|]. rewrite Hpar1. reflexivity. }
  change (lock qa) with Free in Hl2.
  set (c2 := set_lock Free c).
  set (q3 := set_lock Free (set_chan Null (set_state RUNNING (set_lock HeldSelf q2)))).
  set (s2 := Build_kstate
               (<[par := set_state RUNNING (set_lock HeldSelf q2)]> (<[ch := c2]> l2))
               (nextpid s) (pid_lock s) Free (initproc s) (Some par) 1%nat (intena s) x').
  assert (scheduler_pick par (child_exits (scheduler_release par (asleep par pq s)))
          = Some s2) as Hpick.
  { rewrite HsA. unfold child_exits. fold sB. rewrite Hex. cbn [final].
    unfold scheduler_release, lock_set. cbn [procs].
    rewrite list_lookup_insert_eq by lia. norm.
    unfold scheduler_pick. cbn [procs].
    rewrite list_lookup_insert_ne by done. rewrite Hq2.
    rewrite !bool_decide_eq_true_2 by done. cbn [andb]. norm. reflexivity. }
  set (S3 := Build_kstate (<[par := q3]> (<[ch := c2]> l2))
               (nextpid s) (pid_lock s) Free (initproc s) (Some par) 0%nat (intena s) x').
  assert (wait addr (child_exits :: env) s = wait addr env S3) as Hwait.
  { etransitivity;
      [exact (wait_retries s par pq addr child_exits env s2 Hc Hpq Hw LF NZ HC Hk Hn Hpick
                eq_refl)|].
    rewrite (wait_after_acquire S3 par) by reflexivity.
    f_equal. unfold after_sleep. cbn [procs s2].
    rewrite list_lookup_insert_eq by (rewrite length_insert; lia).
    norm. unfold S3, s2.
    cbn [procs nextpid pid_lock initproc cpu_proc noff intena ext].
    rewrite list_insert_insert_eq. reflexivity. }
  assert (procs S3 !! par = Some q3) as Hq3.
  { cbn [procs S3]. apply list_lookup_insert_eq. rewrite length_insert. lia. }
  assert (procs S3 !! ch = Some c2) as Hc2.
  { cbn [procs S3]. rewrite list_lookup_insert_ne by done.
    apply list_lookup_insert_eq. lia. }
  assert (forall j r, j <> par -> j <> ch -> procs S3 !! j = Some r ->
            exists q0, procs s !! j = Some q0 /\ lock r = lock q0 /\
              (state r = ZOMBIE -> state q0 = ZOMBIE) /\
              (parent r = parent q0 \/ parent q0 = Some ch)) as Hother.
  { intros j r Hjp Hjc Hr. cbn [procs S3] in Hr.
    rewrite !list_lookup_insert_ne in Hr by done.
    pose proof (lookup_lt_Some _ _ _ Hr) as Hjl. rewrite Hlen2 in Hjl.
    destruct (lookup_lt_is_Some_2 (procs s) j Hjl) as [q0 Hq0].
    destruct (exit_table_other sB ch o' p (chan_of (parent p1)) j q0 Hjc)
      as (r' & Hr' & Hlr & Hzr & Hpr & _).
    { cbn [procs sB sA set_cpu_proc]. now rewrite list_lookup_insert_ne. }
    change (l2 !! j = Some r') in Hr'. rewrite Hr in Hr'. inversion Hr'; subst r'.
    exists q0. done. }
  rewrite (wait_zombie S3 par q3 ch c2 addr env) in Hwait.
  - assert (procs (setp ch (freed c2) S3) !! par = Some q3) as Hq3'.
    { cbn [procs setp set_procs S3]. rewrite list_lookup_insert_ne by done.
      exact Hq3. }
    assert (procs (setp ch (freed c2) S3) !! ch = Some (freed c2)) as Hc2'.
    { cbn [procs setp set_procs]. apply list_lookup_insert_eq.
      now apply lookup_lt_Some in Hc2. }
    destruct (addr =? 0) eqn:Ea.
    + do 4 eexists.
      split; [exact Hwait|]. split; [exact Hc2'|]. split; [exact Hq3'|].
      split; [left; split; [exact Hpid1|split; reflexivity]|].
      repeat split; reflexivity.
    + cbv zeta in Hwait. destruct (_ <? 0).
      * do 4 eexists.
        split; [exact Hwait|]. split; [exact Hc2|]. split; [exact Hq3|].
        split; [right; repeat split; try reflexivity; [|exact Hpid1]|].
        { intros ->. discriminate Ea. }
        repeat split; reflexivity.
      * do 4 eexists.
        split; [exact Hwait|]. split; [exact Hc2'|]. split; [exact Hq3'|].
        split; [left; split; [exact Hpid1|split; reflexivity]|].
        repeat split; reflexivity.
  - reflexivity.
  - exact Hq3.
  - reflexivity.
  - intros j r Hr.
    destruct (decide (j = par)) as [->|Hjp].
    { rewrite Hq3 in Hr. now inversion Hr. }
    destruct (decide (j = ch)) as [->|Hjc].
    { rewrite Hc2 in Hr. now inversion Hr. }
    destruct (Hother j r Hjp Hjc Hr) as (q0 & Hq0 & -> & _). eauto.
  - split; [exact Hc2|]. split; [exact Hpar1|]. split; [reflexivity|].
    intros j r Hj Hr Hpr.
    destruct (decide (j = par)) as [->|Hjp].
    { rewrite Hq3 in Hr. inversion Hr; subst r. discriminate. }
    destruct (Hother j r Hjp ltac:(lia) Hr) as (q0 & Hq0 & _ & Hz & Hp0).
    intros Hst. specialize (Hz Hst).
    destruct Hp0 as [Hp0|Hp0].
    + eapply NZ; eauto. congruence.
    + eapply (NZc j q0); eauto.
Qed.

(** ** What the lock left held by a failed kill does next *)

Lemma bind_Panic {A B} (m : M A) (k : A -> M B) s msg s' :
  m s = Panic msg s' -> bind m k s = Panic msg s'.
Proof. intros E. unfold bind. now rewrite E. Qed.

Lemma acquire_held s i p :
  procs s !! i = Some p -> lock p = HeldSelf ->
  acquire (ProcLock i) s = Panic "acquire" s.
Proof.
  intros H L. unfold acquire. cbn [lock_of]. rewrite H.
  cbn [fmap option_fmap option_map]. now rewrite L.
Qed.

Lemma wait_scan_pass me addr l1 l2 s :
  (forall j, j ∈ l1 -> exists q, procs s !! j = Some q /\ lock q = Free /\
     (parent q = me -> state q <> ZOMBIE)) ->
  forall hk, exists hk', wait_scan me addr (l1 ++ l2) hk s = wait_scan me addr l2 hk' s.
Proof.
  induction l1 as [|j l1 IH]; intros H hk.
  - exists hk. reflexivity.
  - destruct (H j) as (q & Hq & L & Hz); [left|].
    pose proof (lookup_lt_Some _ _ _ Hq) as Hlt.
    assert (forall j0, j0 ∈ l1 -> exists q0, procs s !! j0 = Some q0 /\ lock q0 = Free /\
              (parent q0 = me -> state q0 <> ZOMBIE)) as H'.
    { intros j0 Hj0. apply H. now right. }
    destruct (bool_decide (parent q = me)) eqn:E.
    + destruct (IH H' true) as (hk' & E'). exists hk'. rewrite <- E'.
      apply bool_decide_eq_true in E.
      cbn [app wait_scan]. mstep. rewrite bool_decide_eq_true_2 by done.
      mstep. mstep. cbn [state set_lock].
      rewrite bool_decide_eq_false_2 by auto.
      mstep. rewrite (set_lock_free_id q L), list_insert_id by done.
      rewrite kstate_eta. reflexivity.
    + destruct (IH H' hk) as (hk' & E'). exists hk'. rewrite <- E'.
      cbn [app wait_scan]. mstep. rewrite E. reflexivity.
Qed.

(** X29: the record lock that [kill] leaves held when its target is
    already killed, a ZOMBIE or UNUSED brings the kernel down at the
    next visit of the record: a second [kill] of the same pid panics in
    [acquire], and so does [wait] in the parent of the target when it
    reaches the record, a zombie child the parent can no longer reap. *)
Theorem failed_kill_then_kill_or_wait_panics (s : kstate) (pid0 signum : Z) (i : nat)
    (p : proc) :
  locks_free s -> 0 <= signum <= 31 -> first_pid s pid0 i p ->
  (killed p <> 0 \/ state p = ZOMBIE \/ state p = UNUSED) ->
  exists s1,
    kill pid0 signum s = Ret (-1) s1 /\
    (forall k, 0 <= k <= 31 -> kill pid0 k s1 = Panic "acquire" s1) /\
    (forall me addr env,
       cpu_proc s = Some me -> wait_lock s = Free -> parent p = Some me ->
       (forall j q, (j < i)%nat -> procs s !! j = Some q -> parent q = Some me ->
          state q <> ZOMBIE) ->
       wait addr env s1
       = Panic "acquire" (set_noff (S (noff s1)) (set_wait_lock HeldSelf s1))).
Proof.
  intros LF Hs FP B. pose proof FP as (H & P & F).
  pose proof (lookup_lt_Some _ _ _ H) as Hlt.
  set (s1 := set_noff (S (noff s)) (setp i (set_lock HeldSelf p) s)).
  assert (procs s1 !! i = Some (set_lock HeldSelf p)) as H1.
  { cbn [procs s1 set_noff setp set_procs]. now apply list_lookup_insert_eq. }
  assert (forall j, (j < i)%nat -> exists q, procs s1 !! j = Some q /\ procs s !! j = Some q)
    as Hbefore.
  { intros j Hj. destruct (lookup_lt_is_Some_2 (procs s) j) as [q Hq]; [lia|].
    exists q. split; [|exact Hq]. cbn [procs s1 set_noff setp set_procs].
    rewrite list_lookup_insert_ne by lia. exact Hq. }
  exists s1. split; [|split].
  - rewrite kill_in_range by done.
    erewrite (kill_scan_found s i p); [|done|done|apply kill_body_fail; eauto].
    reflexivity.
  - intros k Hk. rewrite kill_in_range by done.
    unfold for_each_proc.
    replace (length (procs s1)) with (length (procs s))
      by (cbn [procs s1 set_noff setp set_procs]; now rewrite length_insert).
    rewrite (seq_split_at i) by done. rewrite scan_app.
    rewrite scan_skip.
    + assert (forall op, kill_body pid0 op i s1 = Panic "acquire" s1) as Hkb.
      { intros op. unfold kill_body. apply bind_Panic.
        now apply acquire_held with (p := set_lock HeldSelf p). }
      cbn [scan]. rewrite (bind_Panic _ _ _ _ _ (Hkb _)). reflexivity.
    + intros j Hj. apply elem_of_seq in Hj.
      destruct (Hbefore j) as (q & Hq1 & Hq); [lia|].
      eapply kill_body_skip; [exact Hq1|eapply LF; eauto|eapply F; eauto; lia].
  - intros me addr env Hc Hw Hpar Hnz.
    unfold wait, myproc. rewrite bind_gets.
    erewrite bind_Ret by (apply acquire_wait; exact Hw).
    rewrite wait_loop_unfold. rewrite bind_gets.
    replace (length (procs (set_noff (S (noff s1)) (set_wait_lock HeldSelf s1))))
      with (length (procs s))
      by (cbn [procs s1 set_noff setp set_procs set_wait_lock]; now rewrite length_insert).
    rewrite (seq_split_at i) by done.
    set (s2 := set_noff (S (noff s1)) (set_wait_lock HeldSelf s1)).
    apply bind_Panic.
    destruct (wait_scan_pass (cpu_proc s1) addr (seq 0 i) (i :: seq (S i) (length (procs s) - S i))
                s2) with (hk := false) as (hk' & ->).
    { intros j Hj. apply elem_of_seq in Hj.
      destruct (Hbefore j) as (q & Hq1 & Hq); [lia|].
      exists q. split; [exact Hq1|]. split; [eapply LF; eauto|].
      intros Hq2. eapply Hnz; eauto; [lia|]. rewrite Hq2. exact Hc. }
    cbn [wait_scan].
    erewrite bind_Ret by (apply getp_eq; exact H1).
    cbn [parent set_lock]. rewrite bool_decide_eq_true_2 by (rewrite Hpar; now symmetry).
    apply bind_Panic. now apply acquire_held with (p := set_lock HeldSelf p).
Qed.

(** ** A pass of signalhandler that enters a user handler *)

Lemma signal_loop_handling s i p sigs env :
  cpu_proc s = Some i -> procs s !! i = Some p -> killed p = 0 -> stopped p = 0 ->
  signal_handling p <> 0 ->
  signal_loop i sigs env s = Ret tt s.
Proof.
  intros Hc Hp Hk Hs Hh. induction sigs as [|j sigs IH]; [reflexivity|].
  cbn [signal_loop]. mstep. rewrite Hk. cbn [Z.eqb negb]. cbv iota.
  erewrite bind_Ret by (eapply stop_wait_running; eauto).
  erewrite bind_Ret by (eapply is_pending_and_not_masked_eq; eauto).
  destruct (pending_unmasked p j).
  - cbn [Z.eqb]. cbv iota. mstep.
    destruct (Z.eqb_spec (signal_handling p) 0); [done|]. reflexivity.
  - cbn [Z.eqb]. cbv iota. exact IH.
Qed.

(** X30: a pass of [signalhandler] enters one user handler.  When signal
    [k] is the first deliverable signal and its handler is a user
    address, the pass leaves the process as [usersignalhandler] set it up
    for [k], clears the pending bit of [k] and returns: no signal after
    [k] is handled in this pass, whatever its action, and the pending bits
    of the others are as they were. *)
Theorem signalhandler_enters_one_user_handler (s : kstate) (i : nat) (p : proc)
    (tf : trapframe_t) (k : Z) (env : list envstep) :
  cpu_proc s = Some i -> procs s !! i = Some p -> lock p = Free ->
  signal_handling p = 0 -> killed p = 0 -> stopped p = 0 -> trapframe p = Some tf ->
  0 <= k <= 31 -> pending_unmasked p k = true ->
  (forall j, 0 <= j < k -> pending_unmasked p j = false) ->
  handler p k <> SIG_IGN -> handler p k <> SIG_DFL -> handler p k <> SIGSTOP ->
  handler p k <> SIGCONT -> handler p k <> SIGKILL ->
  exists s1 p1,
    usersignalhandler i k s = Ret tt s1 /\ procs s1 !! i = Some p1 /\
    signal_handling p1 = 1 /\
    let m := Z.land (pending_signals p) (u32 (Z.lnot (shl1 k))) in
    signalhandler env s = Ret tt (setp i (set_pending_signals m p1) s1) /\
    Z.testbit m k = false /\
    (forall b, 0 <= b <= 31 -> b <> k -> Z.testbit m b = Z.testbit (pending_signals p) b).
Proof.
  intros Hc Hp Hl Hh Hk Hs Ht Hr Hpend Hbefore Hign Hdfl Hstop Hcont Hkill.
  pose proof (lookup_lt_Some _ _ _ Hp) as Hlt.
  pose proof (usersignalhandler_eq s i p tf k Hc Hp Hl Ht) as Hu. cbv zeta in Hu.
  match type of Hu with _ = Ret tt (set_ext ?x (setp _ ?q _)) =>
    set (x1 := x) in *; set (p1 := q) in * end.
  exists (set_ext x1 (setp i p1 s)), p1.
  split; [exact Hu|].
  split; [cbn [procs set_ext setp set_procs]; now apply list_lookup_insert_eq|].
  split; [reflexivity|].
  intros m. split; [|split].
  - unfold signalhandler, myproc. mstep. rewrite Hc. mstep. rewrite Hh.
    cbn [Z.eqb negb]. cbv iota.
    destruct (signums_split k Hr) as (l1 & l2 & -> & Hl1).
    erewrite signal_loop_skip; [|exact Hc|exact Hp|exact Hk|exact Hs|].
    2:{ intros j Hj. apply Hbefore. now apply Hl1. }
    cbn [signal_loop]. mstep. rewrite Hk. cbn [Z.eqb negb]. cbv iota.
    erewrite bind_Ret by (eapply stop_wait_running; eauto).
    erewrite bind_Ret by (eapply is_pending_and_not_masked_eq; eauto).
    rewrite Hpend. cbn [Z.eqb]. cbv iota. mstep. rewrite Hh.
    cbn [Z.eqb negb]. cbv iota.
    destruct (Z.eqb_spec (handler p k) SIG_IGN); [done|].
    unfold dispatch.
    destruct (Z.eqb_spec (handler p k) SIG_DFL); [done|].
    destruct (Z.eqb_spec (handler p k) SIGSTOP); [done|].
    destruct (Z.eqb_spec (handler p k) SIGCONT); [done|].
    destruct (Z.eqb_spec (handler p k) SIGKILL); [done|].
    erewrite bind_Ret by exact Hu.
    erewrite bind_Ret.
    2:{ apply turnoff_sigbit_eq with (p := p1).
        - cbn [procs set_ext setp set_procs]. now apply list_lookup_insert_eq.
        - exact Hl. }
    change (pending_signals p1) with (pending_signals p). fold m.
    rewrite signal_loop_handling with (p := set_pending_signals m p1).
    + norm. rewrite ?Hc. reflexivity.
    + norm. exact Hc.
    + norm. now apply list_lookup_insert_eq.
    + exact Hk.
    + exact Hs.
    + discriminate.
  - unfold m. rewrite Z.land_spec, testbit_u32, Z.lnot_spec, testbit_shl1 by lia.
    rewrite Z.eqb_refl. cbn [orb negb]. now rewrite !andb_false_r.
  - intros b Hb Hne. unfold m.
    rewrite Z.land_spec, testbit_u32, Z.lnot_spec, testbit_shl1 by lia.
    destruct (Z.eqb_spec b k); [done|].
    replace (b <? 32) with true by (symmetry; apply Z.ltb_lt; lia).
    replace (31 <? b) with false by (symmetry; apply Z.ltb_ge; lia).
    rewrite andb_false_r. cbn [orb negb andb]. now rewrite ?andb_true_r.
Qed.

(** * The flag [signal_handling] over the rest of [proc.c] *)

Lemma keeps_call_ext_ (f : ext_t -> ext_t) : keeps (call_ext_ f).
Proof.
  unfold call_ext_. apply keeps_modify. intros s. apply handling_kept_procs. reflexivity.
Qed.

Lemma keeps_allocpid : keeps allocpid.
Proof.
  unfold allocpid.
  apply keeps_bind; [apply keeps_acquire|intros _].
  apply keeps_bind; [apply keeps_gets|intros n].
  apply keeps_bind; [|intros _].
  { apply keeps_modify. intros s. apply handling_kept_procs. reflexivity. }
  apply keeps_bind; [apply keeps_release|intros _]. apply keeps_ret.
Qed.

Lemma keeps_proc_freepagetable pt size : keeps (proc_freepagetable pt size).
Proof.
  unfold proc_freepagetable.
  repeat (apply keeps_bind; [apply keeps_call_ext_|intros _]). apply keeps_call_ext_.
Qed.

Lemma keeps_freeproc i : keeps (freeproc i).
Proof.
  unfold freeproc.
  repeat first
    [ apply keeps_ret | apply keeps_getp | apply keeps_call_ext_
    | apply keeps_proc_freepagetable
    | apply keeps_modp; intros ?; cbn; done
    | apply keeps_bind; [|intros ?]
    | match goal with |- keeps (if ?b then _ else _) => destruct b end ].
Qed.

Lemma keeps_proc_pagetable i : keeps (proc_pagetable i).
Proof.
  unfold proc_pagetable.
  repeat first
    [ apply keeps_ret | apply keeps_call_ext | apply keeps_call_ext_
    | apply keeps_bind; [|intros ?]
    | match goal with |- keeps (if ?b then _ else _) => destruct b end ].
Qed.

Lemma keeps_wakeup ch : keeps (wakeup ch).
Proof.
  unfold wakeup. apply keeps_bind; [|intros ?; apply keeps_ret].
  apply keeps_for_each_proc. intros i. unfold wakeup_body, myproc. keeps_tac.
Qed.

Lemma keeps_sleep ch lk e : step_keeps e -> keeps (sleep ch lk e).
Proof.
  intros He. unfold sleep.
  repeat first
    [ apply keeps_myproc_deref | apply keeps_acquire | apply keeps_release
    | apply keeps_sched; exact He
    | apply keeps_modp; intros ?; cbn; done
    | apply keeps_bind; [|intros ?] ].
Qed.

Lemma keeps_reparent i : keeps (reparent i).
Proof.
  unfold reparent. apply keeps_bind; [|intros ?; apply keeps_ret].
  apply keeps_for_each_proc. intros j. unfold reparent_body.
  repeat first
    [ apply keeps_ret | apply keeps_gets | apply keeps_getp | apply keeps_wakeup
    | apply keeps_modp; intros ?; cbn; done
    | apply keeps_bind; [|intros ?]
    | match goal with |- keeps (if ?b then _ else _) => destruct b end ].
Qed.

Lemma keeps_close_files i fds : keeps (close_files i fds).
Proof.
  induction fds as [|fd fds IH]; cbn [close_files]; [apply keeps_ret|].
  apply keeps_bind; [apply keeps_getp|intros p].
  apply keeps_bind; [|intros _; exact IH].
  destruct (_ =? 0); [apply keeps_ret|].
  apply keeps_bind; [apply keeps_call_ext_|intros _].
  apply keeps_modp. intros ?; cbn; done.
Qed.

Lemma keeps_exit status e : step_keeps e -> keeps (exit status e).
Proof.
  intros He. unfold exit, myproc.
  repeat first
    [ apply keeps_ret | apply keeps_gets | apply keeps_panic | apply keeps_getp
    | apply keeps_acquire | apply keeps_release | apply keeps_deref
    | apply keeps_call_ext_ | apply keeps_close_files | apply keeps_reparent
    | apply keeps_wakeup
    | apply keeps_sched; exact He
    | apply keeps_modp; intros ?; cbn; done
    | apply keeps_bind; [|intros ?]
    | match goal with |- keeps (if ?b then _ else _) => destruct b end ].
Qed.

Lemma keeps_wait_scan me addr slots :
  forall hk, keeps (wait_scan me addr slots hk).
Proof.
  induction slots as [|j slots IH]; intros hk; cbn [wait_scan]; [apply keeps_ret|].
  repeat first
    [ apply IH
    | apply keeps_ret | apply keeps_getp | apply keeps_acquire | apply keeps_release
    | apply keeps_deref | apply keeps_call_ext | apply keeps_freeproc
    | apply keeps_bind; [|intros ?]
    | match goal with
      | |- keeps (if ?b then _ else _) => destruct b
      end ].
Qed.

Lemma keeps_wait_loop me addr env : env_keeps env -> keeps (wait_loop me addr env).
Proof.
  induction env as [|f env IH]; intros He; rewrite wait_loop_unfold.
  - apply keeps_bind; [apply keeps_gets|intros n].
    apply keeps_bind; [apply keeps_wait_scan|intros [hk|v]]; [|apply keeps_ret].
    apply keeps_bind; [|intros k0].
    { destruct (negb hk); [apply keeps_ret|].
      apply keeps_bind; [apply keeps_deref|intros i].
      apply keeps_bind; [apply keeps_getp|intros p]. apply keeps_ret. }
    destruct (_ || _).
    { apply keeps_bind; [apply keeps_release|intros _]. apply keeps_ret. }
    apply keeps_bind; [|intros _; apply keeps_ret].
    apply keeps_sleep. intros f Hf. discriminate.
  - inversion He as [|? ? Hf He']; subst.
    apply keeps_bind; [apply keeps_gets|intros n].
    apply keeps_bind; [apply keeps_wait_scan|intros [hk|v]]; [|apply keeps_ret].
    apply keeps_bind; [|intros k0].
    { destruct (negb hk); [apply keeps_ret|].
      apply keeps_bind; [apply keeps_deref|intros i].
      apply keeps_bind; [apply keeps_getp|intros p]. apply keeps_ret. }
    destruct (_ || _).
    { apply keeps_bind; [apply keeps_release|intros _]. apply keeps_ret. }
    apply keeps_bind; [|intros _; now apply IH].
    apply keeps_sleep. intros f' [= <-]. exact Hf.
Qed.

Lemma keeps_wait addr env : env_keeps env -> keeps (wait addr env).
Proof.
  intros He. unfold wait, myproc.
  apply keeps_bind; [apply keeps_gets|intros me].
  apply keeps_bind; [apply keeps_acquire|intros _]. now apply keeps_wait_loop.
Qed.

Lemma keeps_growproc n : keeps (growproc n).
Proof.
  unfold growproc.
  repeat first
    [ apply keeps_ret | apply keeps_getp | apply keeps_myproc_deref | apply keeps_call_ext
    | apply keeps_modp; intros ?; cbn; done
    | apply keeps_bind; [|intros ?]
    | match goal with |- keeps (if ?b then _ else _) => destruct b end ].
Qed.

Lemma keeps_procinit : keeps procinit.
Proof.
  unfold procinit, initlock.
  apply keeps_bind; [apply keeps_modify; intros s; apply handling_kept_lock_set|intros _].
  apply keeps_bind; [apply keeps_modify; intros s; apply handling_kept_lock_set|intros _].
  apply keeps_bind; [|intros _; apply keeps_ret].
  apply keeps_for_each_proc. intros i. unfold procinit_body, initlock.
  apply keeps_bind; [apply keeps_modify; intros s; apply handling_kept_lock_set|intros _].
  apply keeps_bind; [apply keeps_modp; intros ?; cbn; done|intros _]. apply keeps_ret.
Qed.

Lemma keeps_scheduler_round run :
  (forall i s, handling_kept s (run i s)) -> keeps (scheduler_round run).
Proof.
  intros Hrun. unfold scheduler_round.
  apply keeps_bind; [|intros _; apply keeps_ret].
  apply keeps_for_each_proc. intros i. unfold scheduler_body.
  repeat first
    [ apply keeps_ret | apply keeps_getp | apply keeps_acquire | apply keeps_release
    | apply keeps_modify; intros ?; first [apply Hrun | apply handling_kept_procs; reflexivity]
    | apply keeps_modp; intros ?; cbn; done
    | apply keeps_bind; [|intros ?]
    | match goal with |- keeps (if ?b then _ else _) => destruct b end ].
Qed.

Lemma keeps_procdump_loop slots : keeps (procdump_loop slots).
Proof.
  induction slots as [|j slots IH]; cbn [procdump_loop]; [apply keeps_ret|].
  repeat first
    [ apply IH | apply keeps_ret | apply keeps_getp
    | apply keeps_bind; [|intros ?]
    | match goal with |- keeps (if ?b then _ else _) => destruct b end ].
Qed.

Lemma keeps_procdump : keeps procdump.
Proof. intros s. unfold procdump. apply keeps_procdump_loop. Qed.

Lemma keeps_copy_handlers me ni js : keeps (copy_handlers me ni js).
Proof.
  induction js as [|j js IH]; cbn [copy_handlers]; [apply keeps_ret|].
  apply keeps_bind; [apply keeps_getp|intros p].
  apply keeps_bind; [apply keeps_modp; intros ?; cbn; done|intros _]. exact IH.
Qed.

Lemma keeps_dup_files me ni fds : keeps (dup_files me ni fds).
Proof.
  induction fds as [|fd fds IH]; cbn [dup_files]; [apply keeps_ret|].
  apply keeps_bind; [apply keeps_getp|intros p].
  apply keeps_bind; [|intros _; exact IH].
  destruct (_ =? 0); [apply keeps_ret|].
  apply keeps_bind; [apply keeps_call_ext|intros f].
  apply keeps_modp. intros ?; cbn; done.
Qed.

(** ** allocproc: the one slot it resets is UNUSED *)

Lemma handling_kept_but_of_kept x s s' : handling_kept s s' -> handling_kept_but x s s'.
Proof. intros H j p _. apply H. Qed.

Lemma keeps_but_of_keeps {A} x (m : M A) : keeps m -> keeps_but x m.
Proof. intros H s. apply handling_kept_but_of_kept, H. Qed.

Lemma keeps_but_bind {A B} x (m : M A) (k : A -> M B) :
  keeps_but x m -> (forall a, keeps_but x (k a)) -> keeps_but x (bind m k).
Proof.
  intros Hm Hk s. unfold bind. specialize (Hm s).
  destruct (m s) as [a s'| | |]; cbn [final] in *; try done.
  intros j p Hj Hp Hh. destruct (Hm j p Hj Hp Hh) as (p' & Hp' & Hh').
  exact (Hk a s' j p' Hj Hp' Hh').
Qed.

Lemma keeps_but_modp x f : keeps_but x (modp x f).
Proof.
  intros s j p Hj Hp Hh. unfold modp. destruct (procs s !! x); cbn [final]; [|eauto].
  exists p. split; [|exact Hh]. cbn [procs setp set_procs].
  rewrite list_lookup_insert_ne by (apply not_eq_sym; exact Hj). exact Hp.
Qed.

Lemma getp_inv i s p s1 : getp i s = Ret p s1 -> s1 = s /\ procs s !! i = Some p.
Proof. unfold getp. destruct (procs s !! i); [|discriminate]. now intros [= -> ->]. Qed.

Lemma acquire_inv l s u s1 :
  acquire l s = Ret u s1 -> s1 = set_noff (S (noff s)) (lock_set l HeldSelf s).
Proof. unfold acquire. destruct (lock_of l s) as [[]|]; try discriminate. now intros [= <-]. Qed.

Lemma release_inv l s u s1 :
  release l s = Ret u s1 -> exists n, s1 = set_noff n (lock_set l Free s).
Proof.
  unfold release. destruct (lock_of l s) as [[]|]; try discriminate.
  destruct (noff s) as [|n]; [discriminate|]. intros [= <-]. eauto.
Qed.

Lemma same_but_locks_lock_set l v s n :
  same_but_locks s (set_noff n (lock_set l v s)).
Proof.
  unfold same_but_locks. destruct l as [| |i]; cbn [lock_set]; try reflexivity.
  destruct (procs s !! i) as [p|] eqn:E; [|reflexivity].
  cbn [procs set_noff set_procs]. rewrite list_fmap_insert.
  apply list_insert_id. rewrite list_lookup_fmap, E. reflexivity.
Qed.

Lemma same_but_locks_trans s1 s2 s3 :
  same_but_locks s1 s2 -> same_but_locks s2 s3 -> same_but_locks s1 s3.
Proof. unfold same_but_locks. congruence. Qed.

Lemma same_but_locks_lookup s s1 j p :
  same_but_locks s s1 -> procs s !! j = Some p ->
  exists p1, procs s1 !! j = Some p1 /\ state p1 = state p /\
    signal_handling p1 = signal_handling p.
Proof.
  unfold same_but_locks. intros E Hp.
  assert (map (set_lock Free) (procs s1) !! j = Some (set_lock Free p)) as H.
  { rewrite E, list_lookup_fmap, Hp. reflexivity. }
  rewrite list_lookup_fmap in H. destruct (procs s1 !! j) as [p1|]; [|discriminate].
  exists p1. split; [reflexivity|].
  change (Some (set_lock Free p1) = Some (set_lock Free p)) in H.
  split.
  - pose proof (f_equal (fmap state) H) as Hs. now inversion Hs.
  - pose proof (f_equal (fmap signal_handling) H) as Hs. now inversion Hs.
Qed.

Lemma allocproc_body_inv i s r s1 :
  allocproc_body i s = Ret r s1 ->
  same_but_locks s s1 /\
  (forall i', r = Some i' -> exists q, procs s1 !! i' = Some q /\ state q = UNUSED).
Proof.
  unfold allocproc_body, bind.
  destruct (acquire (ProcLock i) s) as [u sa| | |] eqn:Ea; try discriminate.
  apply acquire_inv in Ea. subst sa.
  destruct (getp i _) as [p sg| | |] eqn:Eg; try discriminate.
  apply getp_inv in Eg as [-> Hp].
  destruct (bool_decide (state p = UNUSED)) eqn:Es.
  - apply bool_decide_eq_true in Es. unfold ret. intros [= <- <-].
    split; [exact (same_but_locks_lock_set (ProcLock i) HeldSelf s _)|].
    intros i' [= <-]. eauto.
  - destruct (release (ProcLock i) _) as [u' sr| | |] eqn:Er; try discriminate.
    apply release_inv in Er as [n ->]. unfold ret. intros [= <- <-].
    split; [|discriminate].
    eapply same_but_locks_trans;
      [exact (same_but_locks_lock_set (ProcLock i) HeldSelf s (S (noff s)))|].
    exact (same_but_locks_lock_set (ProcLock i) Free _ n).
Qed.

Lemma allocproc_scan_inv l :
  forall s r s1,
    scan allocproc_body l s = Ret r s1 ->
    same_but_locks s s1 /\
    (forall i, r = Some i -> exists q, procs s1 !! i = Some q /\ state q = UNUSED).
Proof.
  induction l as [|i l IH]; intros s r s1; cbn [scan].
  - unfold ret. intros [= <- <-]. split; [reflexivity|discriminate].
  - unfold bind. destruct (allocproc_body i s) as [r0 s0| | |] eqn:Eb; try discriminate.
    destruct (allocproc_body_inv _ _ _ _ Eb) as [H0 Hr0].
    destruct r0 as [i0|].
    + unfold ret. intros [= <- <-]. split; [exact H0|exact Hr0].
    + intros H. destruct (IH _ _ _ H) as [H1 Hr1].
      split; [eapply same_but_locks_trans; eauto|exact Hr1].
Qed.

Lemma keeps_allocproc_body i : keeps (allocproc_body i).
Proof. unfold allocproc_body. keeps_tac. Qed.

Lemma keeps_used_of_keeps {A} (m : M A) : keeps m -> keeps_used m.
Proof. intros H s j p Hp _. apply H, Hp. Qed.

Lemma keeps_used_bind {A B} (m : M A) (k : A -> M B) :
  keeps_used m -> (forall a, keeps (k a)) -> keeps_used (bind m k).
Proof.
  intros Hm Hk s j p Hp Hu Hh. unfold bind. specialize (Hm s j p Hp Hu Hh).
  destruct (m s) as [a s'| | |]; cbn [final] in *; try done.
  destruct Hm as (p' & Hp' & Hh'). exact (Hk a s' j p' Hp' Hh').
Qed.

Lemma keeps_used_gets_bind {A B} (f : kstate -> A) (k : A -> M B) :
  (forall a, keeps_used (k a)) -> keeps_used (bind (gets f) k).
Proof. intros Hk s. unfold bind, gets. apply Hk. Qed.

Lemma keeps_used_allocproc : keeps_used allocproc.
Proof.
  intros s j p Hp Hu Hh. unfold allocproc. unfold bind at 1.
  pose proof (keeps_for_each_proc allocproc_body keeps_allocproc_body s j p Hp Hh) as Hk.
  destruct (for_each_proc allocproc_body s) as [[i|] s1| | |] eqn:E;
    cbn [final] in Hk; try exact Hk.
  unfold for_each_proc in E. destruct (allocproc_scan_inv _ _ _ _ E) as [Hsb Hi].
  destruct (Hi i eq_refl) as (q & Hq & Hqu).
  destruct (same_but_locks_lookup _ _ _ _ Hsb Hp) as (p1 & Hp1 & Hs1 & Hh1).
  assert (j <> i) as Hne.
  { intros ->. rewrite Hq in Hp1. inversion Hp1; subst p1. congruence. }
  match goal with
  | |- context [final (?m s1)] => assert (keeps_but i m) as Ht
  end.
  { repeat first
      [ apply keeps_but_modp
      | apply keeps_but_of_keeps;
        first [ apply keeps_allocpid | apply keeps_freeproc | apply keeps_proc_pagetable
              | apply keeps_call_ext | apply keeps_release | apply keeps_getp
              | apply keeps_ret ]
      | apply keeps_but_bind; [|intros ?]
      | match goal with |- keeps_but _ (if ?b then _ else _) => destruct b end ]. }
  apply (Ht s1 j p1 Hne Hp1). now rewrite Hh1.
Qed.

Lemma keeps_used_fork : keeps_used fork.
Proof.
  unfold fork, myproc. apply keeps_used_gets_bind. intros me.
  apply keeps_used_bind; [apply keeps_used_allocproc|intros [ni|]]; [|apply keeps_ret].
  repeat first
    [ apply keeps_ret | apply keeps_panic | apply keeps_getp | apply keeps_deref
    | apply keeps_acquire | apply keeps_release | apply keeps_call_ext
    | apply keeps_freeproc | apply keeps_copy_handlers | apply keeps_dup_files
    | apply keeps_modp; intros ?; cbn; done
    | apply keeps_bind; [|intros ?]
    | match goal with
      | |- keeps (if ?b then _ else _) => destruct b
      | |- keeps (match trapframe ?p with Some _ => _ | None => _ end) =>
          destruct (trapframe p)
      end ].
Qed.

Lemma keeps_used_userinit : keeps_used userinit.
Proof.
  unfold userinit.
  apply keeps_used_bind; [apply keeps_used_allocproc|intros r].
  repeat first
    [ apply keeps_ret | apply keeps_panic | apply keeps_getp | apply keeps_deref
    | apply keeps_release | apply keeps_call_ext | apply keeps_call_ext_
    | apply keeps_modify; intros ?; apply handling_kept_procs; reflexivity
    | apply keeps_modp; intros ?; cbn; done
    | apply keeps_bind; [|intros ?]
    | match goal with
      | |- keeps (match trapframe ?p with Some _ => _ | None => _ end) =>
          destruct (trapframe p)
      end ].
Qed.

(** C5: with [signal_handling] set, [signalhandler] returns at once and
    the kernel state is as before: nothing is dispatched and no signal
    state changes.  [sigret] clears the flag, and no other call of
    [proc.c] clears the flag of a process: [kill], [sigprocmask],
    [sigaction], the delivery loop and its helpers, [exit], [wait],
    [growproc], [sleep], [wakeup], [yield], [sched], the scheduler's
    round, [freeproc], [procinit] and [procdump] leave every set flag set
    however they end (what runs while the caller is switched out
    permitting); [allocproc], and [fork] and [userinit] through it, leave
    set the flag of every record in use, the one flag they reset being
    that of the UNUSED slot they claim for a new process. *)
Theorem signal_handling_guards_delivery (s : kstate) (i : nat) (p : proc)
    (env : list envstep) :
  cpu_proc s = Some i -> procs s !! i = Some p -> signal_handling p <> 0 ->
  signalhandler env s = Ret tt s /\
  (forall pid0 signum, handling_kept s (final (kill pid0 signum s))) /\
  (forall m, handling_kept s (final (sigprocmask m s))) /\
  (forall signum act oldact a, handling_kept s (final (sigaction signum act oldact a s))) /\
  (forall env' s0, env_keeps env' -> handling_kept s0 (final (signalhandler env' s0))) /\
  (lock p = Free -> trapframe p <> None ->
     exists s' p', sigret s = Ret tt s' /\ procs s' !! i = Some p' /\
       signal_handling p' = 0) /\
  ((forall status e, step_keeps e -> keeps (exit status e)) /\
   (forall addr env', env_keeps env' -> keeps (wait addr env')) /\
   (forall n, keeps (growproc n)) /\
   (forall ch lk e, step_keeps e -> keeps (sleep ch lk e)) /\
   (forall ch, keeps (wakeup ch)) /\
   (forall e, step_keeps e -> keeps (yield e)) /\
   (forall e, step_keeps e -> keeps (sched e)) /\
   (forall run, (forall j s0, handling_kept s0 (run j s0)) -> keeps (scheduler_round run)) /\
   (forall j, keeps (freeproc j)) /\ (forall j, keeps (reparent j)) /\
   keeps allocpid /\ keeps procinit /\ keeps procdump /\
   (forall j k, keeps (usersignalhandler j k)) /\
   (forall j k, keeps (turnoff_sigbit j k)) /\
   (forall k, keeps (is_pending_and_not_masked k)) /\
   keeps search_cont_signals /\
   keeps sigcont_func /\ keeps sigstop_func /\ keeps sigkill_func) /\
  (keeps_used allocproc /\ keeps_used fork /\ keeps_used userinit).
Proof.
  intros Hc Hp Hh. split; [eapply signalhandler_guard; eauto|].
  split; [intros; apply keeps_kill|]. split; [intros; apply keeps_sigprocmask|].
  split; [intros; apply keeps_sigaction|].
  split; [intros env' s0 He; now apply keeps_signalhandler|].
  split.
  { intros Hl Ht. destruct (trapframe p) as [tf|] eqn:E; [|done].
    destruct (sigret_clears s i p tf) as (s' & p' & H1 & H2 & H3 & _); eauto. }
  split.
  { split; [intros; now apply keeps_exit|]. split; [intros; now apply keeps_wait|].
    split; [intros; apply keeps_growproc|]. split; [intros; now apply keeps_sleep|].
    split; [intros; apply keeps_wakeup|]. split; [intros; now apply keeps_yield|].
    split; [intros; now apply keeps_sched|].
    split; [intros; now apply keeps_scheduler_round|].
    split; [intros; apply keeps_freeproc|]. split; [intros; apply keeps_reparent|].
    split; [apply keeps_allocpid|]. split; [apply keeps_procinit|].
    split; [apply keeps_procdump|]. split; [intros; apply keeps_usersignalhandler|].
    split; [intros; apply keeps_turnoff_sigbit|]. split; [intros; apply keeps_is_pending|].
    split; [apply keeps_search_cont_signals|]. split; [apply keeps_sigcont_func|].
    split; [apply keeps_sigstop_func|apply keeps_sigkill_func]. }
  split; [apply keeps_used_allocproc|]. split; [apply keeps_used_fork|].
  apply keeps_used_userinit.
Qed.
End Proofs.

(** * The calls on the small platform *)

Lemma toy_locks_free (ps : list proc) (cur : option nat) :
  Forall (fun q => lock q = Free) ps -> locks_free (Toy.boot ps cur).
Proof.
  intros H j q Hq. rewrite Forall_forall in H. apply H.
  apply list_elem_of_lookup. exists j. exact Hq.
Defined.

Lemma kill_sets_pending_bit_witness :
  locks_free Toy.s1 /\
  @kill Toy.collab 2 6 Toy.s1
  = Ret 0 (setp 1 (set_pending_signals (Z.lor 32 (2 ^ 6)) Toy.caller) Toy.s1).
Proof.
  assert (locks_free Toy.s1) as LF by (apply toy_locks_free; repeat constructor).
  split; [exact LF|].
  refine (proj1 (proj2 (proj2 (proj2 (kill_sets_pending_bit Toy.s1 2 6 LF) _)
                          1%nat Toy.caller _) _ _ _)).
  - lia.
  - split; [reflexivity|]. split; [reflexivity|].
    intros [|j] q Hj; [|lia]. intros [= <-]. vm_compute. discriminate.
  - reflexivity.
  - discriminate.
  - discriminate.
Defined.

Lemma toy_first_pid_killed : first_pid Toy.s1 3 2 Toy.killed_rec.
Proof.
  split; [reflexivity|]. split; [reflexivity|].
  intros [|[|j]] q Hj; [| |lia]; intros [= <-]; vm_compute; discriminate.
Defined.

Lemma kill_early_return_holds_lock_witness :
  exists s' p',
    @kill Toy.collab 3 5 Toy.s1 = Ret (-1) s' /\
    procs s' !! 2%nat = Some p' /\ lock p' = HeldSelf /\ noff s' = S (noff Toy.s1).
Proof.
  apply (kill_early_return_holds_lock Toy.s1 3 5 2 Toy.killed_rec).
  - apply toy_locks_free; repeat constructor.
  - lia.
  - exact toy_first_pid_killed.
  - left. vm_compute. discriminate.
Defined.

Lemma sigaction_writes_handler_only_witness :
  exists s',
    @sigaction Toy.consts Toy.collab 5 4096 8192 777 Toy.s1 = Ret 0 s' /\
    s' = setp 1 (set_handler 5 4096 Toy.caller) Toy.s1 /\
    ext s' = ext Toy.s1.
Proof.
  apply (sigaction_writes_handler_only (K := Toy.consts) Toy.s1 1 Toy.caller 5 4096 8192 777).
  - reflexivity.
  - reflexivity.
  - lia.
  - vm_compute. discriminate.
  - vm_compute. discriminate.
  - discriminate.
Defined.

Lemma signalhandler_ignore_keeps_pending_witness :
  @signalhandler Toy.consts Toy.collab [] Toy.s1 = Ret tt Toy.s1 /\
  Z.testbit (pending_signals Toy.caller) 5 = true.
Proof.
  apply (signalhandler_ignore_keeps_pending (K := Toy.consts) Toy.s1 1 Toy.caller 5 []).
  - reflexivity.
  - reflexivity.
  - reflexivity.
  - reflexivity.
  - reflexivity.
  - lia.
  - vm_compute. reflexivity.
  - reflexivity.
  - intros j Hj Hne.
    assert (Z.land (pending_signals Toy.caller) (u32 (shl1 j)) = 0) as Hz.
    { rewrite u32_shl1 by lia. apply Z.eqb_eq. rewrite land_pow2_eqb by lia.
      change (pending_signals Toy.caller) with (2 ^ 5).
      rewrite Z.pow2_bits_eqb by lia. destruct (Z.eqb_spec 5 j); [lia|reflexivity]. }
    unfold pending_unmasked. rewrite Hz. reflexivity.
Defined.

Lemma signal_handling_guards_delivery_witness :
  @signalhandler Toy.consts Toy.collab [] Toy.s_handling = Ret tt Toy.s_handling /\
  exists s' p',
    @sigret Toy.collab Toy.s_handling = Ret tt s' /\
    procs s' !! 1%nat = Some p' /\ signal_handling p' = 0.
Proof.
  pose proof (signal_handling_guards_delivery (K := Toy.consts) (V := Toy.collab2)
                Toy.s_handling 1 (set_signal_handling 1 Toy.caller) [] eq_refl eq_refl)
    as H.
  assert (signal_handling (set_signal_handling 1 Toy.caller) <> 0) as Hh
    by (vm_compute; discriminate).
  destruct (H Hh) as (H1 & _ & _ & _ & _ & H5 & _).
  split; [exact H1|]. apply H5; [reflexivity|vm_compute; discriminate].
Defined.

Lemma sigprocmask_clears_nonmaskable_witness :
  exists m',
    @sigprocmask Toy.consts Toy.collab (2 ^ 32 - 1) Toy.s1
    = Ret 0 (setp 1 (set_signals_mask m' Toy.caller) Toy.s1) /\
    Z.testbit m' 9 = false /\ Z.testbit m' 17 = false /\ Z.testbit m' 5 = true.
Proof.
  destruct (sigprocmask_clears_nonmaskable (K := Toy.consts) Toy.s1 1 Toy.caller (2 ^ 32 - 1))
    as (m' & H1 & H2 & _).
  - unfold signum_ok. simpl. lia.
  - unfold signum_ok. simpl. lia.
  - reflexivity.
  - reflexivity.
  - exists m'. split; [exact H1|].
    rewrite !H2 by lia. repeat split; reflexivity.
Defined.

Lemma toy_first_zombie : first_zombie Toy.s1 1 3 Toy.zombie_rec.
Proof.
  split; [reflexivity|]. split; [reflexivity|]. split; [reflexivity|].
  intros [|[|[|j]]] q Hj; [| | |lia]; intros [= <-]; vm_compute; discriminate.
Defined.

Lemma wait_reaps_fails_or_sleeps_witness :
  @wait Toy.collab 0 [] Toy.s1
  = Ret 4 (set_ext (freed_ext Toy.zombie_rec (ext Toy.s1))
             (setp 3 (freed Toy.zombie_rec) Toy.s1)).
Proof.
  refine (proj1 (proj1 (wait_reaps_fails_or_sleeps Toy.s1 1 Toy.caller 0
                          eq_refl eq_refl eq_refl _ eq_refl)
                   3%nat Toy.zombie_rec [] toy_first_zombie) eq_refl).
  apply toy_locks_free; repeat constructor.
Defined.

Lemma wait_copyout_failure_keeps_zombie_witness :
  @wait Toy.collab 70000 [] Toy.s1 = Ret (-1) Toy.s1 /\
  procs Toy.s1 !! 3%nat = Some Toy.zombie_rec /\ state Toy.zombie_rec = ZOMBIE.
Proof.
  destruct (wait_copyout_failure_keeps_zombie Toy.s1 1 Toy.caller 3 Toy.zombie_rec
              70000 [] eq_refl eq_refl eq_refl) as (H1 & _ & H3 & H4 & _).
  - apply toy_locks_free; repeat constructor.
  - exact toy_first_zombie.
  - discriminate.
  - vm_compute. reflexivity.
  - split; [exact H1|]. split; [exact H3|exact H4].
Defined.

(** Against C8 as stated: a caller that is marked killed and has a zombie
    child does not get -1 from [wait]; the child is reaped and its pid
    returned. *)
Lemma wait_killed_caller_still_reaps :
  killed (set_killed 1 Toy.caller) <> 0 /\
  procs Toy.s_killed !! 1%nat = Some (set_killed 1 Toy.caller) /\
  cpu_proc Toy.s_killed = Some 1%nat /\
  @wait Toy.collab 0 [] Toy.s_killed
  = Ret 4 (set_ext (freed_ext Toy.zombie_rec (ext Toy.s_killed))
             (setp 3 (freed Toy.zombie_rec) Toy.s_killed)) /\
  forall s', @wait Toy.collab 0 [] Toy.s_killed <> Ret (-1) s'.
Proof.
  assert (@wait Toy.collab 0 [] Toy.s_killed
          = Ret 4 (set_ext (freed_ext Toy.zombie_rec (ext Toy.s_killed))
                     (setp 3 (freed Toy.zombie_rec) Toy.s_killed))) as H
    by reflexivity.
  split; [vm_compute; discriminate|]. split; [reflexivity|]. split; [reflexivity|].
  split; [exact H|]. intros s'. rewrite H. discriminate.
Qed.

Lemma exit_reparents_wakes_and_never_returns_witness :
  exists s',
    @exit Toy.consts Toy.collab 3 None Toy.s1 = Switched s' /\
    exit_post Toy.s1 1 Toy.caller 3 s'.
Proof.
  apply (proj2 (proj2 (exit_reparents_wakes_and_never_returns (K := Toy.consts)
                         Toy.s1 1 Toy.caller 3))).
  - reflexivity.
  - reflexivity.
  - discriminate.
  - apply toy_locks_free; repeat constructor.
  - reflexivity.
  - reflexivity.
Defined.


(** ** The further properties on the small platform *)

Lemma toy_all (P : proc -> Prop) (ps : list proc) (cur : option nat) :
  Forall P ps -> forall j q, procs (Toy.boot ps cur) !! j = Some q -> P q.
Proof.
  intros H j q Hq. rewrite Forall_forall in H. apply H.
  apply list_elem_of_lookup. exists j. exact Hq.
Defined.

Lemma toy_first_unused : first_unused Toy.s1 4 Toy.slot0.
Proof.
  split; [reflexivity|]. split; [reflexivity|].
  intros [|[|[|[|j]]]] q Hj; [| | | |lia]; intros [= <-]; vm_compute; discriminate.
Defined.


Lemma freeproc_twice_is_once_witness :
  exists s1 c1,
    @freeproc Toy.collab 3 Toy.s1 = Ret tt s1 /\ procs s1 !! 3%nat = Some c1 /\
    state c1 = UNUSED /\ freeproc 3 s1 = Ret tt s1.
Proof.
  destruct (freeproc_twice_is_once Toy.s1 3 Toy.zombie_rec eq_refl)
    as (s1 & c1 & H1 & H2 & (H3 & _) & _ & H4).
  exists s1, c1. auto.
Defined.

Lemma allocproc_full_table_witness :
  @allocproc Toy.consts Toy.collab Toy.s_full = Ret None Toy.s_full.
Proof.
  apply (allocproc_full_table (K := Toy.consts) Toy.s_full).
  - apply toy_locks_free; repeat constructor.
  - apply (toy_all (fun q => state q <> UNUSED)). repeat constructor; discriminate.
Defined.

Lemma allocproc_claims_first_unused_witness :
  returns (@allocproc Toy.consts Toy.collab Toy.s1)
    (fun r s' => nextpid s' = 11 /\ pid_lock s' = Free).
Proof.
  eapply returns_weaken.
  - apply (allocproc_claims_first_unused (K := Toy.consts) Toy.s1 4 Toy.slot0).
    + apply toy_locks_free; repeat constructor.
    + reflexivity.
    + exact toy_first_unused.
  - intros r s' (H1 & _ & H2 & _). split; [exact H1|exact H2].
Defined.

Lemma allocproc_out_of_memory_witness :
  exists c,
    @allocproc Toy.consts Toy.collab Toy.s_nomem
    = Ret None (set_ext (kalloc (ext Toy.s_nomem)).2 (set_nextpid 11 (setp 4 c Toy.s_nomem))) /\
    state c = UNUSED /\ lock c = Free.
Proof.
  destruct (allocproc_out_of_memory (K := Toy.consts) Toy.s_nomem 4 Toy.slot0)
    as (c & H1 & H2 & H3 & _).
  - intros j q Hq. apply (toy_locks_free Toy.table (Some 1%nat)) with (j := j).
    + repeat constructor.
    + exact Hq.
  - reflexivity.
  - exact toy_first_unused.
  - reflexivity.
  - reflexivity.
  - exists c. auto.
Defined.

Lemma wakeup_wakes_sleepers_on_channel_witness :
  exists s',
    @wakeup Toy.collab (ProcPtr 0) Toy.s1 = Ret tt s' /\
    procs s' !! 0%nat = Some (set_state RUNNABLE Toy.init_rec) /\
    wakeup (ProcPtr 0) s' = Ret tt s'.
Proof.
  destruct (wakeup_wakes_sleepers_on_channel Toy.s1 (ProcPtr 0)) as (s' & H1 & _ & _ & H2 & H3).
  - apply toy_locks_free; repeat constructor.
  - exists s'. split; [exact H1|]. split; [|exact H3].
    apply (H2 0%nat Toy.init_rec). reflexivity.
Defined.

Lemma toy_waiting_locks_free : locks_free Toy.s_waiting.
Proof.
  intros j q Hq. apply (toy_locks_free Toy.table (Some 1%nat)) with (j := j).
  - repeat constructor.
  - exact Hq.
Defined.

Lemma sleep_returns_after_wakeup_witness :
  exists s' p',
    @sleep Toy.collab (Addr 64) WaitLock (Some (fun s0 => final (wakeup (Addr 64) s0)))
      Toy.s_waiting = Ret tt s' /\
    procs s' !! 1%nat = Some p' /\ state p' = RUNNING /\ chan p' = Null /\
    wait_lock s' = HeldSelf.
Proof.
  destruct (sleep_returns_after_wakeup Toy.s_waiting 1 Toy.caller (Addr 64))
    as (s' & p' & H1 & H2 & H3 & H4 & _ & H5 & _).
  - reflexivity.
  - reflexivity.
  - exact toy_waiting_locks_free.
  - reflexivity.
  - reflexivity.
  - exists s', p'. auto.
Defined.

Lemma sleep_ignores_other_channels_witness :
  exists s2 p2,
    @sleep Toy.collab (Addr 64) WaitLock (Some (fun s0 => final (wakeup (Addr 128) s0)))
      Toy.s_waiting = Switched s2 /\
    procs s2 !! 1%nat = Some p2 /\ state p2 = SLEEPING /\ chan p2 = Addr 64.
Proof.
  destruct (sleep_ignores_other_channels Toy.s_waiting 1 Toy.caller (Addr 64) (Addr 128))
    as (s1 & s2 & p1 & p2 & _ & _ & _ & _ & _ & _ & _ & H1 & H2 & H3 & H4 & _).
  - reflexivity.
  - reflexivity.
  - exact toy_waiting_locks_free.
  - reflexivity.
  - reflexivity.
  - discriminate.
  - exists s2, p2. auto.
Defined.

Lemma sched_refuses_unsafe_switch_witness :
  @sched Toy.collab None Toy.s1 = Panic "sched p->lock" Toy.s1.
Proof.
  apply (sched_refuses_unsafe_switch Toy.s1 1 Toy.caller None eq_refl eq_refl).
  discriminate.
Defined.

Lemma yield_round_trip_witness :
  @yield Toy.collab (Some (fun s0 => s0)) Toy.s1
  = Ret tt (setp 1 (set_state RUNNING Toy.caller) Toy.s1) /\
  forall e, exists s', @yield Toy.collab e Toy.s_waiting = Panic "sched locks" s'.
Proof.
  split.
  - apply (yield_round_trip Toy.s1 1 Toy.caller eq_refl eq_refl eq_refl). reflexivity.
  - intros e. eexists.
    apply (yield_round_trip Toy.s_waiting 1 Toy.caller eq_refl eq_refl eq_refl).
    discriminate.
Defined.

Lemma toy_signum_ok :
  @signum_ok (@SIGKILL Toy.consts) /\ @signum_ok (@SIGSTOP Toy.consts) /\
  @signum_ok (@SIGCONT Toy.consts).
Proof. unfold signum_ok. cbn. lia. Defined.

Lemma pending_and_not_masked_by_bits_witness :
  @is_pending_and_not_masked Toy.consts Toy.collab 5 Toy.s1 = Ret 1 Toy.s1.
Proof.
  apply (pending_and_not_masked_by_bits (K := Toy.consts) Toy.s1 1 Toy.caller 5).
  - apply toy_signum_ok.
  - apply toy_signum_ok.
  - reflexivity.
  - reflexivity.
  - lia.
  - cbn. lia.
Defined.

Lemma toy_first_pid_caller : first_pid Toy.s1 2 1 Toy.caller.
Proof.
  split; [reflexivity|]. split; [reflexivity|].
  intros [|j] q Hj; [|lia]. intros [= <-]. vm_compute. discriminate.
Defined.

Lemma kill_then_turnoff_sigbit_witness :
  bind (@kill Toy.collab 2 6) (fun _ => turnoff_sigbit 1 6) Toy.s1 = Ret tt Toy.s1.
Proof.
  destruct (kill_then_turnoff_sigbit Toy.s1 2 6 1 Toy.caller) as (m & H1 & _ & H3).
  - apply toy_locks_free; repeat constructor.
  - lia.
  - exact toy_first_pid_caller.
  - reflexivity.
  - discriminate.
  - discriminate.
  - cbn. lia.
  - rewrite H1. f_equal. apply H3. reflexivity.
Defined.

Lemma usersignalhandler_enters_handler_witness :
  exists s1 p1 tf1,
    @usersignalhandler Toy.consts Toy.collab 1 5 Toy.s1 = Ret tt s1 /\
    procs s1 !! 1%nat = Some p1 /\ trapframe p1 = Some tf1 /\
    a0 tf1 = 5 /\ signal_handling p1 = 1.
Proof.
  pose proof (usersignalhandler_enters_handler (K := Toy.consts) Toy.s1 1 Toy.caller
                Toy.zero_tf 5 eq_refl eq_refl eq_refl eq_refl) as H.
  cbv zeta in H.
  destruct H as (s1 & p1 & tf1 & H1 & H2 & H3 & (_ & H4 & _) & _ & _ & H5 & _).
  exists s1, p1, tf1. auto.
Defined.

Lemma sigret_undoes_usersignalhandler_witness :
  exists s1 s2 p2,
    @usersignalhandler Toy.consts Toy.collab 1 5 Toy.s1 = Ret tt s1 /\
    sigret s1 = Ret tt s2 /\ procs s2 !! 1%nat = Some p2 /\
    signals_mask p2 = signals_mask Toy.caller /\ signal_handling p2 = 0.
Proof.
  destruct (sigret_undoes_usersignalhandler (K := Toy.consts) Toy.s1 1 Toy.caller
              Toy.zero_tf 5 eq_refl eq_refl eq_refl eq_refl)
    as (s1 & p1 & tf1 & s2 & p2 & H1 & _ & _ & _ & H2 & H3 & H4 & H5 & _).
  exists s1, s2, p2. auto.
Defined.

Lemma signalhandler_killed_handles_nothing_witness :
  @signalhandler Toy.consts Toy.collab [] Toy.s_killed = Ret tt Toy.s_killed.
Proof.
  apply (signalhandler_killed_handles_nothing (K := Toy.consts) Toy.s_killed 1
           (set_killed 1 Toy.caller) []).
  - reflexivity.
  - reflexivity.
  - discriminate.
Defined.

Lemma signalhandler_default_action_kills_witness :
  exists p',
    @signalhandler Toy.consts Toy.collab [] (Toy.s_signalled 6)
    = Ret tt (setp 1 p' (Toy.s_signalled 6)) /\ killed p' = 1.
Proof.
  pose proof (signalhandler_default_action_kills (K := Toy.consts) (Toy.s_signalled 6) 1
                (Toy.signalled 6) 6 []) as H.
  cbv zeta in H. eexists.
  refine (let H' := H eq_refl eq_refl eq_refl eq_refl eq_refl eq_refl _ _ _ _ eq_refl eq_refl _
          in conj (proj1 H') (proj1 (proj2 H'))).
  - lia.
  - discriminate.
  - discriminate.
  - discriminate.
  - intros j Hj.
    assert (j = 0 \/ j = 1 \/ j = 2 \/ j = 3 \/ j = 4 \/ j = 5) as Hc by lia.
    destruct Hc as [->|[->|[->|[->|[->| ->]]]]]; reflexivity.
Defined.

Lemma stop_wait_ends_on_cont_or_kill_witness :
  exists s',
    @stop_wait Toy.consts Toy.collab 1 [] (Toy.s_stopped (2 ^ 19)) = Ret [] s'.
Proof.
  eexists.
  refine (proj1 (stop_wait_ends_on_cont_or_kill (K := Toy.consts) (Toy.s_stopped (2 ^ 19)) 1
                   (Toy.stopped_rec (2 ^ 19)) [] eq_refl eq_refl eq_refl _) _).
  - discriminate.
  - reflexivity.
Defined.

Lemma toy_only_pending (k j : Z) :
  0 <= k <= 31 -> 0 <= j <= 31 -> j <> k ->
  @pending_unmasked Toy.consts (Toy.signalled k) j = false.
Proof.
  intros Hk Hj Hne. unfold pending_unmasked. rewrite u32_shl1 by done.
  rewrite land_pow2_eqb by lia.
  change (pending_signals (Toy.signalled k)) with (2 ^ k).
  rewrite Z.pow2_bits_eqb by lia.
  destruct (Z.eqb_spec k j); [lia|reflexivity].
Defined.

Lemma signalhandler_stop_then_yield_witness :
  exists s',
    @signalhandler Toy.consts Toy.collab [] (Toy.s_signalled 17) = Switched s'.
Proof.
  pose proof (signalhandler_stop_then_yield (K := Toy.consts) (Toy.s_signalled 17) 1
                (Toy.signalled 17)) as H.
  cbv zeta in H. eexists. apply H.
  - apply toy_signum_ok.
  - apply toy_signum_ok.
  - cbn. lia.
  - discriminate.
  - reflexivity.
  - reflexivity.
  - reflexivity.
  - reflexivity.
  - reflexivity.
  - reflexivity.
  - reflexivity.
  - reflexivity.
  - reflexivity.
  - intros j Hj Hne. apply toy_only_pending; [lia|exact Hj|exact Hne].
Defined.

Lemma stopped_process_resumes_on_sigcont_witness :
  exists s' p',
    @stop_wait Toy.consts Toy.collab 1
      [fun s0 => final (@kill Toy.collab 2 19 s0)] (Toy.s_stopped 0) = Ret [] s' /\
    procs s' !! 1%nat = Some p' /\ stopped p' = 0 /\ state p' = RUNNING.
Proof.
  destruct (stopped_process_resumes_on_sigcont (K := Toy.consts) (Toy.s_stopped 0) 1
              (Toy.stopped_rec 0) [])
    as (s' & p' & H1 & H2 & H3 & H4 & _).
  - apply toy_signum_ok.
  - apply toy_signum_ok.
  - apply toy_signum_ok.
  - reflexivity.
  - split; [reflexivity|]. split; [reflexivity|].
    intros [|j] q Hj; [|lia]. intros [= <-]. vm_compute. discriminate.
  - apply toy_locks_free; repeat constructor.
  - reflexivity.
  - discriminate.
  - reflexivity.
  - reflexivity.
  - cbn. lia.
  - reflexivity.
  - intros j Hj. reflexivity.
  - exists s', p'. auto.
Defined.

Lemma wait_reaps_exited_child_witness :
  exists s1 s3,
    @exit Toy.consts Toy.collab 9 None Toy.s1 = Switched s1 /\
    @wait Toy.collab 0 [] (set_cpu_proc (Some 0%nat) (scheduler_release 1 s1)) = Ret 2 s3.
Proof.
  destruct (wait_reaps_exited_child (K := Toy.consts) Toy.s1 1 0 Toy.caller Toy.init_rec
              9 0 [])
    as (s1 & c & H1 & _ & _ & _ & _ & _ & H2).
  - reflexivity.
  - reflexivity.
  - discriminate.
  - apply toy_locks_free; repeat constructor.
  - reflexivity.
  - reflexivity.
  - reflexivity.
  - discriminate.
  - reflexivity.
  - intros [|j] q Hj Hq Hz; [|lia]. inversion Hq; subst q. discriminate Hz.
  - exists s1. eexists. split; [exact H1|]. exact H2.
Defined.

Lemma toy_quiet : quiet Toy.s1.
Proof.
  split; [|split; reflexivity]. apply toy_locks_free; repeat constructor.
Defined.

Lemma toy_pids_below : pids_below Toy.s1.
Proof.
  split; [reflexivity|].
  apply (toy_all (fun q => pid q < 10)). repeat constructor.
Defined.

Lemma fork_hands_out_a_fresh_pid_witness :
  returns (@fork Toy.consts Toy.collab Toy.s1)
    (fun v s' => quiet s' /\ pids_below s' /\ (v = -1 \/ v = 10)).
Proof.
  eapply returns_weaken.
  - apply (fork_hands_out_a_fresh_pid (K := Toy.consts) Toy.s1 1 Toy.caller Toy.zero_tf).
    + reflexivity.
    + reflexivity.
    + discriminate.
    + reflexivity.
    + exact toy_quiet.
    + exact toy_pids_below.
    + cbn. lia.
  - intros v s' (H1 & _ & _ & H2 & _ & [H3|(H3 & _)]); auto.
Defined.

Lemma growproc_fails_only_when_growing_witness :
  exists v s', @growproc Toy.collab Toy.collab2 4096 Toy.s1 = Ret v s' /\ (v = -1 \/ v = 0).
Proof.
  destruct (growproc_fails_only_when_growing (V := Toy.collab2) Toy.s1 1 Toy.caller 4096
              eq_refl eq_refl) as (v & s' & H1 & [(H2 & _)|(H2 & _)] & _);
    exists v, s'; auto.
Defined.

Lemma scheduler_body_hands_over_witness :
  exists s1,
    scheduler_pick 2 Toy.s_sched = Some (set_noff 1%nat s1) /\
    @scheduler_body Toy.collab (fun _ s0 => s0) 2 Toy.s_sched
    = Ret None (scheduler_release 2 (set_noff 1%nat s1)).
Proof.
  destruct (proj2 (scheduler_body_hands_over Toy.s_sched 2 Toy.killed_rec (fun _ s0 => s0)
                     eq_refl eq_refl eq_refl) eq_refl)
    as (s1 & H1 & H2 & H3).
  exists s1. split; [exact H1|]. subst s1.
  apply (H3 (set_state RUNNING (set_lock HeldSelf Toy.killed_rec))); reflexivity.
Defined.

Lemma scheduler_round_idle_witness :
  @scheduler_round Toy.collab (fun _ s0 => s0) Toy.s_idle = Ret tt Toy.s_idle.
Proof.
  apply (scheduler_round_idle Toy.s_idle).
  - apply toy_locks_free; repeat constructor.
  - apply (toy_all (fun q => state q <> RUNNABLE)). repeat constructor; discriminate.
Defined.

Lemma userinit_sets_up_first_process_witness :
  exists s' c,
    @userinit Toy.consts Toy.collab Toy.collab2 Toy.s1 = Ret tt s' /\
    initproc s' = Some 4%nat /\ procs s' !! 4%nat = Some c /\
    state c = RUNNABLE /\ pid c = 10.
Proof.
  pose proof (userinit_sets_up_first_process (K := Toy.consts) (V := Toy.collab2)
                Toy.s1 4 Toy.slot0) as H.
  destruct (alloc_pages (ext Toy.s1)) as [[[tf0 pt] x4]|] eqn:E;
    [|vm_compute in E; discriminate E].
  destruct H as (s0 & s' & c & tf & _ & H1 & H2 & H3 & H4 & _ & H5 & _).
  - apply toy_locks_free; repeat constructor.
  - reflexivity.
  - exact toy_first_unused.
  - exists s', c. auto.
Defined.

Lemma wait_blocks_until_child_exits_witness :
  exists s',
    @wait Toy.collab 0
      [fun s0 => scheduler_release 2
                   (final (@exit Toy.consts Toy.collab 5 None (set_cpu_proc (Some 2%nat) s0)))]
      Toy.s_nozombie = Ret 3 s'.
Proof.
  destruct (wait_blocks_until_child_exits (K := Toy.consts) Toy.s_nozombie 1 2 Toy.caller
              Toy.killed_rec 5 0 [])
    as (_ & v & s' & c & q & H & _ & _ & [(Hv & _)|(_ & Hne & _)] & _).
  - reflexivity.
  - reflexivity.
  - reflexivity.
  - reflexivity.
  - lia.
  - discriminate.
  - apply toy_locks_free; repeat constructor.
  - reflexivity.
  - reflexivity.
  - reflexivity.
  - refine (toy_all (fun q => parent q = Some 1%nat -> state q <> ZOMBIE) _ _ _).
    repeat constructor; discriminate.
  - intros j q _. revert j q.
    refine (toy_all (fun q => parent q = Some 2%nat -> state q <> ZOMBIE) _ _ _).
    repeat constructor; discriminate.
  - exists s'. subst v. exact H.
  - exfalso. now apply Hne.
Defined.

Lemma failed_kill_then_kill_or_wait_panics_witness :
  exists s1,
    @kill Toy.collab 3 5 Toy.s1 = Ret (-1) s1 /\
    @kill Toy.collab 3 9 s1 = Panic "acquire" s1 /\
    @wait Toy.collab 0 [] s1
    = Panic "acquire" (set_noff (S (noff s1)) (set_wait_lock HeldSelf s1)).
Proof.
  destruct (failed_kill_then_kill_or_wait_panics Toy.s1 3 5 2 Toy.killed_rec)
    as (s1 & H1 & H2 & H3).
  - apply toy_locks_free; repeat constructor.
  - lia.
  - exact toy_first_pid_killed.
  - left. vm_compute. discriminate.
  - exists s1. split; [exact H1|]. split; [apply H2; lia|].
    apply (H3 1%nat); [reflexivity|reflexivity|reflexivity|].
    intros [|[|j]] q Hj Hq Hpar; [| |lia]; inversion Hq; subst q; discriminate Hpar.
Defined.

Lemma signalhandler_enters_one_user_handler_witness :
  exists s1 p1 s',
    @usersignalhandler Toy.consts Toy.collab 1 5 Toy.s_handled = Ret tt s1 /\
    procs s1 !! 1%nat = Some p1 /\ signal_handling p1 = 1 /\
    @signalhandler Toy.consts Toy.collab [] Toy.s_handled = Ret tt s'.
Proof.
  destruct (signalhandler_enters_one_user_handler (K := Toy.consts) Toy.s_handled 1
              Toy.handled_rec Toy.zero_tf 5 [])
    as (s1 & p1 & H1 & H2 & H3 & H4 & _).
  - reflexivity.
  - reflexivity.
  - reflexivity.
  - reflexivity.
  - reflexivity.
  - reflexivity.
  - reflexivity.
  - lia.
  - reflexivity.
  - intros j Hj.
    assert (j = 0 \/ j = 1 \/ j = 2 \/ j = 3 \/ j = 4) as [->|[->|[->|[->| ->]]]] by lia;
      reflexivity.
  - discriminate.
  - discriminate.
  - discriminate.
  - discriminate.
  - discriminate.
  - exists s1, p1. eexists. split; [exact H1|]. split; [exact H2|]. split; [exact H3|].
    exact H4.
Defined.

Lemma fork_copies_or_rolls_back_witness :
  returns (@fork Toy.consts Toy.collab Toy.s1)
    (fun v s' => v = 10 /\ exists c, fork_child Toy.s1 1 Toy.caller Toy.zero_tf 4 c s').
Proof.
  destruct (fork_copies_or_rolls_back (K := Toy.consts) Toy.s1 1 Toy.caller Toy.zero_tf)
    as (_ & _ & H).
  - reflexivity.
  - reflexivity.
  - discriminate.
  - reflexivity.
  - reflexivity.
  - apply toy_locks_free; repeat constructor.
  - reflexivity.
  - reflexivity.
  - specialize (H 4%nat Toy.slot0 toy_first_unused).
    destruct (alloc_pages (ext Toy.s1)) as [[[tf0 pt] x4]|] eqn:E;
      [|vm_compute in E; discriminate E].
    vm_compute in E. injection E as <- <- <-.
    cbv zeta in H.
    match type of H with
    | if ?b then _ else _ =>
        assert (b = false) as Erc by (vm_compute; reflexivity); rewrite Erc in H
    end.
    exact H.
Defined.
